(** * Tolling ALPR pipeline: track fusion and decision engine

    A shallow embedding of the pure decision logic of the repository
    (src/core/ocr_engine.py, src/core/tracker.py, src/core/detector.py,
    src/utils/roi_utils.py, src/config/settings.py and the per-detection
    control flow of src/web/backend/main.py), together with the properties
    the specification states about it.

    Conventions of the embedding:
    - Python [int] is [Z]; Python [float] is [Q].  Confidences, time stamps
      and box centres are only compared, averaged and divided, so the
      rationals give the exact value the floating-point code approximates.
    - Python [str] is a list of Unicode code points ([N]).
    - A call into an external library (Tesseract, EasyOCR, OpenCV, the
      image cache, the database) is an input of the model: its result is
      passed in, [None] standing for a raised exception.
    - Objects mutated in place (the tracks held by the tracker's dict) live
      in an explicit store; a method that mutates [self] returns the new
      object. *)

From Stdlib Require Import ZArith QArith List Bool String Ascii Lia.
From Stdlib Require Import NArith.
Import ListNotations.

Local Open Scope Z_scope.

(** ** Python built-ins used by the sources *)

Module Py.

(** [a > b] on floats. *)
Definition Qgtb (a b : Q) : bool := negb (Qle_bool a b).

(** [a < b] on floats. *)
Definition Qltb (a b : Q) : bool := Qgtb b a.

(** [a <= b] on floats. *)
Definition Qleb (a b : Q) : bool := Qle_bool a b.

(** [max(a, b)]: the first argument is kept unless the second is
    strictly greater. *)
Definition maxQ (a b : Q) : Q := if Qgtb b a then b else a.
Definition maxZ (a b : Z) : Z := if b >? a then b else a.

(** [min(a, b)]: the first argument is kept unless the second is
    strictly smaller. *)
Definition minZ (a b : Z) : Z := if b <? a then b else a.

(** [abs] on floats. *)
Definition absQ (a : Q) : Q := if Qltb a 0 then (- a)%Q else a.

(** [sum] of floats: left to right, starting from 0. *)
Definition sumQ (l : list Q) : Q := fold_left Qplus l 0%Q.

(** [len] as an integer. *)
Definition len {A} (l : list A) : Z := Z.of_nat (List.length l).

(** An [int] used where a [float] is expected. *)
Definition float (z : Z) : Q := inject_Z z.

(** A [str] is a sequence of Unicode code points. *)
Definition char := N.
Definition str := list char.

Definition str_of (s : string) : str :=
  map N_of_ascii (list_ascii_of_string s).

(** Truth value of a string: non-empty. *)
Definition truthy_str (s : str) : bool :=
  match s with [] => false | _ :: _ => true end.

(** Truth value of an [Optional[str]]. *)
Definition truthy_opt_str (s : option str) : bool :=
  match s with Some s => truthy_str s | None => false end.

(** [np.ndarray]: an image buffer.  The decision logic only passes images
    around and tests them against [None]. *)
Definition ndarray := list Z.

End Py.

(** ** config/settings.py *)

Module Config.

Definition OCR_CONFIDENCE_THRESHOLD : Q := 40.
Definition SAVE_THRESHOLD : Q := 75.
Definition LOCK_THRESHOLD : Q := 80.
Definition ROI_INTERSECTION_THRESHOLD : Q := 2 # 10.
Definition POSITION_THRESHOLD : Q := 100.

End Config.

(** A bounding box [(x1, y1, x2, y2)] in pixel coordinates. *)
Definition BBox : Type := Z * Z * Z * Z.

Definition bx1 (b : BBox) : Z := let '(x1, _, _, _) := b in x1.
Definition by1 (b : BBox) : Z := let '(_, y1, _, _) := b in y1.
Definition bx2 (b : BBox) : Z := let '(_, _, x2, _) := b in x2.
Definition by2 (b : BBox) : Z := let '(_, _, _, y2) := b in y2.

(** ** core/ocr_engine.py *)

Module OCREngine.
Import Py.

(** *** Character classes

    [str.isalnum] and [str.upper] on the ASCII block, and on the rows of
    the Unicode character database for the two non-ASCII code points this
    development names.  Every statement below is either about ASCII
    strings or about those two code points; other code points are outside
    the modelled fragment and are treated as caseless non-alphanumerics. *)

Definition is_ascii (c : char) : bool := (c <? 128)%N.

Definition ascii_isalnum (c : char) : bool :=
  ((48 <=? c) && (c <=? 57) || (65 <=? c) && (c <=? 90)
   || (97 <=? c) && (c <=? 122))%N.

Definition ascii_upper (c : char) : char :=
  if ((97 <=? c) && (c <=? 122))%N then (c - 32)%N else c.

(** (code point, isalnum, full upper-case mapping):
    U+01F0 LATIN SMALL LETTER J WITH CARON is a letter whose upper case is
    U+004A followed by U+030C; U+030C COMBINING CARON is a mark. *)
Definition unicode_excerpt : list (char * (bool * str)) :=
  [ (496%N, (true, [74%N; 780%N]));
    (780%N, (false, [780%N])) ].

Fixpoint ucd_lookup (c : char) (tbl : list (char * (bool * str)))
  : option (bool * str) :=
  match tbl with
  | [] => None
  | (k, row) :: rest => if (k =? c)%N then Some row else ucd_lookup c rest
  end.

(** [c.isalnum()] *)
Definition isalnum (c : char) : bool :=
  if is_ascii c then ascii_isalnum c
  else match ucd_lookup c unicode_excerpt with
       | Some (b, _) => b
       | None => false
       end.

(** upper case of one character, as [str.upper] maps it *)
Definition upper_char (c : char) : str :=
  if is_ascii c then [ascii_upper c]
  else match ucd_lookup c unicode_excerpt with
       | Some (_, u) => u
       | None => [c]
       end.

(** [s.upper()] *)
Definition upper (s : str) : str := flat_map upper_char s.

(** [s.replace(old, new)] for one-character [old] and [new]. *)
Definition replace (old new : char) (s : str) : str :=
  map (fun c => if (c =? old)%N then new else c) s.

(** The [replacements] dict of [_clean_text], in insertion order:
    '0' -> 'O', '1' -> 'I', '5' -> 'S', '8' -> 'B'. *)
Definition replacements : list (char * char) :=
  [ (48%N, 79%N); (49%N, 73%N); (53%N, 83%N); (56%N, 66%N) ].

(** [OCREngine._clean_text] *)
Definition _clean_text (text : str) : str :=
  let cleaned := upper (filter isalnum text) in
  fold_left (fun cleaned '(old, new) => replace old new cleaned)
            replacements cleaned.

(** Output of [pytesseract.image_to_data(..., output_type=DICT)]: the
    columns the code reads. *)
Record TessData : Type := mkTessData {
  tess_conf : list Q;
  tess_text : list str
}.

(** One entry of [easyocr.Reader.readtext]: [(box, text, probability)];
    the box is not read. *)
Record EasyItem : Type := mkEasyItem {
  easy_text : str;
  easy_prob : Q
}.

(** The external libraries the engine calls.  [None] is a raised
    exception. *)
Record Libs : Type := mkLibs {
  cv_threshold : ndarray -> option ndarray;  (* cvtColor + Otsu threshold *)
  image_to_data : ndarray -> option TessData;
  readtext : ndarray -> option (list EasyItem)
}.

(** The [for i, conf in enumerate(result['conf'])] loop of
    [_tesseract_ocr]; [None] when [result['text'][i]] raises. *)
Fixpoint tesseract_loop (i : nat) (confs : list Q) (texts : list str)
    (acc : list str * Q * Z) : option (list str * Q * Z) :=
  match confs with
  | [] => Some acc
  | conf :: rest =>
      if Qgtb conf 0 then
        match nth_error texts i with
        | None => None
        | Some w =>
            let '(valid_words, total_conf, count) := acc in
            tesseract_loop (S i) rest texts
              (valid_words ++ [w], (total_conf + conf)%Q, count + 1)
        end
      else tesseract_loop (S i) rest texts acc
  end.

Section Engine.
Variable L : Libs.

(** [OCREngine._tesseract_ocr] *)
Definition _tesseract_ocr (image : ndarray) : str * Q :=
  match image_to_data L image with
  | None => ([], 0%Q)
  | Some result =>
      match tesseract_loop 0 (tess_conf result) (tess_text result)
                           ([], 0%Q, 0) with
      | None => ([], 0%Q)
      | Some (valid_words, total_conf, count) =>
          let text := List.concat valid_words in
          let confidence :=
            if count >? 0 then (total_conf / float count)%Q else 0%Q in
          (text, confidence)
      end
  end.

(** [OCREngine._easyocr_ocr] *)
Definition _easyocr_ocr (image : ndarray) : str * Q :=
  match readtext L image with
  | None => ([], 0%Q)
  | Some [] => ([], 0%Q)
  | Some results =>
      let text := List.concat (map easy_text results) in
      let confidence :=
        (sumQ (map easy_prob results) / float (len results) * 100)%Q in
      (text, confidence)
  end.

(** [OCREngine.process_plate] *)
Definition process_plate (plate_img : option ndarray) (track_id : Z)
  : str * Q :=
  match plate_img with
  | None => ([], 0%Q)
  | Some img =>
      match cv_threshold L img with
      | None => ([], 0%Q)
      | Some thresh =>
          let '(text1, conf1) := _tesseract_ocr thresh in
          let '(text2, conf2) := _easyocr_ocr thresh in
          if Qgtb conf1 conf2 then (_clean_text text1, conf1)
          else (_clean_text text2, conf2)
      end
  end.

End Engine.

End OCREngine.

(** ** utils/roi_utils.py *)

Module ROIManager.
Import Py.

(** [ROIManager.calculate_intersection]; [roi] is [self.roi].  The debug
    output written on the way has no effect on the result.  A zero
    [bbox_area] makes the division raise, and the handler returns 0. *)
Definition calculate_intersection (roi : option BBox) (bbox : BBox) : Q :=
  match roi with
  | None => 0%Q
  | Some roi =>
      let roi_area := (bx2 roi - bx1 roi) * (by2 roi - by1 roi) in
      let bbox_area := (bx2 bbox - bx1 bbox) * (by2 bbox - by1 bbox) in
      let x1 := maxZ (bx1 roi) (bx1 bbox) in
      let y1 := maxZ (by1 roi) (by1 bbox) in
      let x2 := minZ (bx2 roi) (bx2 bbox) in
      let y2 := minZ (by2 roi) (by2 bbox) in
      if (x1 <? x2) && (y1 <? y2) then
        let intersection_area := (x2 - x1) * (y2 - y1) in
        if bbox_area =? 0 then 0%Q
        else (float intersection_area / float bbox_area)%Q
      else 0%Q
  end.

(** [in_roi = intersection > Config.ROI_INTERSECTION_THRESHOLD]
    (web/backend/main.py). *)
Definition in_roi (roi : option BBox) (bbox : BBox) : bool :=
  Qgtb (calculate_intersection roi bbox) Config.ROI_INTERSECTION_THRESHOLD.

End ROIManager.

(** ** core/detector.py *)

Module VehicleDetector.
Import Py.

(** A wheel detection dict.  [wheel_bbox] is [wheel['bbox']]; [None] is a
    dict without that key, on which the lookup raises. *)
Record Wheel : Type := mkWheel {
  wheel_bbox : option BBox;
  wheel_confidence : Q
}.

Definition Point : Type := Q * Q.

(** The [for group in axle_groups] loop: the wheel joins the first group
    whose mean height is close enough; [None] when [added_to_group] stays
    [False]. *)
Fixpoint add_to_group (wheel_center : Point) (MAX_VERTICAL_DIST : Q)
    (axle_groups : list (list Point)) : option (list (list Point)) :=
  match axle_groups with
  | [] => None
  | group :: rest =>
      let group_y := (sumQ (map snd group) / float (len group))%Q in
      if Qltb (absQ (snd wheel_center - group_y)) MAX_VERTICAL_DIST
      then Some ((group ++ [wheel_center]) :: rest)
      else option_map (cons group)
                      (add_to_group wheel_center MAX_VERTICAL_DIST rest)
  end.

(** The [for wheel in wheels] loop; [None] when an exception is raised. *)
Fixpoint wheels_loop (plate_y : Z) (vehicle_left vehicle_right : Q)
    (MAX_VERTICAL_DIST : Q) (wheels : list Wheel)
    (axle_groups : list (list Point)) : option (list (list Point)) :=
  match wheels with
  | [] => Some axle_groups
  | wheel :: rest =>
      match wheel_bbox wheel with
      | None => None
      | Some wb =>
          let wheel_center : Point :=
            ((float (bx1 wb + bx2 wb) / 2)%Q,
             (float (by1 wb + by2 wb) / 2)%Q) in
          if Qgtb (snd wheel_center) (float plate_y)
             && Qleb vehicle_left (fst wheel_center)
             && Qleb (fst wheel_center) vehicle_right
          then
            match add_to_group wheel_center MAX_VERTICAL_DIST axle_groups with
            | Some groups' =>
                wheels_loop plate_y vehicle_left vehicle_right
                            MAX_VERTICAL_DIST rest groups'
            | None =>
                wheels_loop plate_y vehicle_left vehicle_right
                            MAX_VERTICAL_DIST rest
                            (axle_groups ++ [[wheel_center]])
            end
          else
            wheels_loop plate_y vehicle_left vehicle_right
                        MAX_VERTICAL_DIST rest axle_groups
      end
  end.

(** [VehicleDetector.assign_wheels_to_vehicle] *)
Definition assign_wheels_to_vehicle (plate_bbox : BBox)
    (wheels : list Wheel) : Z :=
  let plate_center_x := (float (bx1 plate_bbox + bx2 plate_bbox) / 2)%Q in
  let plate_y := by1 plate_bbox in
  let plate_height := by2 plate_bbox - by1 plate_bbox in
  let vehicle_width := (bx2 plate_bbox - bx1 plate_bbox) * 6 in
  let vehicle_left :=
    maxQ 0 (plate_center_x - float vehicle_width / 2)%Q in
  let vehicle_right := (plate_center_x + float vehicle_width / 2)%Q in
  let MAX_VERTICAL_DIST := (float plate_height * (1 # 2))%Q in
  match wheels_loop plate_y vehicle_left vehicle_right MAX_VERTICAL_DIST
                    wheels [] with
  | None => 2
  | Some axle_groups =>
      let num_axles :=
        len (filter (fun g : list Point => len g >=? 1) axle_groups) in
      let num_axles := maxZ 2 num_axles in
      let num_axles := minZ num_axles 8 in
      num_axles
  end.

End VehicleDetector.

(** ** core/tracker.py *)

Module Tracker.
Import Py.

(** The two values the [state] field takes. *)
Inductive TrackState : Type := TRACKING | LOCKED.

(** [VehicleTrack]; [first_seen] and [last_seen] are set by
    [__post_init__]. *)
Record VehicleTrack : Type := mkTrack {
  track_id : Z;
  license_plate : str;
  best_ocr_confidence : Q;
  processing_complete : bool;
  state : TrackState;
  last_bbox : option BBox;
  first_seen_bbox : option BBox;
  ocr_attempts : Z;
  max_ocr_attempts : Z;
  best_plate_image : option ndarray;
  detection_confidence : Q;
  max_axle_count : Z;
  frame_path : option str;
  first_seen : Q;
  last_seen : Q
}.

(** [VehicleTrack(track_id=...)] created at time [now]. *)
Definition new_track (id : Z) (now : Q) : VehicleTrack :=
  {| track_id := id;
     license_plate := str_of "SCANNING...";
     best_ocr_confidence := 0;
     processing_complete := false;
     state := TRACKING;
     last_bbox := None;
     first_seen_bbox := None;
     ocr_attempts := 0;
     max_ocr_attempts := 2;
     best_plate_image := None;
     detection_confidence := 0;
     max_axle_count := 2;
     frame_path := None;
     first_seen := now;
     last_seen := now |}.

(** [VehicleTrack.update_position]; [now] is [time.time()]. *)
Definition update_position (now : Q) (bbox : BBox)
    (detection_confidence' : Q) (axle_count : Z) (self : VehicleTrack)
  : VehicleTrack :=
  {| track_id := track_id self;
     license_plate := license_plate self;
     best_ocr_confidence := best_ocr_confidence self;
     processing_complete := processing_complete self;
     state := state self;
     last_bbox := Some bbox;
     first_seen_bbox :=
       match first_seen_bbox self with
       | None => Some bbox
       | Some b => Some b
       end;
     ocr_attempts := ocr_attempts self;
     max_ocr_attempts := max_ocr_attempts self;
     best_plate_image := best_plate_image self;
     detection_confidence :=
       maxQ (detection_confidence self) detection_confidence';
     max_axle_count := maxZ (max_axle_count self) axle_count;
     frame_path := frame_path self;
     first_seen := first_seen self;
     last_seen := now |}.

(** [VehicleTrack.should_process] *)
Definition should_process (self : VehicleTrack) (in_roi : bool) : bool :=
  if processing_complete self
     || (ocr_attempts self >=? max_ocr_attempts self)
  then false
  else in_roi && Qgtb (detection_confidence self) (5 # 10).

(** [VehicleTrack.lock_plate] *)
Definition lock_plate (self : VehicleTrack) : VehicleTrack :=
  {| track_id := track_id self;
     license_plate := license_plate self;
     best_ocr_confidence := best_ocr_confidence self;
     processing_complete := true;
     state := LOCKED;
     last_bbox := last_bbox self;
     first_seen_bbox := first_seen_bbox self;
     ocr_attempts := ocr_attempts self;
     max_ocr_attempts := max_ocr_attempts self;
     best_plate_image := best_plate_image self;
     detection_confidence := detection_confidence self;
     max_axle_count := max_axle_count self;
     frame_path := frame_path self;
     first_seen := first_seen self;
     last_seen := last_seen self |}.

(** [self.ocr_attempts += 1] *)
Definition count_attempt (self : VehicleTrack) : VehicleTrack :=
  {| track_id := track_id self;
     license_plate := license_plate self;
     best_ocr_confidence := best_ocr_confidence self;
     processing_complete := processing_complete self;
     state := state self;
     last_bbox := last_bbox self;
     first_seen_bbox := first_seen_bbox self;
     ocr_attempts := ocr_attempts self + 1;
     max_ocr_attempts := max_ocr_attempts self;
     best_plate_image := best_plate_image self;
     detection_confidence := detection_confidence self;
     max_axle_count := max_axle_count self;
     frame_path := frame_path self;
     first_seen := first_seen self;
     last_seen := last_seen self |}.

(** The three assignments under [if confidence > self.best_ocr_confidence]. *)
Definition record_best (text : str) (confidence : Q)
    (plate_image : option ndarray) (self : VehicleTrack) : VehicleTrack :=
  {| track_id := track_id self;
     license_plate := text;
     best_ocr_confidence := confidence;
     processing_complete := processing_complete self;
     state := state self;
     last_bbox := last_bbox self;
     first_seen_bbox := first_seen_bbox self;
     ocr_attempts := ocr_attempts self;
     max_ocr_attempts := max_ocr_attempts self;
     best_plate_image :=
       match plate_image with
       | Some img => Some img
       | None => best_plate_image self
       end;
     detection_confidence := detection_confidence self;
     max_axle_count := max_axle_count self;
     frame_path := frame_path self;
     first_seen := first_seen self;
     last_seen := last_seen self |}.

(** [track.frame_path = frame_path] (web/backend/main.py). *)
Definition set_frame_path (p : option str) (self : VehicleTrack)
  : VehicleTrack :=
  {| track_id := track_id self;
     license_plate := license_plate self;
     best_ocr_confidence := best_ocr_confidence self;
     processing_complete := processing_complete self;
     state := state self;
     last_bbox := last_bbox self;
     first_seen_bbox := first_seen_bbox self;
     ocr_attempts := ocr_attempts self;
     max_ocr_attempts := max_ocr_attempts self;
     best_plate_image := best_plate_image self;
     detection_confidence := detection_confidence self;
     max_axle_count := max_axle_count self;
     frame_path := p;
     first_seen := first_seen self;
     last_seen := last_seen self |}.

(** The tail of [update_plate], reached when the call does not lock by
    confidence: lock when the attempt budget is used up; return [False]. *)
Definition check_exhausted (self : VehicleTrack) : VehicleTrack * bool :=
  if ocr_attempts self >=? max_ocr_attempts self
  then (lock_plate self, false)
  else (self, false).

(** [VehicleTrack.update_plate]: the mutated track and the returned
    boolean. *)
Definition update_plate (text : str) (confidence : Q)
    (plate_image : option ndarray) (self : VehicleTrack)
  : VehicleTrack * bool :=
  let self := count_attempt self in
  if Qgtb confidence (best_ocr_confidence self) then
    let self := record_best text confidence plate_image self in
    if Qgtb confidence Config.OCR_CONFIDENCE_THRESHOLD
    then (lock_plate self, true)
    else check_exhausted self
  else check_exhausted self.

(** [VehicleTracker]: the [tracks] dict in insertion order, and
    [next_id]. *)
Record VehicleTracker : Type := mkTracker {
  tracks : list (Z * VehicleTrack);
  next_id : Z
}.

(** [VehicleTracker()] *)
Definition init : VehicleTracker := {| tracks := []; next_id := 0 |}.

(** [d[k]] lookup, [d[k] = v] assignment and [del d[k]] on the
    insertion-ordered dict. *)
Fixpoint dict_get (k : Z) (d : list (Z * VehicleTrack))
  : option VehicleTrack :=
  match d with
  | [] => None
  | (k', v) :: rest => if k' =? k then Some v else dict_get k rest
  end.

Fixpoint dict_set (k : Z) (v : VehicleTrack) (d : list (Z * VehicleTrack))
  : list (Z * VehicleTrack) :=
  match d with
  | [] => [(k, v)]
  | (k', v') :: rest =>
      if k' =? k then (k, v) :: rest else (k', v') :: dict_set k v rest
  end.

Definition dict_del (k : Z) (d : list (Z * VehicleTrack))
  : list (Z * VehicleTrack) :=
  filter (fun kv => negb (fst kv =? k)) d.

Definition keys (d : list (Z * VehicleTrack)) : list Z := map fst d.

(** Centre of a box, [((b[0] + b[2]) / 2, (b[1] + b[3]) / 2)]. *)
Definition center (b : BBox) : Q * Q :=
  ((float (bx1 b + bx2 b) / 2)%Q, (float (by1 b + by2 b) / 2)%Q).

(** Square of the Euclidean distance between two centres. *)
Definition distance_sq (c1 c2 : Q * Q) : Q :=
  ((fst c1 - fst c2) * (fst c1 - fst c2)
   + (snd c1 - snd c2) * (snd c1 - snd c2))%Q.

(** [distance < Config.POSITION_THRESHOLD], where [distance] is the square
    root of [distance_sq]: both sides are non-negative, so the test is the
    comparison of the squares. *)
Definition within_threshold (new_center old_center : Q * Q) : bool :=
  Qltb (distance_sq new_center old_center)
       (Config.POSITION_THRESHOLD * Config.POSITION_THRESHOLD)%Q.

(** Does the loop body of [get_track] accept this track? *)
Definition matches (new_center : Q * Q) (track : VehicleTrack) : bool :=
  match last_bbox track with
  | Some lb => within_threshold new_center (center lb)
  | None => false
  end.

(** The [for track in self.tracks.values()] loop of [get_track]: the first
    accepted track is updated in place and its key returned; [None] when
    the loop ends without returning. *)
Fixpoint match_loop (now : Q) (new_center : Q * Q) (bbox : BBox)
    (detection_confidence' : Q) (axle_count : Z)
    (d : list (Z * VehicleTrack)) : option (list (Z * VehicleTrack) * Z) :=
  match d with
  | [] => None
  | (k, track) :: rest =>
      if matches new_center track then
        Some ((k, update_position now bbox detection_confidence'
                                  axle_count track) :: rest, k)
      else
        match match_loop now new_center bbox detection_confidence'
                         axle_count rest with
        | Some (rest', k') => Some ((k, track) :: rest', k')
        | None => None
        end
  end.

(** [VehicleTracker.get_track]: the new tracker and the key under which
    the returned track object lives in [tracks]. *)
Definition get_track (now : Q) (detection_id : Z) (bbox : BBox)
    (detection_confidence' : Q) (axle_count : Z) (self : VehicleTracker)
  : VehicleTracker * Z :=
  let new_center := center bbox in
  match match_loop now new_center bbox detection_confidence' axle_count
                   (tracks self) with
  | Some (tracks', k) => ({| tracks := tracks'; next_id := next_id self |}, k)
  | None =>
      let track := new_track (next_id self) now in
      let track :=
        update_position now bbox detection_confidence' axle_count track in
      ({| tracks := dict_set (next_id self) track (tracks self);
          next_id := next_id self + 1 |}, next_id self)
  end.

(** The condition under which [cleanup_old_tracks] removes a track. *)
Definition stale (current_time max_age : Q) (track : VehicleTrack) : bool :=
  Qgtb (current_time - last_seen track) max_age
  || (processing_complete track
      && Qgtb (current_time - last_seen track) 1).

(** [VehicleTracker.cleanup_old_tracks] *)
Definition cleanup_old_tracks (current_time max_age : Q)
    (self : VehicleTracker) : VehicleTracker :=
  let to_remove :=
    map fst (filter (fun kv => stale current_time max_age (snd kv))
                    (tracks self)) in
  {| tracks := fold_left (fun d k => dict_del k d) to_remove (tracks self);
     next_id := next_id self |}.

End Tracker.

(** ** web/backend/main.py: the per-frame control flow of
    [VideoCamera.get_frame] *)

Module VideoCamera.
Import Py Tracker.

Inductive DetClass : Type := license_plate_class | wheel_class.

(** A detection dict as [detect_and_track] builds it; [det_axle_count] is
    read with [detection.get('axle_count', 2)]. *)
Record Detection : Type := mkDetection {
  det_bbox : BBox;
  det_confidence : Q;
  det_class : DetClass;
  det_track_id : Z;
  det_axle_count : option Z
}.

(** What the loop body reads from outside the decision logic while it
    handles one detection. *)
Record Input : Type := mkInput {
  in_detection : Detection;
  in_now : Q;                       (* time.time() *)
  in_roi : option BBox;             (* self.roi_manager.roi *)
  in_plate_img : option ndarray;    (* detector.extract_plate(frame, bbox) *)
  in_saved : option str             (* await image_manager.save_image(...) *)
}.

(** The calls that leave the process, as the text of [get_frame] has
    them: [image_manager.save_image], [db_manager.add_vehicle_detection]
    and, for the stored result of the named track,
    [manager.broadcast_vehicle_update]. *)
Inductive Event : Type :=
| SaveImage (image : option ndarray) (plate_text : str) (track_id : Z)
| Upsert (track_id : Z) (license_plate : str) (confidence : Q)
         (frame_path : option str) (axle_count : Z)
| Broadcast (track_id : Z) (confidence : Q).

(** What handling one detection did: the track it was matched to (its key
    in [tracks] and the object as the loop body leaves it), the
    recognition result handed to [update_plate] together with the boolean
    [update_plate] returned (when it was called), the calls made, and
    whether the loop body raised. *)
Record Outcome : Type := mkOutcome {
  out_track : option (Z * VehicleTrack);
  out_update : option (str * Q * bool);
  out_events : list Event;
  out_raised : bool
}.

Definition no_outcome : Outcome :=
  {| out_track := None; out_update := None; out_events := [];
     out_raised := false |}.

Definition idle (k : Z) (track : VehicleTrack) : Outcome :=
  {| out_track := Some (k, track); out_update := None; out_events := [];
     out_raised := false |}.

(** The body of [if track.update_plate(text, confidence, plate_img):]:
    the track object after it, the calls made, and whether it raised.
    [save_image] is a coroutine function, so its await yields the path
    or [None].  [add_vehicle_detection] is a plain method that returns a
    [bool]: the call is made, and awaiting the [bool] raises [TypeError];
    [vehicle_data] is never bound and [broadcast_vehicle_update] is not
    reached. *)
Definition commit (inp : Input) (track : VehicleTrack)
    (text : str) (confidence : Q) (axle_count : Z)
  : VehicleTrack * list Event * bool :=
  let save := SaveImage (best_plate_image track) text (track_id track) in
  let frame_path := in_saved inp in
  if truthy_opt_str frame_path then
    let track := set_frame_path frame_path track in
    let upsert :=
      Upsert (track_id track) text confidence frame_path axle_count in
    (track, [save; upsert], true)
  else (track, [save], false).

Section Camera.
Variable L : OCREngine.Libs.

(** The body of [for detection in detections:].  The track object is
    read from the tracker's dict under the key [get_track] returned and
    written back under it after it was mutated. *)
Definition process_detection (inp : Input) (self : VehicleTracker)
  : VehicleTracker * Outcome :=
  let detection := in_detection inp in
  match det_class detection with
  | wheel_class => (self, no_outcome)
  | license_plate_class =>
      let bbox := det_bbox detection in
      let detection_confidence := det_confidence detection in
      let axle_count :=
        match det_axle_count detection with Some a => a | None => 2 end in
      let '(tracker, k) :=
        get_track (in_now inp) (det_track_id detection) bbox
                  detection_confidence axle_count self in
      match dict_get k (tracks tracker) with
      | None => (tracker, no_outcome)
      | Some track =>
          let in_roi := ROIManager.in_roi (in_roi inp) bbox in
          if should_process track in_roi then
            match in_plate_img inp with
            | None => (tracker, idle k track)
            | Some plate_img =>
                let '(text, confidence) :=
                  OCREngine.process_plate L (Some plate_img)
                                          (track_id track) in
                if truthy_str text && Qgtb confidence 0 then
                  let '(track, locked) :=
                    update_plate text confidence (Some plate_img) track in
                  let '(track, events, raised) :=
                    if locked
                    then commit inp track text confidence axle_count
                    else (track, [], false) in
                  ({| tracks := dict_set k track (tracks tracker);
                      next_id := next_id tracker |},
                   {| out_track := Some (k, track);
                      out_update := Some (text, confidence, locked);
                      out_events := events;
                      out_raised := raised |})
                else (tracker, idle k track)
            end
          else (tracker, idle k track)
      end
  end.

(** The [for detection in detections:] loop of one frame.  An exception
    raised in the loop body leaves the loop: the [except] clause of
    [get_frame] catches it, and the detections that follow in the frame
    are not handled. *)
Fixpoint process_detections (inps : list Input) (self : VehicleTracker)
  : VehicleTracker * list Outcome :=
  match inps with
  | [] => (self, [])
  | inp :: rest =>
      let '(self, o) := process_detection inp self in
      if out_raised o then (self, [o])
      else
        let '(self, os) := process_detections rest self in
        (self, o :: os)
  end.

(** What can happen to the tracker, in this frame or a later one: a
    detection is handled, or the eviction scan runs. *)
Inductive Op : Type :=
| Detect (inp : Input)
| Cleanup (current_time max_age : Q).

Definition step (op : Op) (self : VehicleTracker)
  : VehicleTracker * Outcome :=
  match op with
  | Detect inp => process_detection inp self
  | Cleanup current_time max_age =>
      (cleanup_old_tracks current_time max_age self, no_outcome)
  end.

Fixpoint run (ops : list Op) (self : VehicleTracker)
  : VehicleTracker * list Outcome :=
  match ops with
  | [] => (self, [])
  | op :: rest =>
      let '(self, o) := step op self in
      let '(self, os) := run rest self in
      (self, o :: os)
  end.

End Camera.

(** The confidence an upsert or broadcast carries. *)
Definition committed_confidence (e : Event) : option Q :=
  match e with
  | SaveImage _ _ _ => None
  | Upsert _ _ c _ _ => Some c
  | Broadcast _ c => Some c
  end.

(** The track an event is about. *)
Definition event_track (e : Event) : Z :=
  match e with
  | SaveImage _ _ i => i
  | Upsert i _ _ _ _ => i
  | Broadcast i _ => i
  end.

End VideoCamera.

(** ** database/models.py and database/db_operations.py *)

Module Database.
Import Py.

(** A row of the [vehicles] table ([models.Vehicle]). *)
Record Vehicle : Type := mkVehicle {
  v_id : Z;
  v_track_id : Z;
  v_license_plate : str;
  v_confidence : Q;
  v_first_seen : Q;
  v_last_seen : Q;
  v_processed : bool;
  v_total_detections : Z;
  v_best_frame_path : option str;
  v_axle_count : Z
}.

(** [session.query(Vehicle).filter(Vehicle.track_id == track_id).first()]:
    the first row with that track id, in the order the table returns its
    rows. *)
Fixpoint first_with_track (track_id : Z) (table : list Vehicle)
  : option Vehicle :=
  match table with
  | [] => None
  | v :: rest =>
      if v_track_id v =? track_id then Some v
      else first_with_track track_id rest
  end.

(** The [if existing:] branch: the detection is counted, [last_seen] is
    refreshed, and the reading replaces the stored one only when its
    confidence is strictly higher. *)
Definition touch (now : Q) (license_plate : str) (confidence : Q)
    (frame_path : option str) (axle_count : Z) (existing : Vehicle)
  : Vehicle :=
  if Qgtb confidence (v_confidence existing) then
    {| v_id := v_id existing;
       v_track_id := v_track_id existing;
       v_license_plate := license_plate;
       v_confidence := confidence;
       v_first_seen := v_first_seen existing;
       v_last_seen := now;
       v_processed := v_processed existing;
       v_total_detections := v_total_detections existing + 1;
       v_best_frame_path := frame_path;
       v_axle_count := axle_count |}
  else
    {| v_id := v_id existing;
       v_track_id := v_track_id existing;
       v_license_plate := v_license_plate existing;
       v_confidence := v_confidence existing;
       v_first_seen := v_first_seen existing;
       v_last_seen := now;
       v_processed := v_processed existing;
       v_total_detections := v_total_detections existing + 1;
       v_best_frame_path := v_best_frame_path existing;
       v_axle_count := v_axle_count existing |}.

(** The [else] branch: [Vehicle(track_id=..., ...)] with the column
    defaults; the database assigns [id]. *)
Definition new_vehicle (now : Q) (new_id : Z) (track_id : Z)
    (license_plate : str) (confidence : Q) (frame_path : option str)
    (axle_count : Z) : Vehicle :=
  {| v_id := new_id;
     v_track_id := track_id;
     v_license_plate := license_plate;
     v_confidence := confidence;
     v_first_seen := now;
     v_last_seen := now;
     v_processed := false;
     v_total_detections := 1;
     v_best_frame_path := frame_path;
     v_axle_count := axle_count |}.

(** The commit of the mutated object: the row [first()] returned is
    written back in place. *)
Fixpoint replace_first (track_id : Z) (f : Vehicle -> Vehicle)
    (table : list Vehicle) : list Vehicle :=
  match table with
  | [] => []
  | v :: rest =>
      if v_track_id v =? track_id then f v :: rest
      else v :: replace_first track_id f rest
  end.

(** [DatabaseManager.add_vehicle_detection]: the table after the call and
    the boolean returned.  [now] is the clock, [new_id] the id the
    database would assign, [db_raises] says that the session raised, in
    which case it is rolled back and [False] is returned. *)
Definition add_vehicle_detection (now : Q) (new_id : Z) (db_raises : bool)
    (track_id : Z) (license_plate : str) (confidence : Q)
    (frame_path : option str) (axle_count : Z) (table : list Vehicle)
  : list Vehicle * bool :=
  if db_raises then (table, false)
  else
    match first_with_track track_id table with
    | Some existing =>
        (replace_first track_id
           (touch now license_plate confidence frame_path axle_count)
           table, true)
    | None =>
        (table ++ [new_vehicle now new_id track_id license_plate
                               confidence frame_path axle_count], true)
    end.

End Database.

(** * Definitions used by the statements *)

Module Statements.
Import Py Tracker VideoCamera.

(** ** Text normalisation, character by character *)

(** One replacement applied to one character. *)
Definition replace_char (old new c : char) : char :=
  if (c =? old)%N then new else c.

(** What [_clean_text] does to an ASCII alphanumeric character. *)
Definition normal_char (c : char) : char :=
  replace_char 56%N 66%N
    (replace_char 53%N 83%N
       (replace_char 49%N 73%N
          (replace_char 48%N 79%N (OCREngine.ascii_upper c)))).

Definition ascii_str (s : str) : Prop :=
  Forall (fun c => OCREngine.is_ascii c = true) s.

(** The check behind the per-character facts, run over the ASCII block. *)
Definition normal_char_ok (c : char) : bool :=
  implb (OCREngine.isalnum c)
        (OCREngine.is_ascii (normal_char c)
         && OCREngine.isalnum (normal_char c)
         && (normal_char (normal_char c) =? normal_char c)%N).

Definition ascii_block : list char := map N.of_nat (seq 0 128).

(** ** Recognition engines with fixed answers *)

(** Libraries that answer every image the same way: Tesseract reads one
    word [t1] with confidence [c1], EasyOCR one word [t2] with
    probability [p2]. *)
Definition fixed_libs (t1 : str) (c1 : Q) (t2 : str) (p2 : Q)
  : OCREngine.Libs :=
  {| OCREngine.cv_threshold := fun img => Some img;
     OCREngine.image_to_data := fun _ =>
       Some {| OCREngine.tess_conf := [c1];
               OCREngine.tess_text := [t1] |};
     OCREngine.readtext := fun _ =>
       Some [ {| OCREngine.easy_text := t2;
                 OCREngine.easy_prob := p2 |} ] |}.

(** Both engines answer with confidence 50: Tesseract reads "ABC" at 50,
    EasyOCR reads "XYZ" with probability 1/2, which the code scales by
    100. *)
Definition tie_libs : OCREngine.Libs :=
  fixed_libs (str_of "ABC") 50 (str_of "XYZ") (1 # 2).

(** ** The ROI ratio in the words of the specification *)

Definition rect_area (r : BBox) : Z :=
  (bx2 r - bx1 r) * (by2 r - by1 r).

(** Area of the intersection of two rectangles: the product of the
    lengths of the overlaps of their sides, an empty overlap having
    length 0. *)
Definition intersection_area (r b : BBox) : Z :=
  Z.max 0 (Z.min (bx2 r) (bx2 b) - Z.max (bx1 r) (bx1 b))
  * Z.max 0 (Z.min (by2 r) (by2 b) - Z.max (by1 r) (by1 b)).

(** The rectangles of the specification's example. *)
Definition example_roi : BBox := (0, 0, 100, 100).
Definition example_bbox : BBox := (90, 90, 150, 150).
Definition half_inside_bbox : BBox := (50, 50, 150, 100).

(** Two rectangles overlap when they share interior points. *)
Definition overlap (r b : BBox) : Prop :=
  Z.max (bx1 r) (bx1 b) < Z.min (bx2 r) (bx2 b)
  /\ Z.max (by1 r) (by1 b) < Z.min (by2 r) (by2 b).

(** ** The axle grouping example of the specification *)

Definition wheel_at (x y : Z) : VehicleDetector.Wheel :=
  {| VehicleDetector.wheel_bbox := Some (x - 10, y - 10, x + 10, y + 10);
     VehicleDetector.wheel_confidence := 9 # 10 |}.

(** A plate of height 50 with its top at y = 80, two wheels near y = 100
    and two near y = 300. *)
Definition example_plate : BBox := (100, 80, 200, 130).
Definition example_wheels : list VehicleDetector.Wheel :=
  [wheel_at 100 100; wheel_at 200 102; wheel_at 100 300; wheel_at 200 302].

(** ** Tracks and trackers *)

(** Two snapshots of a track that differ at most in its position data:
    [last_bbox] and [last_seen] are free, [detection_confidence] and
    [max_axle_count] can only have grown, every other field is the
    same. *)
Definition frozen (t t' : VehicleTrack) : Prop :=
  track_id t' = track_id t
  /\ license_plate t' = license_plate t
  /\ best_ocr_confidence t' = best_ocr_confidence t
  /\ processing_complete t' = processing_complete t
  /\ state t' = state t
  /\ first_seen_bbox t' = first_seen_bbox t
  /\ ocr_attempts t' = ocr_attempts t
  /\ max_ocr_attempts t' = max_ocr_attempts t
  /\ best_plate_image t' = best_plate_image t
  /\ frame_path t' = frame_path t
  /\ first_seen t' = first_seen t
  /\ (detection_confidence t <= detection_confidence t')%Q
  /\ max_axle_count t <= max_axle_count t'.

(** [t'] is [t] with, at most, another frame path. *)
Definition up_to_frame_path (t t' : VehicleTrack) : Prop :=
  t' = set_frame_path (frame_path t') t.

(** What holds of every track the tracker stores under key [k]. *)
Definition track_ok (k : Z) (t : VehicleTrack) : Prop :=
  track_id t = k
  /\ (state t = LOCKED <-> processing_complete t = true)
  /\ 0 <= ocr_attempts t <= max_ocr_attempts t
  /\ last_bbox t <> None
  /\ first_seen_bbox t <> None.

Definition tracker_ok (s : VehicleTracker) : Prop :=
  (forall k t, In (k, t) (tracks s) -> track_ok k t /\ 0 <= k < next_id s)
  /\ NoDup (keys (tracks s))
  /\ 0 <= next_id s.

(** No track of the store is accepted by the matching loop. *)
Definition no_match (c : Q * Q) (d : list (Z * VehicleTrack)) : Prop :=
  Forall (fun kv => matches c (snd kv) = false) d.

(** The trackers the camera loop can produce from a new tracker. *)
Definition reachable (L : OCREngine.Libs) (s : VehicleTracker) : Prop :=
  exists ops, fst (run L ops init) = s.

(** Track id [i] has been handed out and, if the track is still stored,
    its processing is complete. *)
Definition finished (s : VehicleTracker) (i : Z) : Prop :=
  i < next_id s
  /\ forall t, dict_get i (tracks s) = Some t -> processing_complete t = true.

(** [update_plate] called once per candidate, in order: the final track
    and the booleans returned. *)
Fixpoint update_plate_seq (cands : list (str * Q))
    (plate_image : option ndarray) (t : VehicleTrack)
  : VehicleTrack * list bool :=
  match cands with
  | [] => (t, [])
  | (text, confidence) :: rest =>
      let '(t, b) := update_plate text confidence plate_image t in
      let '(t, bs) := update_plate_seq rest plate_image t in
      (t, b :: bs)
  end.

(** The best pair among the one held at the start and the candidates
    seen: a later candidate replaces the held one only when its
    confidence is strictly higher. *)
Definition best_candidate (held : str * Q) (cands : list (str * Q))
  : str * Q :=
  fold_left (fun best c => if Qgtb (snd c) (snd best) then c else best)
            cands held.

(** An outcome in which [update_plate] ran, returned [False], and left
    the track with id [i] locked: the track locked by exhausting its
    attempts. *)
Definition locked_by_exhaustion (o : Outcome) (i : Z) : Prop :=
  exists k t text confidence,
    out_track o = Some (k, t)
    /\ track_id t = i
    /\ out_update o = Some (text, confidence, false)
    /\ state t = LOCKED.

(** The centre of [bbox] lies within [POSITION_THRESHOLD] pixels of the
    centre of the track's last box: their Euclidean distance [d] satisfies
    [d < 100], stated on the squares. *)
Definition near (bbox : BBox) (t : VehicleTrack) : Prop :=
  exists lb,
    last_bbox t = Some lb
    /\ (distance_sq (center bbox) (center lb) < 100 * 100)%Q.

(** In outcome [o] nothing is recognised, stored or broadcast for the
    track of key [i]. *)
Definition quiet (o : Outcome) (i : Z) : Prop :=
  (forall e, In e (out_events o) -> event_track e <> i)
  /\ (forall t u, out_track o = Some (i, t) -> out_update o <> Some u).

(** ** The parts of the loop body *)

(** [detection.get('axle_count', 2)] *)
Definition axle_count_of (inp : Input) : Z :=
  match det_axle_count (in_detection inp) with Some a => a | None => 2 end.

(** The [get_track] call of the loop body. *)
Definition matched (inp : Input) (s : VehicleTracker)
  : VehicleTracker * Z :=
  get_track (in_now inp) (det_track_id (in_detection inp))
            (det_bbox (in_detection inp))
            (det_confidence (in_detection inp)) (axle_count_of inp) s.

(** The loop body from [update_plate] on, for the track [t1]: the track
    it leaves, the boolean [update_plate] returned, the calls made. *)
Definition plate_part (inp : Input) (text : str) (c : Q) (img : ndarray)
    (t1 : VehicleTrack) : VehicleTrack * bool * list Event :=
  let u := update_plate text c (Some img) t1 in
  let r := if snd u then commit inp (fst u) text c (axle_count_of inp)
           else (fst u, [], false) in
  (fst (fst r), snd u, snd (fst r)).

(** Whether that part of the loop body raised. *)
Definition plate_raised (inp : Input) (text : str) (c : Q) (img : ndarray)
    (t1 : VehicleTrack) : bool :=
  let u := update_plate text c (Some img) t1 in
  if snd u then snd (commit inp (fst u) text c (axle_count_of inp))
  else false.

(** ** Concrete inputs *)

Definition wide_roi : BBox := (0, 0, 1000, 1000).
Definition plate_a : BBox := (100, 100, 200, 150).
Definition plate_b : BBox := (110, 104, 210, 154).
Definition plate_far : BBox := (300, 100, 400, 150).
Definition plate_at_100 : BBox := (200, 100, 300, 150).

Definition plate_input (now : Q) (bbox : BBox) (conf : Q) (axles : Z)
  : Input :=
  {| in_detection :=
       {| det_bbox := bbox; det_confidence := conf;
          det_class := license_plate_class; det_track_id := 0;
          det_axle_count := Some axles |};
     in_now := now;
     in_roi := Some wide_roi;
     in_plate_img := Some [];
     in_saved := Some (str_of "plate.jpg") |}.

Definition first_detection : Op :=
  Detect (plate_input 0 plate_a (9 # 10) 2).
Definition second_detection : Op :=
  Detect (plate_input (1 # 2) plate_b (95 # 100) 4).

(** Tesseract reads "ABC" at 85, EasyOCR "XYZ" at 50. *)
Definition sure_libs : OCREngine.Libs :=
  fixed_libs (str_of "ABC") 85 (str_of "XYZ") (1 # 2).

(** Tesseract reads "ABC" at 30, EasyOCR "XYZ" at 20. *)
Definition unsure_libs : OCREngine.Libs :=
  fixed_libs (str_of "ABC") 30 (str_of "XYZ") (2 # 10).

(** Two unsure readings of the same plate use up the track's attempts. *)
Definition exhausting_run : list Op := [first_detection; second_detection].

Definition exhausted_outcome : Outcome :=
  nth 1 (snd (run unsure_libs exhausting_run init)) no_outcome.

(** A sure reading locks the track at once. *)
Definition locked_tracker : VehicleTracker :=
  fst (run sure_libs [first_detection] init).

Definition moved_tracker : VehicleTracker :=
  fst (run sure_libs [first_detection; second_detection] init).

Definition locked_track : VehicleTrack :=
  match dict_get 0 (tracks locked_tracker) with
  | Some t => t
  | None => new_track 0 0
  end.

(** An input that makes the loop body call [get_track] with the given
    arguments. *)
Definition input_for (now : Q) (did : Z) (bbox : BBox) (dc : Q) (ac : Z)
  : Input :=
  {| in_detection :=
       {| det_bbox := bbox; det_confidence := dc;
          det_class := license_plate_class; det_track_id := did;
          det_axle_count := Some ac |};
     in_now := now;
     in_roi := None;
     in_plate_img := None;
     in_saved := None |}.

(** Three readings below the lock threshold, the second the best. *)
Definition weak_readings : list (str * Q) :=
  [(str_of "AB", 20%Q); (str_of "ABC", 35%Q); (str_of "A8C", 30%Q)].

(** Two readings at confidence 0. *)
Definition zero_readings : list (str * Q) :=
  [(str_of "ABC", 0%Q); (str_of "XYZ", 0%Q)].

(** A track that is allowed three attempts. *)
Definition three_attempt_track : VehicleTrack :=
  {| track_id := 0;
     license_plate := str_of "SCANNING...";
     best_ocr_confidence := 0;
     processing_complete := false;
     state := TRACKING;
     last_bbox := Some plate_a;
     first_seen_bbox := Some plate_a;
     ocr_attempts := 0;
     max_ocr_attempts := 3;
     best_plate_image := None;
     detection_confidence := 9 # 10;
     max_axle_count := 2;
     frame_path := None;
     first_seen := 0;
     last_seen := 0 |}.

End Statements.

(** * Definitions used by the further properties *)

Module MoreStatements.
Import Py Tracker VideoCamera Statements.

(** ** Normalised text *)

(** The characters a normalised plate text is made of: the upper-case
    letters and the digits that have no letter look-alike. *)
Definition is_plate_char (c : char) : bool :=
  ((65 <=? c) && (c <=? 90))%N
  || (c =? 50)%N || (c =? 51)%N || (c =? 52)%N
  || (c =? 54)%N || (c =? 55)%N || (c =? 57)%N.

Definition normal_char_plate (c : char) : bool :=
  implb (OCREngine.isalnum c) (is_plate_char (normal_char c)).

(** ** Boxes *)

(** [inner] lies inside [outer]. *)
Definition inside (inner outer : BBox) : Prop :=
  bx1 outer <= bx1 inner /\ bx2 inner <= bx2 outer
  /\ by1 outer <= by1 inner /\ by2 inner <= by2 outer.

Definition small_plate : BBox := (40, 40, 60, 50).

(** ** Wheels *)

Definition boxless_wheel : VehicleDetector.Wheel :=
  {| VehicleDetector.wheel_bbox := None;
     VehicleDetector.wheel_confidence := 1 |}.

(** ** Eviction *)

(** The eviction policy, on the time since the track was last seen: a
    track is kept when that time is at most [max_age] seconds and, if its
    processing is complete, at most one second. *)
Definition kept_by_policy (current_time max_age : Q) (t : VehicleTrack)
  : Prop :=
  (current_time - last_seen t <= max_age)%Q
  /\ (processing_complete t = true ->
      (current_time - last_seen t <= 1)%Q).

(** The track of key 0 after the two detections of [moved_tracker]. *)
Definition moved_track : VehicleTrack :=
  match dict_get 0 (tracks moved_tracker) with
  | Some t => t
  | None => new_track 0 0
  end.

(** ** How a track changes while it is stored *)

(** From snapshot [t] to snapshot [t'] the track kept its identity and
    its attempt limit, and nothing went backwards: counters and running
    maxima did not decrease, a lock was not undone. *)
Definition advances (t t' : VehicleTrack) : Prop :=
  track_id t' = track_id t
  /\ max_ocr_attempts t' = max_ocr_attempts t
  /\ first_seen t' = first_seen t
  /\ ocr_attempts t <= ocr_attempts t'
  /\ (best_ocr_confidence t <= best_ocr_confidence t')%Q
  /\ (detection_confidence t <= detection_confidence t')%Q
  /\ max_axle_count t <= max_axle_count t'
  /\ (processing_complete t = true -> processing_complete t' = true)
  /\ (state t = LOCKED -> state t' = LOCKED).

(** The position update of the loop body. *)
Definition moved (inp : Input) (t : VehicleTrack) : VehicleTrack :=
  update_position (in_now inp) (det_bbox (in_detection inp))
                  (det_confidence (in_detection inp)) (axle_count_of inp) t.

(** The axle count a detection carries is at most 8, as the detector
    produces it. *)
Definition axles_capped (op : Op) : Prop :=
  match op with
  | Detect inp => axle_count_of inp <= 8
  | Cleanup _ _ => True
  end.

(** Did the outcome hand a recognition result to [update_plate] for the
    track of key [k]? *)
Definition recognised (k : Z) (o : Outcome) : bool :=
  match out_track o, out_update o with
  | Some (k', _), Some _ => k' =? k
  | _, _ => false
  end.

(** The recognition attempts the track of key [k] can still get: what is
    left of its budget, none once it is gone, the full budget of a new
    track while the id is not handed out. *)
Definition remaining (s : VehicleTracker) (k : Z) : Z :=
  match dict_get k (tracks s) with
  | Some t => max_ocr_attempts t - ocr_attempts t
  | None => if k <? next_id s then 0 else 2
  end.

Definition is_upsert_for (i : Z) (e : Event) : bool :=
  match e with
  | Upsert j _ _ _ _ => j =? i
  | _ => false
  end.

(** All calls made during a run, in order. *)
Definition all_events (os : list Outcome) : list Event :=
  List.concat (map out_events os).

(** Libraries whose recognition calls always raise. *)
Definition dead_libs : OCREngine.Libs :=
  {| OCREngine.cv_threshold := fun img => Some img;
     OCREngine.image_to_data := fun _ => None;
     OCREngine.readtext := fun _ => None |}.

Definition six_axle_detection : Op :=
  Detect (plate_input 1 plate_b (9 # 10) 6).

Definition six_axle_run : list Op := [first_detection; six_axle_detection].

Definition six_axle_track : VehicleTrack :=
  match dict_get 0 (tracks (fst (run sure_libs six_axle_run init))) with
  | Some t => t
  | None => new_track 0 0
  end.


(** ** Calls made while a frame is processed *)

Definition is_upsert (e : Event) : bool :=
  match e with
  | Upsert _ _ _ _ _ => true
  | _ => false
  end.

Definition is_broadcast (e : Event) : bool :=
  match e with
  | Broadcast _ _ => true
  | _ => false
  end.

(** Two plates far apart in one frame, both read at once. *)
Definition two_plate_frame : list Input :=
  [plate_input 0 plate_a (9 # 10) 2; plate_input 0 plate_far (9 # 10) 2].

End MoreStatements.

(** * Properties *)

(** ** Facts about the Python built-ins *)

Module PyFacts.
Import Py.

Lemma Qgtb_true (a b : Q) : Qgtb a b = true <-> (b < a)%Q.
Proof.
  unfold Qgtb. rewrite negb_true_iff.
  split; intro H.
  - apply Qnot_le_lt. intro Hle. apply Qle_bool_iff in Hle. congruence.
  - destruct (Qle_bool a b) eqn:E; [|reflexivity].
    apply Qle_bool_iff in E. exfalso. exact (Qlt_not_le _ _ H E).
Qed.

Lemma Qgtb_false (a b : Q) : Qgtb a b = false <-> (a <= b)%Q.
Proof.
  unfold Qgtb. rewrite negb_false_iff. apply Qle_bool_iff.
Qed.

Lemma Qltb_true (a b : Q) : Qltb a b = true <-> (a < b)%Q.
Proof. unfold Qltb. apply Qgtb_true. Qed.

Lemma maxQ_ge_l (a b : Q) : (a <= maxQ a b)%Q.
Proof.
  unfold maxQ. destruct (Qgtb b a) eqn:E.
  - apply Qgtb_true in E. apply Qlt_le_weak; exact E.
  - apply Qle_refl.
Qed.

Lemma maxZ_spec (a b : Z) : maxZ a b = Z.max a b.
Proof. unfold maxZ. destruct (Z.gtb_spec b a); lia. Qed.

Lemma minZ_spec (a b : Z) : minZ a b = Z.min a b.
Proof. unfold minZ. destruct (Z.ltb_spec b a); lia. Qed.

End PyFacts.

(** ** Text normalisation and recognition fusion *)

Module OCRFacts.
Import Py OCREngine Statements PyFacts.

Lemma replace_as_map (old new : char) (s : str) :
  replace old new s = map (replace_char old new) s.
Proof. reflexivity. Qed.

Lemma upper_ascii (s : str) :
  ascii_str s -> upper s = map ascii_upper s.
Proof.
  unfold upper. induction 1 as [|c s Hc _ IH]; simpl.
  - reflexivity.
  - unfold upper_char at 1. rewrite Hc. simpl. now rewrite IH.
Qed.

Lemma filter_ascii (f : char -> bool) (s : str) :
  ascii_str s -> ascii_str (filter f s).
Proof.
  unfold ascii_str. rewrite !Forall_forall.
  intros H c Hin. apply filter_In in Hin. apply H, Hin.
Qed.

(** On ASCII input [_clean_text] keeps the alphanumeric characters and
    maps each of them with [normal_char]. *)
Lemma clean_text_ascii (s : str) :
  ascii_str s -> _clean_text s = map normal_char (filter isalnum s).
Proof.
  intro H. unfold _clean_text.
  rewrite (upper_ascii _ (filter_ascii isalnum s H)).
  simpl. rewrite !replace_as_map, !map_map. reflexivity.
Qed.

Lemma ascii_block_checked : forallb normal_char_ok ascii_block = true.
Proof. vm_compute. reflexivity. Qed.

Lemma in_ascii_block (c : char) : is_ascii c = true -> In c ascii_block.
Proof.
  unfold is_ascii, ascii_block. intro H. apply N.ltb_lt in H.
  apply in_map_iff. exists (N.to_nat c). split.
  - apply N2Nat.id.
  - apply in_seq. lia.
Qed.

Lemma normal_char_facts (c : char) :
  is_ascii c = true -> isalnum c = true ->
  is_ascii (normal_char c) = true
  /\ isalnum (normal_char c) = true
  /\ normal_char (normal_char c) = normal_char c.
Proof.
  intros Ha Hn.
  pose proof (proj1 (forallb_forall _ _) ascii_block_checked c
                    (in_ascii_block c Ha)) as Hok.
  unfold normal_char_ok in Hok. rewrite Hn in Hok. simpl in Hok.
  apply andb_prop in Hok. destruct Hok as [Hok H3].
  apply andb_prop in Hok. destruct Hok as [H1 H2].
  apply N.eqb_eq in H3. auto.
Qed.

Lemma filter_all_true {A} (f : A -> bool) (l : list A) :
  Forall (fun x => f x = true) l -> filter f l = l.
Proof.
  induction 1 as [|x l Hx _ IH]; simpl; [reflexivity|].
  rewrite Hx, IH. reflexivity.
Qed.

Lemma map_fixed {A} (f : A -> A) (l : list A) :
  Forall (fun x => f x = x) l -> map f l = l.
Proof.
  induction 1 as [|x l Hx _ IH]; simpl; [reflexivity|].
  rewrite Hx, IH. reflexivity.
Qed.

(** C9 (as amended): text normalisation is idempotent on every string of
    ASCII characters: normalising the normalised string returns it
    unchanged. *)
Theorem clean_text_idempotent_ascii (s : str) :
  ascii_str s -> _clean_text (_clean_text s) = _clean_text s.
Proof.
  intro Hs.
  rewrite (clean_text_ascii s Hs).
  set (kept := filter isalnum s).
  assert (Hkept : Forall (fun c => is_ascii c = true /\ isalnum c = true) kept).
  { apply Forall_forall. intros c Hin. apply filter_In in Hin.
    destruct Hin as [Hin Hal]. split; [|exact Hal].
    unfold ascii_str in Hs. rewrite Forall_forall in Hs. now apply Hs. }
  assert (Himg : Forall (fun d => is_ascii d = true /\ isalnum d = true
                                  /\ normal_char d = d)
                        (map normal_char kept)).
  { apply Forall_forall. intros d Hin. apply in_map_iff in Hin.
    destruct Hin as [c [<- Hc]].
    rewrite Forall_forall in Hkept. destruct (Hkept c Hc) as [Ha Hn].
    exact (normal_char_facts c Ha Hn). }
  rewrite clean_text_ascii.
  - rewrite filter_all_true.
    + apply map_fixed. eapply Forall_impl; [|exact Himg]. intros d H; apply H.
    + eapply Forall_impl; [|exact Himg]. intros d H; apply H.
  - unfold ascii_str. eapply Forall_impl; [|exact Himg]. intros d H; apply H.
Qed.

Lemma clean_text_idempotent_ascii_witness :
  ascii_str (str_of "ab-1 05x8")
  /\ _clean_text (_clean_text (str_of "ab-1 05x8"))
     = _clean_text (str_of "ab-1 05x8").
Proof.
  assert (H : ascii_str (str_of "ab-1 05x8")).
  { unfold ascii_str. repeat constructor. }
  split; [exact H | exact (clean_text_idempotent_ascii _ H)].
Defined.

(** C9, counterexample: the one-character string U+01F0 is kept by the
    filter and upper-cased to "J" followed by a combining caron; a second
    pass strips the caron. *)
Lemma clean_text_not_idempotent :
  _clean_text [496%N] = [74%N; 780%N]
  /\ _clean_text (_clean_text [496%N]) = [74%N]
  /\ _clean_text (_clean_text [496%N]) <> _clean_text [496%N].
Proof.
  repeat split; try reflexivity. vm_compute. discriminate.
Qed.

(** C1 (as amended): once the image is thresholded, [process_plate]
    returns the first engine's candidate when its confidence is strictly
    higher and the second engine's candidate otherwise, so the second
    candidate wins ties; the returned text is [_clean_text] of the
    winner's text, whichever engine won. *)
Theorem process_plate_selects (L : Libs) (img thresh : ndarray) (id : Z) :
  cv_threshold L img = Some thresh ->
  let c1 := _tesseract_ocr L thresh in
  let c2 := _easyocr_ocr L thresh in
  ((snd c2 < snd c1)%Q ->
     process_plate L (Some img) id = (_clean_text (fst c1), snd c1))
  /\ ((snd c1 < snd c2)%Q ->
     process_plate L (Some img) id = (_clean_text (fst c2), snd c2))
  /\ ((snd c1 == snd c2)%Q ->
     process_plate L (Some img) id = (_clean_text (fst c2), snd c2)).
Proof.
  intros Hpre c1 c2. unfold process_plate. rewrite Hpre.
  fold c1 c2. destruct c1 as [text1 conf1], c2 as [text2 conf2]. simpl.
  destruct (Qgtb conf1 conf2) eqn:E.
  - apply Qgtb_true in E. split; [|split]; intro H.
    + reflexivity.
    + exfalso. exact (Qlt_irrefl _ (Qlt_trans _ _ _ E H)).
    + exfalso. rewrite H in E. exact (Qlt_irrefl _ E).
  - apply Qgtb_false in E. split; [|split]; intro H.
    + exfalso. exact (Qlt_not_le _ _ H E).
    + reflexivity.
    + reflexivity.
Qed.

Lemma process_plate_selects_witness :
  cv_threshold tie_libs [] = Some []
  /\ (snd (_tesseract_ocr tie_libs []) == snd (_easyocr_ocr tie_libs []))%Q
  /\ process_plate tie_libs (Some []) 0
     = (_clean_text (fst (_easyocr_ocr tie_libs [])),
        snd (_easyocr_ocr tie_libs [])).
Proof.
  assert (Heq : (snd (_tesseract_ocr tie_libs [])
                 == snd (_easyocr_ocr tie_libs []))%Q).
  { vm_compute. reflexivity. }
  split; [reflexivity|]. split; [exact Heq|].
  exact (proj2 (proj2 (process_plate_selects tie_libs [] [] 0 eq_refl)) Heq).
Defined.

(** C1, counterexample: with both candidates at confidence 50 the
    recognition returns the text of the second candidate, "XYZ", not that
    of the first, "ABC". *)
Lemma process_plate_tie_takes_second :
  _tesseract_ocr tie_libs [] = (str_of "ABC", (50 / 1)%Q)
  /\ (snd (_tesseract_ocr tie_libs []) == snd (_easyocr_ocr tie_libs []))%Q
  /\ fst (process_plate tie_libs (Some []) 0) = str_of "XYZ"
  /\ process_plate tie_libs (Some []) 0
     <> (_clean_text (fst (_tesseract_ocr tie_libs [])),
         snd (_tesseract_ocr tie_libs [])).
Proof.
  split; [|split; [|split]].
  - reflexivity.
  - vm_compute. reflexivity.
  - reflexivity.
  - vm_compute. discriminate.
Qed.

End OCRFacts.

(** ** The ROI gate *)

Module ROIFacts.
Import Py ROIManager Statements PyFacts.

Lemma ratio_bounds (a b : Z) :
  0 <= a <= b -> 0 < b ->
  (0 <= float a / float b)%Q /\ (float a / float b <= 1)%Q.
Proof.
  intros Ha Hb. unfold float.
  assert (Hb' : (0 < inject_Z b)%Q).
  { change 0%Q with (inject_Z 0). rewrite <- Zlt_Qlt. exact Hb. }
  split.
  - apply Qle_shift_div_l; [exact Hb'|]. rewrite Qmult_0_l.
    change 0%Q with (inject_Z 0). rewrite <- Zle_Qle. lia.
  - apply Qle_shift_div_r; [exact Hb'|]. rewrite Qmult_1_l.
    rewrite <- Zle_Qle. lia.
Qed.

(** What the code computes for a configured ROI, with the built-in
    [max] and [min] read as the mathematical ones. *)
Lemma calculate_intersection_unfold (roi bbox : BBox) :
  calculate_intersection (Some roi) bbox =
  let x1 := Z.max (bx1 roi) (bx1 bbox) in
  let y1 := Z.max (by1 roi) (by1 bbox) in
  let x2 := Z.min (bx2 roi) (bx2 bbox) in
  let y2 := Z.min (by2 roi) (by2 bbox) in
  if (x1 <? x2) && (y1 <? y2) then
    if rect_area bbox =? 0 then 0%Q
    else (float ((x2 - x1) * (y2 - y1)) / float (rect_area bbox))%Q
  else 0%Q.
Proof.
  unfold calculate_intersection, rect_area.
  rewrite !maxZ_spec, !minZ_spec. reflexivity.
Qed.

(** C7: for a box with x1 < x2 and y1 < y2 the result of
    [calculate_intersection] is area(intersection(roi, bbox)) / area(bbox),
    lies in [0, 1], and is 0 when the rectangles do not overlap or when no
    ROI is configured; for ROI (0,0,100,100) and box (90,90,150,150) it is
    100/3600, which is not above the gating threshold 0.2. *)
Theorem calculate_intersection_ratio (roi bbox : BBox) :
  bx1 bbox < bx2 bbox -> by1 bbox < by2 bbox ->
  (calculate_intersection (Some roi) bbox
   == float (intersection_area roi bbox) / float (rect_area bbox))%Q
  /\ (0 <= calculate_intersection (Some roi) bbox)%Q
  /\ (calculate_intersection (Some roi) bbox <= 1)%Q
  /\ (~ overlap roi bbox -> calculate_intersection (Some roi) bbox = 0%Q)
  /\ calculate_intersection None bbox = 0%Q
  /\ (calculate_intersection (Some example_roi) example_bbox
      == 100 # 3600)%Q
  /\ (calculate_intersection (Some example_roi) example_bbox
      < Config.ROI_INTERSECTION_THRESHOLD)%Q
  /\ in_roi (Some example_roi) example_bbox = false.
Proof.
  intros Hx Hy.
  assert (Harea : 0 < rect_area bbox) by (unfold rect_area; nia).
  rewrite calculate_intersection_unfold. cbv zeta.
  unfold intersection_area, overlap.
  set (x1 := Z.max (bx1 roi) (bx1 bbox)).
  set (y1 := Z.max (by1 roi) (by1 bbox)).
  set (x2 := Z.min (bx2 roi) (bx2 bbox)).
  set (y2 := Z.min (by2 roi) (by2 bbox)).
  assert (Hw : x2 - x1 <= bx2 bbox - bx1 bbox) by (subst x1 x2; lia).
  assert (Hh : y2 - y1 <= by2 bbox - by1 bbox) by (subst y1 y2; lia).
  split; [|split; [|split; [|split; [|split]]]].
  - destruct (x1 <? x2) eqn:Ex; destruct (y1 <? y2) eqn:Ey; simpl;
      try apply Z.ltb_lt in Ex; try apply Z.ltb_lt in Ey;
      try apply Z.ltb_ge in Ex; try apply Z.ltb_ge in Ey.
    + destruct (Z.eqb_spec (rect_area bbox) 0) as [E0|_]; [lia|].
      rewrite !Z.max_r by lia. reflexivity.
    + rewrite (Z.max_l 0 (y2 - y1)) by lia. rewrite Z.mul_0_r.
      unfold float, Qdiv. rewrite Qmult_0_l. reflexivity.
    + rewrite (Z.max_l 0 (x2 - x1)) by lia. rewrite Z.mul_0_l.
      unfold float, Qdiv. rewrite Qmult_0_l. reflexivity.
    + rewrite (Z.max_l 0 (x2 - x1)) by lia. rewrite Z.mul_0_l.
      unfold float, Qdiv. rewrite Qmult_0_l. reflexivity.
  - destruct ((x1 <? x2) && (y1 <? y2)) eqn:E; [|apply Qle_refl].
    apply andb_prop in E. destruct E as [Ex Ey].
    apply Z.ltb_lt in Ex. apply Z.ltb_lt in Ey.
    destruct (Z.eqb_spec (rect_area bbox) 0) as [E0|_]; [lia|].
    apply ratio_bounds; [|exact Harea]. unfold rect_area. nia.
  - destruct ((x1 <? x2) && (y1 <? y2)) eqn:E; [|discriminate].
    apply andb_prop in E. destruct E as [Ex Ey].
    apply Z.ltb_lt in Ex. apply Z.ltb_lt in Ey.
    destruct (Z.eqb_spec (rect_area bbox) 0) as [E0|_]; [lia|].
    apply ratio_bounds; [|exact Harea]. unfold rect_area. nia.
  - intro Hno.
    destruct (x1 <? x2) eqn:Ex; destruct (y1 <? y2) eqn:Ey; simpl;
      try reflexivity.
    apply Z.ltb_lt in Ex. apply Z.ltb_lt in Ey. exfalso. apply Hno. now split.
  - reflexivity.
  - split; [|split].
    + vm_compute. reflexivity.
    + vm_compute. reflexivity.
    + vm_compute. reflexivity.
Qed.

Lemma calculate_intersection_ratio_witness :
  bx1 half_inside_bbox < bx2 half_inside_bbox
  /\ by1 half_inside_bbox < by2 half_inside_bbox
  /\ (calculate_intersection (Some example_roi) half_inside_bbox
      == float (intersection_area example_roi half_inside_bbox)
         / float (rect_area half_inside_bbox))%Q
  /\ (calculate_intersection (Some example_roi) half_inside_bbox <= 1)%Q.
Proof.
  assert (Hx : bx1 half_inside_bbox < bx2 half_inside_bbox)
    by (simpl; lia).
  assert (Hy : by1 half_inside_bbox < by2 half_inside_bbox)
    by (simpl; lia).
  pose proof (calculate_intersection_ratio
                example_roi half_inside_bbox Hx Hy) as H.
  split; [exact Hx|]. split; [exact Hy|].
  split; [exact (proj1 H)|].
  exact (proj1 (proj2 (proj2 H))).
Defined.

End ROIFacts.

(** ** The axle estimate *)

Module DetectorFacts.
Import Py VehicleDetector Statements PyFacts.

(** C8: [assign_wheels_to_vehicle] returns an integer between 2 and 8
    for every plate box and every list of wheel detections, empty or
    not. *)
Theorem assign_wheels_to_vehicle_range (plate_bbox : BBox)
    (wheels : list Wheel) :
  2 <= assign_wheels_to_vehicle plate_bbox wheels <= 8.
Proof.
  unfold assign_wheels_to_vehicle.
  destruct (wheels_loop _ _ _ _ wheels []) as [axle_groups|].
  - rewrite minZ_spec, maxZ_spec. lia.
  - lia.
Qed.

(** The example of the specification: two wheels near y = 100 and two
    near y = 300 form two groups; a fifth wheel far below makes a third
    axle; a wheel without a box ends in the default. *)
Example assign_wheels_example :
  assign_wheels_to_vehicle example_plate example_wheels = 2
  /\ assign_wheels_to_vehicle example_plate
       (example_wheels ++ [wheel_at 150 400]) = 3
  /\ assign_wheels_to_vehicle example_plate
       (example_wheels ++ [{| wheel_bbox := None;
                              wheel_confidence := 1 |}]) = 2.
Proof. repeat split; vm_compute; reflexivity. Qed.

End DetectorFacts.

(** ** The track state machine *)

Module TrackFacts.
Import Py Tracker Statements PyFacts.

Ltac split_update :=
  unfold update_plate, check_exhausted; simpl;
  repeat match goal with
         | |- context [Qgtb ?a ?b] => destruct (Qgtb a b) eqn:?
         | |- context [?a >=? ?b] => destruct (a >=? b) eqn:?
         end; simpl.

Lemma update_plate_true_iff (text : str) (c : Q) (img : option ndarray)
    (t : VehicleTrack) :
  snd (update_plate text c img t) = true
  <-> (best_ocr_confidence t < c)%Q /\ (Config.OCR_CONFIDENCE_THRESHOLD < c)%Q.
Proof.
  unfold update_plate, check_exhausted. simpl.
  destruct (Qgtb c (best_ocr_confidence t)) eqn:Eb; simpl.
  - destruct (Qgtb c Config.OCR_CONFIDENCE_THRESHOLD) eqn:Et; simpl.
    + apply Qgtb_true in Eb, Et. tauto.
    + apply Qgtb_false in Et.
      destruct (_ >=? _); simpl; split; try discriminate;
        intros [_ H]; exfalso; exact (Qlt_not_le _ _ H Et).
  - apply Qgtb_false in Eb.
    destruct (_ >=? _); simpl; split; try discriminate;
      intros [H _]; exfalso; exact (Qlt_not_le _ _ H Eb).
Qed.

Lemma update_plate_true_locked (text : str) (c : Q) (img : option ndarray)
    (t : VehicleTrack) :
  snd (update_plate text c img t) = true ->
  state (fst (update_plate text c img t)) = LOCKED
  /\ processing_complete (fst (update_plate text c img t)) = true
  /\ license_plate (fst (update_plate text c img t)) = text
  /\ best_ocr_confidence (fst (update_plate text c img t)) = c.
Proof. split_update; intro H; try discriminate; auto. Qed.

(** The fields [update_plate] never writes, and the attempt counter. *)
Lemma update_plate_fixed (text : str) (c : Q) (img : option ndarray)
    (t : VehicleTrack) :
  let t' := fst (update_plate text c img t) in
  track_id t' = track_id t
  /\ max_ocr_attempts t' = max_ocr_attempts t
  /\ ocr_attempts t' = ocr_attempts t + 1
  /\ last_bbox t' = last_bbox t
  /\ first_seen_bbox t' = first_seen_bbox t
  /\ detection_confidence t' = detection_confidence t
  /\ max_axle_count t' = max_axle_count t.
Proof. split_update; repeat split; reflexivity. Qed.

Lemma update_plate_lock_consistent (text : str) (c : Q)
    (img : option ndarray) (t : VehicleTrack) :
  (state t = LOCKED <-> processing_complete t = true) ->
  let t' := fst (update_plate text c img t) in
  state t' = LOCKED <-> processing_complete t' = true.
Proof. split_update; tauto. Qed.

(** When [update_plate] returns [False] the track holds the better of the
    old pair and the new one, and it is locked exactly when it was locked
    before or the attempts are used up. *)
Lemma update_plate_false (text : str) (c : Q) (img : option ndarray)
    (t : VehicleTrack) :
  snd (update_plate text c img t) = false ->
  let t' := fst (update_plate text c img t) in
  (license_plate t', best_ocr_confidence t')
  = (if Qgtb c (best_ocr_confidence t) then (text, c)
     else (license_plate t, best_ocr_confidence t))
  /\ state t' = (if ocr_attempts t + 1 >=? max_ocr_attempts t
                 then LOCKED else state t).
Proof. split_update; intro H; try discriminate; auto. Qed.

(** C5: a track in state TRACKING that receives a confidence strictly
    above both its best confidence and the lock threshold
    (OCR_CONFIDENCE_THRESHOLD = 40; a fortiori LOCK_THRESHOLD = 80) is
    LOCKED by that one call, whatever its [max_ocr_attempts]; a first call
    with confidence 85 locks the track at once. *)
Theorem update_plate_locks_by_confidence :
  (forall (t : VehicleTrack) (text : str) (c : Q) (img : option ndarray),
      state t = TRACKING ->
      (best_ocr_confidence t < c)%Q ->
      (Config.OCR_CONFIDENCE_THRESHOLD < c)%Q
      \/ (Config.LOCK_THRESHOLD < c)%Q ->
      state (fst (update_plate text c img t)) = LOCKED
      /\ processing_complete (fst (update_plate text c img t)) = true
      /\ snd (update_plate text c img t) = true)
  /\ (forall (t : VehicleTrack) (text : str) (img : option ndarray),
         state t = TRACKING ->
         ocr_attempts t = 0 ->
         best_ocr_confidence t = 0%Q ->
         state (fst (update_plate text 85 img t)) = LOCKED
         /\ snd (update_plate text 85 img t) = true)
  /\ (forall (id : Z) (now : Q) (text : str) (img : option ndarray),
         state (fst (update_plate text 85 img (new_track id now))) = LOCKED).
Proof.
  assert (General : forall t text c img,
             (best_ocr_confidence t < c)%Q ->
             (Config.OCR_CONFIDENCE_THRESHOLD < c)%Q ->
             state (fst (update_plate text c img t)) = LOCKED
             /\ processing_complete (fst (update_plate text c img t)) = true
             /\ snd (update_plate text c img t) = true).
  { intros t text c img Hb Ht.
    assert (Htrue : snd (update_plate text c img t) = true)
      by (apply update_plate_true_iff; split; assumption).
    destruct (update_plate_true_locked text c img t Htrue) as [H1 [H2 _]].
    auto. }
  split; [|split].
  - intros t text c img _ Hb [Ht|Ht].
    + apply General; assumption.
    + apply General; [assumption|].
      eapply Qlt_trans; [|exact Ht]. reflexivity.
  - intros t text img _ _ Hb.
    destruct (General t text 85%Q img) as [H1 [_ H3]].
    + rewrite Hb. reflexivity.
    + reflexivity.
    + auto.
  - intros id now text img.
    destruct (General (new_track id now) text 85%Q img) as [H1 _].
    + reflexivity.
    + reflexivity.
    + exact H1.
Qed.

Lemma update_plate_locks_by_confidence_witness :
  state (new_track 7 0) = TRACKING
  /\ (best_ocr_confidence (new_track 7 0) < 85)%Q
  /\ (Config.LOCK_THRESHOLD < 85)%Q
  /\ state (fst (update_plate (str_of "ABC") 85 None (new_track 7 0)))
     = LOCKED.
Proof.
  assert (H1 : state (new_track 7 0) = TRACKING) by reflexivity.
  assert (H2 : (best_ocr_confidence (new_track 7 0) < 85)%Q) by reflexivity.
  assert (H3 : (Config.LOCK_THRESHOLD < 85)%Q) by reflexivity.
  split; [exact H1|]. split; [exact H2|]. split; [exact H3|].
  exact (proj1 (proj1 update_plate_locks_by_confidence
                      (new_track 7 0) (str_of "ABC") 85%Q None
                      H1 H2 (or_intror H3))).
Defined.

End TrackFacts.

(** ** The tracker's dict *)

Module DictFacts.
Import Py Tracker Statements.

Lemma dict_get_In (k : Z) (t : VehicleTrack) (d : list (Z * VehicleTrack)) :
  dict_get k d = Some t -> In (k, t) d.
Proof.
  induction d as [|[k' v] d IH]; simpl; [discriminate|].
  destruct (Z.eqb_spec k' k) as [->|Hne].
  - intros [= ->]. now left.
  - intro H. right. now apply IH.
Qed.

Lemma In_dict_get (k : Z) (t : VehicleTrack) (d : list (Z * VehicleTrack)) :
  NoDup (keys d) -> In (k, t) d -> dict_get k d = Some t.
Proof.
  induction d as [|[k' v] d IH]; simpl; [contradiction|].
  intros Hnd Hin. inversion Hnd as [|? ? Hnotin Hnd']; subst.
  destruct Hin as [[= -> ->]|Hin].
  - now rewrite Z.eqb_refl.
  - destruct (Z.eqb_spec k' k) as [->|Hne].
    + exfalso. apply Hnotin. unfold keys.
      change k with (fst (k, t)). now apply in_map.
    + now apply IH.
Qed.

Lemma dict_get_None (k : Z) (d : list (Z * VehicleTrack)) :
  dict_get k d = None <-> ~ In k (keys d).
Proof.
  induction d as [|[k' v] d IH]; simpl.
  - tauto.
  - destruct (Z.eqb_spec k' k) as [->|Hne].
    + split; [discriminate|]. intro H. exfalso. apply H. now left.
    + rewrite IH. split; intro H.
      * intros [Heq|Hin]; [now apply Hne | now apply H].
      * intro Hin. apply H. now right.
Qed.

Lemma dict_get_set_same (k : Z) (v : VehicleTrack)
    (d : list (Z * VehicleTrack)) :
  dict_get k (dict_set k v d) = Some v.
Proof.
  induction d as [|[k' v'] d IH]; simpl.
  - now rewrite Z.eqb_refl.
  - destruct (Z.eqb_spec k' k) as [->|Hne]; simpl.
    + now rewrite Z.eqb_refl.
    + destruct (Z.eqb_spec k' k); [contradiction|exact IH].
Qed.

Lemma dict_get_set_other (i k : Z) (v : VehicleTrack)
    (d : list (Z * VehicleTrack)) :
  i <> k -> dict_get i (dict_set k v d) = dict_get i d.
Proof.
  intro Hne. induction d as [|[k' v'] d IH]; simpl.
  - destruct (Z.eqb_spec k i); [congruence|reflexivity].
  - destruct (Z.eqb_spec k' k) as [->|Hne']; simpl.
    + destruct (Z.eqb_spec k i); [congruence|reflexivity].
    + destruct (Z.eqb_spec k' i); [reflexivity|exact IH].
Qed.

Lemma In_dict_set (k' k : Z) (t' v : VehicleTrack)
    (d : list (Z * VehicleTrack)) :
  In (k', t') (dict_set k v d) -> (k' = k /\ t' = v) \/ In (k', t') d.
Proof.
  induction d as [|[k0 v0] d IH]; simpl.
  - intros [[= <- <-]|[]]. now left.
  - destruct (Z.eqb_spec k0 k) as [->|Hne]; simpl.
    + intros [[= <- <-]|Hin]; [now left | right; now right].
    + intros [Heq|Hin]; [right; now left|].
      destruct (IH Hin) as [H|H]; [now left | right; now right].
Qed.

Lemma dict_set_fresh (k : Z) (v : VehicleTrack)
    (d : list (Z * VehicleTrack)) :
  ~ In k (keys d) -> dict_set k v d = d ++ [(k, v)].
Proof.
  induction d as [|[k' v'] d IH]; simpl; [reflexivity|].
  intro H. destruct (Z.eqb_spec k' k) as [->|Hne].
  - exfalso. apply H. now left.
  - rewrite IH; [reflexivity|]. intro Hin. apply H. now right.
Qed.

Lemma dict_set_at (k : Z) (t v : VehicleTrack)
    (l1 l2 : list (Z * VehicleTrack)) :
  ~ In k (keys l1) ->
  dict_set k v (l1 ++ (k, t) :: l2) = l1 ++ (k, v) :: l2.
Proof.
  induction l1 as [|[k' v'] l1 IH]; simpl.
  - now rewrite Z.eqb_refl.
  - intro H. destruct (Z.eqb_spec k' k) as [->|Hne].
    + exfalso. apply H. now left.
    + rewrite IH; [reflexivity|]. intro Hin. apply H. now right.
Qed.

Lemma keys_dict_set_in (k : Z) (v : VehicleTrack)
    (d : list (Z * VehicleTrack)) :
  In k (keys d) -> keys (dict_set k v d) = keys d.
Proof.
  induction d as [|[k' v'] d IH]; simpl; [contradiction|].
  intro H. destruct (Z.eqb_spec k' k) as [->|Hne]; simpl.
  - reflexivity.
  - destruct H as [H|H]; [contradiction|]. now rewrite IH.
Qed.

Lemma NoDup_snoc (k : Z) (l : list Z) :
  NoDup l -> ~ In k l -> NoDup (l ++ [k]).
Proof.
  induction 1 as [|x l Hx Hnd IH]; simpl; intro Hk.
  - constructor; [intros []|constructor].
  - constructor.
    + intro Hin. apply in_app_or in Hin. destruct Hin as [Hin|[->|[]]].
      * now apply Hx.
      * apply Hk. now left.
    + apply IH. intro Hin. apply Hk. now right.
Qed.

Lemma NoDup_keys_dict_set (k : Z) (v : VehicleTrack)
    (d : list (Z * VehicleTrack)) :
  NoDup (keys d) -> NoDup (keys (dict_set k v d)).
Proof.
  intro Hnd. destruct (in_dec Z.eq_dec k (keys d)) as [Hin|Hnot].
  - now rewrite keys_dict_set_in.
  - rewrite dict_set_fresh by exact Hnot.
    unfold keys. rewrite map_app. simpl. now apply NoDup_snoc.
Qed.

Lemma In_dict_del (kv : Z * VehicleTrack) (k : Z)
    (d : list (Z * VehicleTrack)) :
  In kv (dict_del k d) -> In kv d.
Proof. unfold dict_del. intro H. apply filter_In in H. apply H. Qed.

Lemma NoDup_keys_filter (f : Z * VehicleTrack -> bool)
    (d : list (Z * VehicleTrack)) :
  NoDup (keys d) -> NoDup (keys (filter f d)).
Proof.
  induction d as [|kv d IH]; simpl; [auto|].
  intro Hnd. inversion Hnd as [|? ? Hnotin Hnd']; subst.
  destruct (f kv); simpl; [|now apply IH].
  constructor; [|now apply IH].
  intro Hin. apply Hnotin. unfold keys in *.
  apply in_map_iff in Hin. destruct Hin as [x [Hx Hin]].
  apply filter_In in Hin. rewrite <- Hx. apply in_map. apply Hin.
Qed.

Lemma fold_dict_del_In (kv : Z * VehicleTrack) (ks : list Z)
    (d : list (Z * VehicleTrack)) :
  In kv (fold_left (fun d k => dict_del k d) ks d) -> In kv d.
Proof.
  revert d. induction ks as [|k ks IH]; simpl; intros d H; [exact H|].
  apply IH in H. exact (In_dict_del _ _ _ H).
Qed.

Lemma fold_dict_del_NoDup (ks : list Z) (d : list (Z * VehicleTrack)) :
  NoDup (keys d) ->
  NoDup (keys (fold_left (fun d k => dict_del k d) ks d)).
Proof.
  revert d. induction ks as [|k ks IH]; simpl; intros d H; [exact H|].
  apply IH. unfold dict_del. now apply NoDup_keys_filter.
Qed.

End DictFacts.

(** ** The registry: matching and creation *)

Module RegistryFacts.
Import Py Tracker Statements PyFacts DictFacts TrackFacts.

Lemma match_loop_first (now : Q) (c : Q * Q) (bbox : BBox) (dc : Q)
    (ac : Z) (l1 : list (Z * VehicleTrack)) (k : Z) (t : VehicleTrack)
    (l2 : list (Z * VehicleTrack)) :
  no_match c l1 -> matches c t = true ->
  match_loop now c bbox dc ac (l1 ++ (k, t) :: l2)
  = Some (l1 ++ (k, update_position now bbox dc ac t) :: l2, k).
Proof.
  intros Hno Hm. induction Hno as [|[k' t'] l1 Hk _ IH]; simpl.
  - now rewrite Hm.
  - simpl in Hk. rewrite Hk, IH. reflexivity.
Qed.

Lemma match_loop_none (now : Q) (c : Q * Q) (bbox : BBox) (dc : Q)
    (ac : Z) (d : list (Z * VehicleTrack)) :
  no_match c d -> match_loop now c bbox dc ac d = None.
Proof.
  induction 1 as [|[k' t'] d Hk _ IH]; simpl; [reflexivity|].
  simpl in Hk. now rewrite Hk, IH.
Qed.

(** Either no stored track is accepted, or there is a first one. *)
Lemma first_match_or_none (c : Q * Q) (d : list (Z * VehicleTrack)) :
  no_match c d
  \/ exists l1 k t l2,
       d = l1 ++ (k, t) :: l2 /\ no_match c l1 /\ matches c t = true.
Proof.
  induction d as [|[k t] d IH].
  - left. constructor.
  - destruct (matches c t) eqn:Hm.
    + right. exists [], k, t, d. repeat split; [constructor|exact Hm].
    + destruct IH as [Hno|[l1 [k' [t' [l2 [-> [Hno Hm']]]]]]].
      * left. constructor; assumption.
      * right. exists ((k, t) :: l1), k', t', l2.
        repeat split; [constructor; assumption|exact Hm'].
Qed.

Lemma frozen_refl (t : VehicleTrack) : frozen t t.
Proof.
  unfold frozen. repeat split; try reflexivity; try apply Qle_refl; lia.
Qed.

Lemma frozen_trans (t1 t2 t3 : VehicleTrack) :
  frozen t1 t2 -> frozen t2 t3 -> frozen t1 t3.
Proof.
  unfold frozen. intros H1 H2.
  repeat match goal with H : _ /\ _ |- _ => destruct H end.
  repeat split; try congruence; try lia.
  eapply Qle_trans; eassumption.
Qed.

Lemma update_position_frozen (now : Q) (bbox : BBox) (dc : Q) (ac : Z)
    (t : VehicleTrack) :
  first_seen_bbox t <> None ->
  frozen t (update_position now bbox dc ac t).
Proof.
  intro H. unfold frozen, update_position; simpl.
  repeat split; try reflexivity.
  - destruct (first_seen_bbox t); [reflexivity|contradiction].
  - apply maxQ_ge_l.
  - rewrite maxZ_spec. lia.
Qed.

Lemma update_position_ok (now : Q) (bbox : BBox) (dc : Q) (ac : Z)
    (k : Z) (t : VehicleTrack) :
  track_ok k t -> track_ok k (update_position now bbox dc ac t).
Proof.
  unfold track_ok, update_position; simpl.
  intros [H1 [H2 [H3 [H4 H5]]]]. repeat split; try tauto; try lia;
    try discriminate.
  destruct (first_seen_bbox t); [discriminate|contradiction].
Qed.

Lemma new_track_ok (now : Q) (bbox : BBox) (dc : Q) (ac : Z) (k : Z) :
  track_ok k (update_position now bbox dc ac (new_track k now)).
Proof.
  unfold track_ok, update_position, new_track; simpl.
  repeat split; try discriminate; try lia.
Qed.

Lemma tracker_ok_keys (s : VehicleTracker) (k : Z) :
  tracker_ok s -> In k (keys (tracks s)) -> 0 <= k < next_id s.
Proof.
  intros [Hall _] Hin. unfold keys in Hin. apply in_map_iff in Hin.
  destruct Hin as [[k' t] [Hk Hin]]. simpl in Hk. subst k'.
  apply (Hall k t Hin).
Qed.

Lemma tracker_ok_get (s : VehicleTracker) (k : Z) (t : VehicleTrack) :
  tracker_ok s -> dict_get k (tracks s) = Some t ->
  track_ok k t /\ 0 <= k < next_id s.
Proof. intros [Hall _] H. apply Hall. now apply dict_get_In. Qed.

(** Writing a well-formed track under an id below the counter keeps the
    tracker well formed. *)
Lemma tracker_ok_set (s : VehicleTracker) (k : Z) (v : VehicleTrack)
    (n : Z) :
  tracker_ok s -> track_ok k v -> 0 <= k < n -> next_id s <= n ->
  tracker_ok {| tracks := dict_set k v (tracks s); next_id := n |}.
Proof.
  intros [Hall [Hnd Hn]] Hv Hk Hle. split; [|split]; simpl.
  - intros k' t' Hin. apply In_dict_set in Hin.
    destruct Hin as [[-> ->]|Hin]; [now split|].
    destruct (Hall k' t' Hin) as [Hok Hb]. split; [exact Hok|lia].
  - now apply NoDup_keys_dict_set.
  - lia.
Qed.

(** The two ways [get_track] ends, on a well-formed tracker: the first
    accepted track is updated under its own key, or a new track is stored
    under the counter's value. *)
Lemma get_track_cases (now : Q) (did : Z) (bbox : BBox) (dc : Q) (ac : Z)
    (s : VehicleTracker) :
  tracker_ok s ->
  let r := get_track now did bbox dc ac s in
  (exists t0,
      dict_get (snd r) (tracks s) = Some t0
      /\ matches (center bbox) t0 = true
      /\ fst r = {| tracks := dict_set (snd r)
                                (update_position now bbox dc ac t0)
                                (tracks s);
                    next_id := next_id s |})
  \/ (snd r = next_id s
      /\ dict_get (snd r) (tracks s) = None
      /\ no_match (center bbox) (tracks s)
      /\ fst r = {| tracks := dict_set (next_id s)
                                (update_position now bbox dc ac
                                   (new_track (next_id s) now))
                                (tracks s);
                    next_id := next_id s + 1 |}).
Proof.
  intros Hok r. subst r. unfold get_track.
  destruct (first_match_or_none (center bbox) (tracks s))
    as [Hno|[l1 [k [t [l2 [Hd [Hno Hm]]]]]]].
  - right. rewrite (match_loop_none _ _ _ _ _ _ Hno). simpl.
    repeat split; try assumption.
    apply dict_get_None. intro Hin.
    pose proof (tracker_ok_keys s _ Hok Hin). lia.
  - left. rewrite Hd, (match_loop_first _ _ _ _ _ _ _ _ _ Hno Hm). simpl.
    destruct Hok as [_ [Hnd _]]. rewrite Hd in Hnd.
    assert (Hk : ~ In k (keys l1)).
    { unfold keys in Hnd. rewrite map_app in Hnd. simpl in Hnd.
      apply NoDup_remove_2 in Hnd. intro Hin. apply Hnd.
      apply in_or_app. now left. }
    exists t. repeat split.
    + apply In_dict_get; [exact Hnd|]. apply in_or_app. right. now left.
    + exact Hm.
    + now rewrite dict_set_at.
Qed.

Lemma get_track_ok (now : Q) (did : Z) (bbox : BBox) (dc : Q) (ac : Z)
    (s : VehicleTracker) :
  tracker_ok s -> tracker_ok (fst (get_track now did bbox dc ac s)).
Proof.
  intro Hok.
  destruct (get_track_cases now did bbox dc ac s Hok)
    as [[t0 [Hget [_ ->]]]|[_ [_ [_ ->]]]].
  - destruct (tracker_ok_get s _ _ Hok Hget) as [Ht0 Hk].
    apply tracker_ok_set; try assumption; try lia.
    now apply update_position_ok.
  - pose proof Hok as [_ [_ Hn]].
    apply tracker_ok_set; try assumption; try lia.
    apply new_track_ok.
Qed.

End RegistryFacts.

(** ** The camera loop *)

Module CameraFacts.
Import Py Tracker VideoCamera Statements PyFacts DictFacts TrackFacts.
Import RegistryFacts.

Section WithLibs.
Variable L : OCREngine.Libs.

(** The ways the loop body ends. *)
Lemma process_detection_cases (inp : Input) (s : VehicleTracker) :
  let r := process_detection L inp s in
  let g := matched inp s in
  r = (s, no_outcome)
  \/ (dict_get (snd g) (tracks (fst g)) = None /\ r = (fst g, no_outcome))
  \/ exists t1,
       dict_get (snd g) (tracks (fst g)) = Some t1
       /\ (r = (fst g, idle (snd g) t1)
           \/ exists text c img,
                should_process t1
                  (ROIManager.in_roi (in_roi inp)
                                     (det_bbox (in_detection inp))) = true
                /\ truthy_str text = true /\ (0 < c)%Q
                /\ let p := plate_part inp text c img t1 in
                   r = ({| tracks := dict_set (snd g) (fst (fst p))
                                              (tracks (fst g));
                           next_id := next_id (fst g) |},
                        {| out_track := Some (snd g, fst (fst p));
                           out_update := Some (text, c, snd (fst p));
                           out_events := snd p;
                           out_raised :=
                             plate_raised inp text c img t1 |})).
Proof.
  intros r g. subst r g. unfold process_detection, matched, axle_count_of.
  destruct (det_class (in_detection inp)); [|now left].
  right.
  destruct (get_track _ _ _ _ _ s) as [tracker k]. cbn [fst snd].
  destruct (dict_get k (tracks tracker)) as [t1|]; [|left; now split].
  right. exists t1. split; [reflexivity|].
  destruct (should_process t1 _) eqn:Hsp; [|now left].
  destruct (in_plate_img inp) as [img|]; [|now left].
  destruct (OCREngine.process_plate L (Some img) (track_id t1))
    as [text c].
  destruct (truthy_str text && Qgtb c 0) eqn:Hgo; [|now left].
  apply andb_prop in Hgo. destruct Hgo as [Htext Hc].
  apply Qgtb_true in Hc.
  right. exists text, c, img. repeat split; try assumption.
  unfold plate_part, plate_raised, axle_count_of.
  destruct (update_plate text c (Some img) t1) as [t2 b]. cbn [fst snd].
  destruct b; [|reflexivity].
  destruct (commit inp t2 text c _) as [[t3 ev] rs]. reflexivity.
Qed.

Lemma should_process_true (t : VehicleTrack) (ir : bool) :
  should_process t ir = true ->
  processing_complete t = false /\ ocr_attempts t < max_ocr_attempts t.
Proof.
  unfold should_process.
  destruct (processing_complete t); simpl; [discriminate|].
  destruct (Z.geb_spec (ocr_attempts t) (max_ocr_attempts t));
    [discriminate|].
  intros _. split; [reflexivity|lia].
Qed.

Lemma should_process_complete (t : VehicleTrack) (ir : bool) :
  processing_complete t = true -> should_process t ir = false.
Proof. unfold should_process. now intros ->. Qed.

(** [commit] writes at most [frame_path], and its calls are about its
    track and carry its confidence. *)
Lemma commit_facts (inp : Input) (t : VehicleTrack) (text : str) (c : Q)
    (ax : Z) :
  let r := fst (commit inp t text c ax) in
  (fst r = t \/ fst r = set_frame_path (in_saved inp) t)
  /\ forall e, In e (snd r) ->
       event_track e = track_id t
       /\ forall c', committed_confidence e = Some c' -> c' = c.
Proof.
  unfold commit. destruct (truthy_opt_str (in_saved inp)).
  - simpl. split; [now right|].
    intros e He; simpl in He;
      repeat (destruct He as [<-|He]; [split; [reflexivity|];
                intros c' Hc'; simpl in Hc'; congruence|]);
      contradiction.
  - simpl. split; [now left|].
    intros e [<-|[]]. split; [reflexivity|]. intros c' Hc'. discriminate.
Qed.

(** What the part of the loop body from [update_plate] on does to a
    stored track that passed [should_process]. *)
Lemma plate_part_facts (inp : Input) (text : str) (c : Q) (img : ndarray)
    (k : Z) (t1 : VehicleTrack) (ir : bool) :
  should_process t1 ir = true -> track_ok k t1 ->
  let p := plate_part inp text c img t1 in
  let t3 := fst (fst p) in
  track_ok k t3
  /\ (snd (fst p) = true ->
      processing_complete t3 = true /\ state t3 = LOCKED
      /\ (Config.OCR_CONFIDENCE_THRESHOLD < c)%Q
      /\ (best_ocr_confidence t1 < c)%Q)
  /\ (snd (fst p) = false ->
      snd p = [] /\ t3 = fst (update_plate text c (Some img) t1))
  /\ (forall e, In e (snd p) ->
        snd (fst p) = true /\ event_track e = k
        /\ forall c', committed_confidence e = Some c' -> c' = c).
Proof.
  intros Hsp Hok. destruct (should_process_true _ _ Hsp) as [Hpc Hatt].
  unfold plate_part. cbv zeta.
  set (u := update_plate text c (Some img) t1).
  pose proof (update_plate_fixed text c (Some img) t1) as Hfix.
  cbv zeta in Hfix. fold u in Hfix.
  destruct Hfix as [Hid [Hmax [Hat [Hlb [Hfb _]]]]].
  pose proof (update_plate_lock_consistent text c (Some img) t1) as Hcons.
  cbv zeta in Hcons. fold u in Hcons.
  destruct Hok as [Ok1 [Ok2 [Ok3 [Ok4 Ok5]]]].
  assert (Hu : track_ok k (fst u)).
  { unfold track_ok. rewrite Hid, Hmax, Hat, Hlb, Hfb.
    repeat split; try tauto; try lia. }
  destruct (snd u) eqn:Hb; simpl.
  - pose proof (commit_facts inp (fst u) text c (axle_count_of inp)) as Hc.
    cbv zeta in Hc. destruct Hc as [Ht He].
    pose proof (update_plate_true_locked text c (Some img) t1 Hb) as Hl.
    fold u in Hl. destruct Hl as [Hst [Hcomp _]].
    pose proof (proj1 (update_plate_true_iff text c (Some img) t1) Hb)
      as [Hbest Hthr].
    assert (Hsame : track_ok k (fst (fst (commit inp (fst u) text c
                                                 (axle_count_of inp))))
                    /\ processing_complete
                         (fst (fst (commit inp (fst u) text c
                                           (axle_count_of inp)))) = true
                    /\ state (fst (fst (commit inp (fst u) text c
                                               (axle_count_of inp))))
                       = LOCKED).
    { destruct Ht as [->| ->]; [auto|]. simpl. split; [|auto].
      unfold track_ok in *. simpl. exact Hu. }
    destruct Hsame as [S1 [S2 S3]].
    split; [exact S1|]. split; [auto|]. split; [discriminate|].
    intros e Hin. destruct (He e Hin) as [E1 E2].
    split; [reflexivity|]. split; [|exact E2].
    rewrite E1. destruct Hu as [Hu _]. exact Hu.
  - split; [exact Hu|]. split; [discriminate|]. split; [auto|].
    intros e [].
Qed.

(** What the [get_track] call of the loop body does to the store. *)
Lemma matched_effect (inp : Input) (s : VehicleTracker) :
  tracker_ok s ->
  let g := matched inp s in
  tracker_ok (fst g)
  /\ next_id s <= next_id (fst g)
  /\ (forall i t, dict_get i (tracks s) = Some t ->
        exists t', dict_get i (tracks (fst g)) = Some t' /\ frozen t t')
  /\ (forall i t', dict_get i (tracks (fst g)) = Some t' ->
        i < next_id s -> exists t, dict_get i (tracks s) = Some t)
  /\ exists t1,
       dict_get (snd g) (tracks (fst g)) = Some t1
       /\ (snd g = next_id s
           \/ exists t0, dict_get (snd g) (tracks s) = Some t0
                         /\ frozen t0 t1).
Proof.
  intros Hok g. subst g. unfold matched.
  split; [now apply get_track_ok|].
  destruct (get_track_cases (in_now inp) (det_track_id (in_detection inp))
              (det_bbox (in_detection inp))
              (det_confidence (in_detection inp)) (axle_count_of inp)
              s Hok) as [[t0 [Hget [_ Hs]]]|[Hk [Hnone [_ Hs]]]];
    rewrite Hs; cbn [fst tracks next_id];
    set (k := snd (get_track _ _ _ _ _ s)) in *.
  - destruct (tracker_ok_get s _ _ Hok Hget) as [[_ [_ [_ [_ Hfs]]]] _].
    split; [lia|]. split; [|split].
    + intros i t Hi. destruct (Z.eq_dec i k) as [->|Hne].
      * rewrite dict_get_set_same. eexists; split; [reflexivity|].
        assert (t = t0) by congruence. subst t.
        now apply update_position_frozen.
      * rewrite dict_get_set_other by exact Hne.
        exists t. split; [exact Hi|apply frozen_refl].
    + intros i t' Hi _. destruct (Z.eq_dec i k) as [->|Hne].
      * now exists t0.
      * rewrite dict_get_set_other in Hi by exact Hne. now exists t'.
    + eexists. split; [apply dict_get_set_same|]. right.
      exists t0. split; [exact Hget|]. now apply update_position_frozen.
  - rewrite <- Hk. split; [lia|]. split; [|split].
    + intros i t Hi. destruct (Z.eq_dec i k) as [->|Hne]; [congruence|].
      rewrite dict_get_set_other by exact Hne.
      exists t. split; [exact Hi|apply frozen_refl].
    + intros i t' Hi Hlt. assert (Hne : i <> k) by lia.
      rewrite dict_get_set_other in Hi by exact Hne. now exists t'.
    + eexists. split; [apply dict_get_set_same|]. now left.
Qed.

(** What handling one detection does to a well-formed tracker. *)
Lemma process_detection_effect (inp : Input) (s : VehicleTracker) :
  tracker_ok s ->
  let s' := fst (process_detection L inp s) in
  let o := snd (process_detection L inp s) in
  tracker_ok s'
  /\ next_id s <= next_id s'
  /\ (forall i t, dict_get i (tracks s) = Some t ->
        exists t', dict_get i (tracks s') = Some t'
                   /\ (processing_complete t = true -> frozen t t'))
  /\ (forall i t', dict_get i (tracks s') = Some t' ->
        i < next_id s -> exists t, dict_get i (tracks s) = Some t)
  /\ (forall k t, out_track o = Some (k, t) ->
        dict_get k (tracks s') = Some t)
  /\ (forall k t text c b,
        out_track o = Some (k, t) -> out_update o = Some (text, c, b) ->
        ~ finished s k
        /\ (b = true -> processing_complete t = true
                        /\ (Config.OCR_CONFIDENCE_THRESHOLD < c)%Q))
  /\ (forall e, In e (out_events o) ->
        exists k t text c,
          out_track o = Some (k, t)
          /\ out_update o = Some (text, c, true)
          /\ event_track e = k
          /\ forall c', committed_confidence e = Some c' -> c' = c).
Proof.
  intros Hok s' o. subst s' o.
  pose proof (matched_effect inp s Hok) as G. cbv zeta in G.
  destruct G as [Gok [Gn [Gfw [Gbw [t1g [Gk Gorigin]]]]]].
  assert (Keep : forall i t, dict_get i (tracks s) = Some t ->
            exists t', dict_get i (tracks (fst (matched inp s))) = Some t'
                       /\ (processing_complete t = true -> frozen t t')).
  { intros i t Hi. destruct (Gfw i t Hi) as [t' [H1 H2]].
    exists t'. split; [exact H1|]. intros _. exact H2. }
  pose proof (process_detection_cases inp s) as C. cbv zeta in C.
  destruct C as [C|[[_ C]|[t1 [Hget [C|[text [c [img [Hsp [_ [_ C]]]]]]]]]]];
    rewrite C; cbn [fst snd].
  - (* a wheel detection *)
    split; [exact Hok|]. split; [lia|]. split; [|split; [|split; [|split]]].
    + intros i t Hi. exists t. split; [exact Hi|]. intros _. apply frozen_refl.
    + intros i t' Hi _. now exists t'.
    + discriminate.
    + discriminate.
    + intros e [].
  - split; [exact Gok|]. split; [exact Gn|].
    split; [exact Keep|]. split; [exact Gbw|].
    split; [discriminate|]. split; [discriminate|]. intros e [].
  - split; [exact Gok|]. split; [exact Gn|].
    split; [exact Keep|]. split; [exact Gbw|].
    split; [|split; [discriminate|intros e []]].
    intros k t [= <- <-]. exact Hget.
  - set (k := snd (matched inp s)) in *.
    assert (t1g = t1) by congruence. subst t1g.
    destruct (tracker_ok_get _ _ _ Gok Hget) as [Ht1 Hkb].
    pose proof (plate_part_facts inp text c img k t1 _ Hsp Ht1) as P.
    cbv zeta in P. destruct P as [P1 [P2 [_ P4]]].
    destruct (should_process_true _ _ Hsp) as [Hpc _].
    set (t3 := fst (fst (plate_part inp text c img t1))) in *.
    cbn [tracks next_id out_track out_update out_events].
    split; [|split; [exact Gn|split; [|split; [|split; [|split]]]]].
    + apply tracker_ok_set; try assumption; lia.
    + intros i t Hi. destruct (Gfw i t Hi) as [t' [H1 H2]].
      destruct (Z.eq_dec i k) as [->|Hne].
      * rewrite dict_get_set_same. exists t3. split; [reflexivity|].
        intro Hc. exfalso. assert (t' = t1) by congruence. subst t'.
        destruct H2 as [_ [_ [_ [Hpc' _]]]]. congruence.
      * rewrite dict_get_set_other by exact Hne.
        exists t'. split; [exact H1|]. intros _. exact H2.
    + intros i t' Hi Hlt. destruct (Z.eq_dec i k) as [->|Hne].
      * exact (Gbw k t1 Hget Hlt).
      * rewrite dict_get_set_other in Hi by exact Hne.
        exact (Gbw i t' Hi Hlt).
    + intros k' t [= <- <-]. apply dict_get_set_same.
    + intros k' t text' c' b [= <- <-] [= <- <- <-]. split.
      * intros [Hlt Hfin].
        destruct Gorigin as [Hnew|[t0 [H0 Hfr]]]; [lia|].
        specialize (Hfin t0 H0).
        destruct Hfr as [_ [_ [_ [Hpc' _]]]]. congruence.
      * intro Hb. destruct (P2 Hb) as [Q1 [_ [Q3 _]]]. now split.
    + intros e Hin. destruct (P4 e Hin) as [Hb [He Hc]].
      exists k, t3, text, c. rewrite Hb. repeat split; assumption.
Qed.

(** What the eviction scan does: it removes tracks and changes none. *)
Lemma cleanup_effect (current_time max_age : Q) (s : VehicleTracker) :
  tracker_ok s ->
  let s' := cleanup_old_tracks current_time max_age s in
  tracker_ok s'
  /\ next_id s' = next_id s
  /\ (forall i t, dict_get i (tracks s') = Some t ->
        dict_get i (tracks s) = Some t).
Proof.
  intros [Hall [Hnd Hn]]. unfold cleanup_old_tracks. cbn [tracks next_id].
  split; [|split; [reflexivity|]].
  - split; [|split; [|exact Hn]]; cbn [tracks next_id].
    + intros k t Hin. apply fold_dict_del_In in Hin. now apply Hall.
    + now apply fold_dict_del_NoDup.
  - intros i t Hi. apply In_dict_get; [exact Hnd|].
    apply dict_get_In in Hi. now apply fold_dict_del_In in Hi.
Qed.

End WithLibs.

End CameraFacts.

(** ** Runs of the camera loop *)

Module RunFacts.
Import Py Tracker VideoCamera Statements PyFacts DictFacts TrackFacts.
Import RegistryFacts CameraFacts.

Section WithLibs.
Variable L : OCREngine.Libs.

Lemma init_ok : tracker_ok init.
Proof.
  split; [|split]; simpl.
  - intros k t [].
  - constructor.
  - lia.
Qed.

(** One operation on a well-formed tracker. *)
Lemma step_effect (op : Op) (s : VehicleTracker) :
  tracker_ok s ->
  let s' := fst (step L op s) in
  let o := snd (step L op s) in
  tracker_ok s'
  /\ next_id s <= next_id s'
  /\ (forall i t', dict_get i (tracks s') = Some t' -> i < next_id s ->
        exists t, dict_get i (tracks s) = Some t
                  /\ (processing_complete t = true -> frozen t t'))
  /\ (forall k t, out_track o = Some (k, t) ->
        dict_get k (tracks s') = Some t)
  /\ (forall k t text c b,
        out_track o = Some (k, t) -> out_update o = Some (text, c, b) ->
        ~ finished s k
        /\ (b = true -> processing_complete t = true
                        /\ (Config.OCR_CONFIDENCE_THRESHOLD < c)%Q))
  /\ (forall e, In e (out_events o) ->
        exists k t text c,
          out_track o = Some (k, t)
          /\ out_update o = Some (text, c, true)
          /\ event_track e = k
          /\ forall c', committed_confidence e = Some c' -> c' = c).
Proof.
  intros Hok. destruct op as [inp|ct ma]; cbn [step].
  - pose proof (process_detection_effect L inp s Hok) as E.
    cbv zeta in E. destruct E as [E1 [E2 [E3 [E4 [E5 [E6 E7]]]]]].
    cbv zeta. repeat (split; [assumption|]). split; [|auto].
    intros i t' Hi Hlt. destruct (E4 i t' Hi Hlt) as [t Ht].
    exists t. split; [exact Ht|].
    destruct (E3 i t Ht) as [t'' [H1 H2]].
    assert (t'' = t') by congruence. subst t''. exact H2.
  - pose proof (cleanup_effect ct ma s Hok) as E.
    cbv zeta in E. destruct E as [E1 [E2 E3]].
    cbv zeta. cbn [fst snd].
    split; [exact E1|]. split; [lia|]. split; [|split; [|split]].
    + intros i t' Hi _. exists t'. split; [now apply E3|].
      intros _. apply frozen_refl.
    + discriminate.
    + discriminate.
    + intros e [].
Qed.

Lemma run_cons (op : Op) (ops : list Op) (s : VehicleTracker) :
  run L (op :: ops) s
  = (fst (run L ops (fst (step L op s))),
     snd (step L op s) :: snd (run L ops (fst (step L op s)))).
Proof.
  simpl. destruct (step L op s) as [s1 o]. simpl.
  destruct (run L ops s1) as [s2 os]. reflexivity.
Qed.

(** A run keeps the tracker well formed and never lowers the counter. *)
Lemma run_ok (ops : list Op) (s : VehicleTracker) :
  tracker_ok s ->
  tracker_ok (fst (run L ops s)) /\ next_id s <= next_id (fst (run L ops s)).
Proof.
  revert s. induction ops as [|op ops IH]; intros s Hok.
  - simpl. split; [exact Hok|lia].
  - rewrite run_cons. cbn [fst].
    pose proof (step_effect op s Hok) as E. cbv zeta in E.
    destruct E as [E1 [E2 _]]. destruct (IH _ E1) as [I1 I2].
    split; [exact I1|lia].
Qed.

Lemma reachable_ok (s : VehicleTracker) : reachable L s -> tracker_ok s.
Proof. intros [ops <-]. apply run_ok, init_ok. Qed.

(** Over a run, a stored track was stored all along, and if its
    processing was complete at the start it changed in its position data
    only. *)
Lemma run_backward (ops : list Op) (s : VehicleTracker) :
  tracker_ok s ->
  forall i t', dict_get i (tracks (fst (run L ops s))) = Some t' ->
               i < next_id s ->
  exists t, dict_get i (tracks s) = Some t
            /\ (processing_complete t = true -> frozen t t').
Proof.
  revert s. induction ops as [|op ops IH]; intros s Hok i t' Hi Hlt.
  - simpl in Hi. exists t'. split; [exact Hi|]. intros _. apply frozen_refl.
  - rewrite run_cons in Hi. cbn [fst] in Hi.
    pose proof (step_effect op s Hok) as E. cbv zeta in E.
    destruct E as [E1 [E2 [E3 _]]].
    destruct (IH _ E1 i t' Hi ltac:(lia)) as [t1 [H1 F1]].
    destruct (E3 i t1 H1 Hlt) as [t [H0 F0]].
    exists t. split; [exact H0|]. intro Hc.
    specialize (F0 Hc). apply (frozen_trans _ _ _ F0). apply F1.
    destruct F0 as [_ [_ [_ [Hpc _]]]]. congruence.
Qed.

Lemma finished_step (op : Op) (s : VehicleTracker) (i : Z) :
  tracker_ok s -> finished s i -> finished (fst (step L op s)) i.
Proof.
  intros Hok [Hlt Hfin].
  pose proof (step_effect op s Hok) as E. cbv zeta in E.
  destruct E as [_ [E2 [E3 _]]]. split; [lia|].
  intros t' Hi. destruct (E3 i t' Hi Hlt) as [t [H0 F0]].
  pose proof (Hfin t H0) as Hc.
  destruct (F0 Hc) as [_ [_ [_ [Hpc _]]]]. congruence.
Qed.

Lemma finished_quiet_step (op : Op) (s : VehicleTracker) (i : Z) :
  tracker_ok s -> finished s i -> quiet (snd (step L op s)) i.
Proof.
  intros Hok Hfin.
  pose proof (step_effect op s Hok) as E. cbv zeta in E.
  destruct E as [_ [_ [_ [_ [E5 E6]]]]]. split.
  - intros e Hin Heq. destruct (E6 e Hin) as [k [t [text [c [H1 [H2 [H3 _]]]]]]].
    destruct (E5 k t text c true H1 H2) as [Hnf _].
    apply Hnf. congruence.
  - intros t [[text c] b] H1 H2.
    destruct (E5 i t text c b H1 H2) as [Hnf _]. now apply Hnf.
Qed.

Lemma finished_quiet_run (ops : list Op) (s : VehicleTracker) (i : Z) :
  tracker_ok s -> finished s i ->
  forall o, In o (snd (run L ops s)) -> quiet o i.
Proof.
  revert s. induction ops as [|op ops IH]; intros s Hok Hfin o Hin.
  - destruct Hin.
  - rewrite run_cons in Hin. cbn [snd] in Hin. destruct Hin as [<-|Hin].
    + now apply finished_quiet_step.
    + pose proof (step_effect op s Hok) as E. cbv zeta in E.
      destruct E as [E1 _].
      exact (IH _ E1 (finished_step op s i Hok Hfin) o Hin).
Qed.

(** A track left with its processing complete is finished. *)
Lemma complete_finished (op : Op) (s : VehicleTracker) (k : Z)
    (t : VehicleTrack) :
  tracker_ok s ->
  out_track (snd (step L op s)) = Some (k, t) ->
  processing_complete t = true ->
  finished (fst (step L op s)) k.
Proof.
  intros Hok Ho Hc.
  pose proof (step_effect op s Hok) as E. cbv zeta in E.
  destruct E as [E1 [_ [_ [E4 _]]]].
  pose proof (E4 k t Ho) as Hget.
  destruct (tracker_ok_get _ _ _ E1 Hget) as [_ Hb].
  split; [lia|]. intros t' Ht'. congruence.
Qed.

(** In a run, the track of an outcome is stored under its own id. *)
Lemma run_out_track_id (ops : list Op) (s : VehicleTracker) :
  tracker_ok s ->
  forall o k t, In o (snd (run L ops s)) -> out_track o = Some (k, t) ->
  track_id t = k.
Proof.
  revert s. induction ops as [|op ops IH]; intros s Hok o k t Hin Ho.
  - destruct Hin.
  - rewrite run_cons in Hin. cbn [snd] in Hin.
    pose proof (step_effect op s Hok) as E. cbv zeta in E.
    destruct E as [E1 [_ [_ [E4 _]]]].
    destruct Hin as [<-|Hin].
    + destruct (tracker_ok_get _ _ _ E1 (E4 k t Ho)) as [[Hid _] _].
      exact Hid.
    + exact (IH _ E1 o k t Hin Ho).
Qed.

(** In a run, nothing is ever stored or broadcast for a track that locks
    by exhausting its attempts. *)
Lemma exhausted_never_committed (ops : list Op) (s : VehicleTracker)
    (k : Z) :
  tracker_ok s ->
  forall o t text c,
    In o (snd (run L ops s)) ->
    out_track o = Some (k, t) -> out_update o = Some (text, c, false) ->
    state t = LOCKED ->
  forall o' e, In o' (snd (run L ops s)) -> In e (out_events o') ->
  event_track e <> k.
Proof.
  revert s. induction ops as [|op ops IH];
    intros s Hok o t text c Hin Ht Hu Hst o' e Hin' He.
  - destruct Hin.
  - rewrite run_cons in Hin, Hin'. cbn [snd] in Hin, Hin'.
    pose proof (step_effect op s Hok) as E. cbv zeta in E.
    destruct E as [E1 [_ [_ [E4 [E5 E6]]]]].
    destruct Hin as [<-|Hin]; destruct Hin' as [<-|Hin'].
    + destruct (E6 e He) as [k' [t' [text' [c' [_ [Hu' _]]]]]]. congruence.
    + assert (Hc : processing_complete t = true).
      { pose proof (E4 k t Ht) as Hget.
        destruct (tracker_ok_get _ _ _ E1 Hget) as [[_ [Hl _]] _].
        now apply Hl. }
      pose proof (complete_finished op s k t Hok Ht Hc) as Hfin.
      destruct (finished_quiet_run ops _ k E1 Hfin o' Hin') as [Q _].
      now apply Q.
    + intro Heq.
      destruct (E6 e He) as [k' [t' [text' [c' [Ht' [Hu' [Hk' _]]]]]]].
      rewrite Heq in Hk'. rewrite <- Hk' in Ht'. clear Hk'.
      destruct (E5 k t' text' c' true Ht' Hu') as [_ Hc].
      destruct (Hc eq_refl) as [Hc' _].
      pose proof (complete_finished op s k t' Hok Ht' Hc') as Hfin.
      destruct (finished_quiet_run ops _ k E1 Hfin o Hin) as [_ Q].
      exact (Q t _ Ht Hu).
    + exact (IH _ E1 o t text c Hin Ht Hu Hst o' e Hin' He).
Qed.

(** The calls of the loop body are made only after [update_plate]
    returned [True], which takes a confidence above the threshold; this
    holds on any tracker. *)
Lemma events_need_confidence (inp : Input) (s : VehicleTracker) :
  let o := snd (process_detection L inp s) in
  forall e, In e (out_events o) ->
  exists text c,
    out_update o = Some (text, c, true)
    /\ (Config.OCR_CONFIDENCE_THRESHOLD < c)%Q
    /\ forall c', committed_confidence e = Some c' -> c' = c.
Proof.
  intros o e. subst o.
  pose proof (process_detection_cases L inp s) as C. cbv zeta in C.
  destruct C as [C|[[_ C]|[t1 [_ [C|[text [c [img [_ [_ [_ C]]]]]]]]]]];
    rewrite C; cbn [snd out_events out_update]; try (intros []).
  unfold plate_part. cbn [fst snd].
  destruct (snd (update_plate text c (Some img) t1)) eqn:Hb;
    cbn [fst snd]; [|intros []].
  intro Hin. exists text, c. split; [reflexivity|].
  split; [apply (update_plate_true_iff text c (Some img) t1), Hb|].
  pose proof (commit_facts inp (fst (update_plate text c (Some img) t1))
                           text c (axle_count_of inp)) as F.
  cbv zeta in F. destruct F as [_ F]. apply (F e Hin).
Qed.

(** The frame loop is a run of the detections it handles: all of them,
    or those up to the first whose handling raises. *)
Lemma process_detections_run (inps : list Input) (s : VehicleTracker) :
  exists n,
    (n <= List.length inps)%nat
    /\ process_detections L inps s = run L (map Detect (firstn n inps)) s.
Proof.
  revert s. induction inps as [|inp inps IH]; intro s.
  - exists 0%nat. split; [apply Nat.le_refl|reflexivity].
  - cbn [process_detections].
    destruct (process_detection L inp s) as [s1 o] eqn:Hp.
    destruct (out_raised o).
    + exists 1%nat. split; [cbn [List.length]; lia|].
      cbn [firstn map run step]. rewrite Hp. reflexivity.
    + destruct (IH s1) as [n [Hn Hrun]]. exists (S n).
      split; [cbn [List.length]; lia|].
      cbn [firstn map run step]. rewrite Hp, Hrun. reflexivity.
Qed.

End WithLibs.

End RunFacts.

(** ** Commit policy *)

Module CommitFacts.
Import Py Tracker VideoCamera Statements PyFacts DictFacts TrackFacts.
Import RegistryFacts CameraFacts RunFacts.

(** While a frame is processed, a call that leaves the process is made
    only for a recognition result on which [update_plate] returned [True],
    and the confidence an upsert carries is that result's confidence,
    which is strictly above OCR_CONFIDENCE_THRESHOLD = 40: nothing is
    stored for a result at or below 40. *)
Lemma stored_confidence_above_40 (L : OCREngine.Libs)
    (inps : list Input) (s : VehicleTracker) (o : Outcome) (e : Event) :
  In o (snd (process_detections L inps s)) ->
  In e (out_events o) ->
  exists text c,
    out_update o = Some (text, c, true)
    /\ (Config.OCR_CONFIDENCE_THRESHOLD < c)%Q
    /\ forall c', committed_confidence e = Some c' ->
                  c' = c /\ ~ (c' <= Config.OCR_CONFIDENCE_THRESHOLD)%Q.
Proof.
  revert s. induction inps as [|inp inps IH]; intros s Hin He.
  - destruct Hin.
  - cbn [process_detections] in Hin.
    pose proof (events_need_confidence L inp s) as F. cbv zeta in F.
    destruct (process_detection L inp s) as [s1 o1].
    specialize (IH s1). cbn [snd] in F.
    assert (Hfirst : o1 = o ->
              exists text c,
                out_update o = Some (text, c, true)
                /\ (Config.OCR_CONFIDENCE_THRESHOLD < c)%Q
                /\ forall c', committed_confidence e = Some c' ->
                     c' = c /\ ~ (c' <= Config.OCR_CONFIDENCE_THRESHOLD)%Q).
    { intros <-. destruct (F e He) as [text [c [H1 [H2 H3]]]].
      exists text, c. split; [exact H1|]. split; [exact H2|].
      intros c' Hc'. rewrite (H3 c' Hc'). split; [reflexivity|].
      now apply Qlt_not_le. }
    destruct (out_raised o1).
    + cbn [snd] in Hin. destruct Hin as [Hin|[]]. exact (Hfirst Hin).
    + destruct (process_detections L inps s1) as [s2 os].
      cbn [snd] in *. destruct Hin as [Hin|Hin];
        [exact (Hfirst Hin)|exact (IH Hin He)].
Qed.

Lemma stored_confidence_above_40_witness :
  exists text c,
    out_update (snd (process_detection sure_libs
                       (plate_input 0 plate_a (9 # 10) 2) init))
    = Some (text, c, true)
    /\ (Config.OCR_CONFIDENCE_THRESHOLD < c)%Q
    /\ c = 85%Q.
Proof.
  destruct (stored_confidence_above_40 sure_libs
              [plate_input 0 plate_a (9 # 10) 2] init
              (snd (process_detection sure_libs
                      (plate_input 0 plate_a (9 # 10) 2) init))
              (Upsert 0 (str_of "ABC") 85 (Some (str_of "plate.jpg")) 2))
    as [text [c [H1 [H2 H3]]]].
  - vm_compute. left. reflexivity.
  - vm_compute. right. left. reflexivity.
  - exists text, c. split; [exact H1|]. split; [exact H2|].
    symmetry. exact (proj1 (H3 85%Q eq_refl)).
Defined.

(** C3, the code at the failing input: a new tracker gets one plate
    detection inside the region of interest, read as "XYZ" at confidence
    50, and the image is saved.  [update_plate] returns [True] (50 is
    above the track's 0 and above OCR_CONFIDENCE_THRESHOLD = 40), and
    [add_vehicle_detection] is called with confidence 50, although 50 is
    not above SAVE_THRESHOLD = 75, which is read nowhere.  The await of
    the value it returns then raises, so nothing is broadcast. *)
Theorem upsert_below_save_threshold :
  map out_events
      (snd (process_detections tie_libs
              [plate_input 0 plate_a (9 # 10) 2] init))
  = [[SaveImage (Some []) (str_of "XYZ") 0;
      Upsert 0 (str_of "XYZ") (100 # 2) (Some (str_of "plate.jpg")) 2]]
  /\ map out_update
         (snd (process_detections tie_libs
                 [plate_input 0 plate_a (9 # 10) 2] init))
     = [Some (str_of "XYZ", 100 # 2, true)]
  /\ map out_raised
         (snd (process_detections tie_libs
                 [plate_input 0 plate_a (9 # 10) 2] init))
     = [true]
  /\ (100 # 2 == 50)%Q
  /\ (100 # 2 <= Config.SAVE_THRESHOLD)%Q
  /\ (Config.SAVE_THRESHOLD == 75)%Q.
Proof.
  split; [|split; [|split; [|split; [|split]]]].
  - vm_compute. reflexivity.
  - vm_compute. reflexivity.
  - vm_compute. reflexivity.
  - reflexivity.
  - vm_compute. discriminate.
  - reflexivity.
Qed.

(** C10: [update_plate] returns [True] exactly when the new confidence is
    strictly above both the track's best confidence and
    OCR_CONFIDENCE_THRESHOLD = 40, and the track is then locked; a call
    that locks the track because the attempts are used up returns
    [False]; the loop body stores and broadcasts only when [update_plate]
    returned [True]; so in every run of the camera loop a track that locks
    by exhausting its attempts is never stored or broadcast. *)
Theorem update_plate_result_gates_commit (L : OCREngine.Libs) :
  (forall t text c img,
      snd (update_plate text c img t) = true
      <-> (best_ocr_confidence t < c)%Q
          /\ (Config.OCR_CONFIDENCE_THRESHOLD < c)%Q)
  /\ (forall t text c img,
         snd (update_plate text c img t) = true ->
         state (fst (update_plate text c img t)) = LOCKED)
  /\ (forall t text c img,
         (c <= best_ocr_confidence t)%Q
         \/ (c <= Config.OCR_CONFIDENCE_THRESHOLD)%Q ->
         max_ocr_attempts t <= ocr_attempts t + 1 ->
         state (fst (update_plate text c img t)) = LOCKED
         /\ snd (update_plate text c img t) = false)
  /\ (forall inp s e,
         In e (out_events (snd (process_detection L inp s))) ->
         exists text c,
           out_update (snd (process_detection L inp s))
           = Some (text, c, true))
  /\ (forall ops o i,
         In o (snd (run L ops init)) ->
         locked_by_exhaustion o i ->
         forall o' e,
           In o' (snd (run L ops init)) -> In e (out_events o') ->
           event_track e <> i).
Proof.
  split; [|split; [|split; [|split]]].
  - intros. apply update_plate_true_iff.
  - intros t text c img H.
    apply (update_plate_true_locked text c img t H).
  - intros t text c img Hlow Hatt.
    assert (Hf : snd (update_plate text c img t) = false).
    { destruct (snd (update_plate text c img t)) eqn:Hb; [|reflexivity].
      apply update_plate_true_iff in Hb. destruct Hb as [H1 H2].
      destruct Hlow as [Hlow|Hlow]; exfalso.
      - exact (Qlt_not_le _ _ H1 Hlow).
      - exact (Qlt_not_le _ _ H2 Hlow). }
    split; [|exact Hf].
    destruct (update_plate_false text c img t Hf) as [_ Hst].
    rewrite Hst.
    destruct (Z.geb_spec (ocr_attempts t + 1) (max_ocr_attempts t));
      [reflexivity|lia].
  - intros inp s e He.
    destruct (events_need_confidence L inp s e He) as [text [c [H _]]].
    now exists text, c.
  - intros ops o i Hin [k [t [text [c [Ht [Hid [Hu Hst]]]]]]] o' e Hin' He.
    pose proof (run_out_track_id L ops init (init_ok) o k t Hin Ht) as Hk.
    rewrite Hid in Hk. rewrite <- Hk in Ht.
    exact (exhausted_never_committed L ops init i init_ok
             o t text c Hin Ht Hu Hst o' e Hin' He).
Qed.

Lemma update_plate_result_gates_commit_witness :
  In exhausted_outcome (snd (run unsure_libs exhausting_run init))
  /\ locked_by_exhaustion exhausted_outcome 0
  /\ forall o' e,
       In o' (snd (run unsure_libs exhausting_run init)) ->
       In e (out_events o') -> event_track e <> 0.
Proof.
  assert (H1 : In exhausted_outcome
                  (snd (run unsure_libs exhausting_run init))).
  { right. left. reflexivity. }
  assert (H2 : locked_by_exhaustion exhausted_outcome 0).
  { unfold locked_by_exhaustion.
    eexists. eexists. eexists. eexists.
    split; [reflexivity|]. repeat split; reflexivity. }
  split; [exact H1|]. split; [exact H2|].
  exact (proj2 (proj2 (proj2 (proj2
           (update_plate_result_gates_commit unsure_libs))))
           exhausting_run exhausted_outcome 0 H1 H2).
Defined.

End CommitFacts.

(** ** Locked tracks, matching and the attempt budget *)

Module LifecycleFacts.
Import Py Tracker VideoCamera Statements PyFacts DictFacts TrackFacts.
Import RegistryFacts CameraFacts RunFacts.

Lemma update_plate_frame_path (text : str) (c : Q) (img : option ndarray)
    (t : VehicleTrack) :
  frame_path (fst (update_plate text c img t)) = frame_path t.
Proof. split_update; reflexivity. Qed.

Lemma up_to_frame_path_refl (t : VehicleTrack) : up_to_frame_path t t.
Proof. destruct t. reflexivity. Qed.

(** The loop iteration that hands a recognition result to [update_plate]:
    the track was TRACKING, and the loop leaves it as [update_plate] did,
    except that after a [True] it writes the frame path when the image
    was saved. *)
Lemma recognising_iteration (L : OCREngine.Libs) (inp : Input)
    (s : VehicleTracker) (k : Z) (t' : VehicleTrack) (text : str) (c : Q)
    (b : bool) :
  tracker_ok s ->
  out_track (snd (process_detection L inp s)) = Some (k, t') ->
  out_update (snd (process_detection L inp s)) = Some (text, c, b) ->
  exists t1 img,
    state t1 = TRACKING
    /\ snd (update_plate text c (Some img) t1) = b
    /\ let tl := fst (update_plate text c (Some img) t1) in
       up_to_frame_path tl t'
       /\ (b = false -> t' = tl)
       /\ (b = true ->
           state tl = LOCKED
           /\ frame_path tl = frame_path t1
           /\ frame_path t'
              = if truthy_opt_str (in_saved inp) then in_saved inp
                else frame_path tl).
Proof.
  intros Hok Ht Hu.
  pose proof (matched_effect inp s Hok) as G. cbv zeta in G.
  destruct G as [Gok _].
  pose proof (process_detection_cases L inp s) as C. cbv zeta in C.
  destruct C as [C|[[_ C]|[t1 [Hget [C|[text' [c' [img [Hsp [_ [_ C]]]]]]]]]]];
    rewrite C in Ht, Hu; cbn [snd out_track out_update] in Ht, Hu;
    try discriminate.
  destruct (tracker_ok_get _ _ _ Gok Hget) as [[_ [Hlock _]] _].
  destruct (should_process_true _ _ Hsp) as [Hpc _].
  injection Hu as -> -> Hb. injection Ht as _ Ht.
  exists t1, img.
  split.
  { destruct (state t1); [reflexivity|].
    destruct Hlock as [Hl _]. rewrite (Hl eq_refl) in Hpc. discriminate. }
  revert Ht Hb. unfold plate_part, commit. cbn [fst snd].
  pose proof (update_plate_true_locked text c (Some img) t1) as Hlk.
  pose proof (update_plate_frame_path text c (Some img) t1) as Hfp.
  destruct (update_plate text c (Some img) t1) as [tl b0]. cbn [fst snd] in *.
  destruct b0; cbn [fst snd].
  - destruct (truthy_opt_str (in_saved inp)); cbn [fst snd];
      intros <- <-; (split; [reflexivity|]); cbv zeta;
      (split; [try apply up_to_frame_path_refl; reflexivity|]);
      (split; [discriminate|]); intros _;
      (split; [exact (proj1 (Hlk eq_refl))|]); (split; [exact Hfp|]);
      reflexivity.
  - intros <- <-. split; [reflexivity|]. cbv zeta.
    split; [apply up_to_frame_path_refl|]. split; [reflexivity|discriminate].
Qed.

(** C2 (as amended): for a stored track in state LOCKED, a position
    update and registry matching change at most [last_bbox], [last_seen],
    [detection_confidence] and [max_axle_count] (the last two only
    upwards); [should_process] refuses the track, so the camera loop makes
    no plate update on it; the eviction scan leaves it as it is or removes
    it; hence over any run of the camera loop the track keeps its id,
    plate text, best confidence, attempt count, state, first box, plate
    image and frame path until it is removed.  The frame path is the one
    field the loop writes after the lock: in the iteration in which
    [update_plate] returned [True], the track [update_plate] left is
    already LOCKED with the frame path it had, and the loop then stores it
    with the path of the saved image; after an [update_plate] that
    returned [False] the loop stores the track as [update_plate] left
    it. *)
Theorem locked_track_keeps_recognition_data (L : OCREngine.Libs) :
  (forall s i t,
      reachable L s -> In (i, t) (tracks s) -> state t = LOCKED ->
      (forall now bbox dc ac, frozen t (update_position now bbox dc ac t))
      /\ (forall in_roi, should_process t in_roi = false)
      /\ (forall now did bbox dc ac,
             exists t',
               dict_get i (tracks (fst (get_track now did bbox dc ac s)))
               = Some t'
               /\ frozen t t')
      /\ (forall current_time max_age,
             let s' := cleanup_old_tracks current_time max_age s in
             dict_get i (tracks s') = None
             \/ dict_get i (tracks s') = Some t)
      /\ (forall ops,
             let s' := fst (run L ops s) in
             dict_get i (tracks s') = None
             \/ exists t', dict_get i (tracks s') = Some t' /\ frozen t t'))
  /\ (forall s inp k t' text c b,
         reachable L s ->
         out_track (snd (process_detection L inp s)) = Some (k, t') ->
         out_update (snd (process_detection L inp s)) = Some (text, c, b) ->
         dict_get k (tracks (fst (process_detection L inp s))) = Some t'
         /\ exists t1 img,
              state t1 = TRACKING
              /\ snd (update_plate text c (Some img) t1) = b
              /\ let tl := fst (update_plate text c (Some img) t1) in
                 up_to_frame_path tl t'
                 /\ (b = false -> t' = tl)
                 /\ (b = true ->
                     state tl = LOCKED
                     /\ frame_path tl = frame_path t1
                     /\ frame_path t'
                        = if truthy_opt_str (in_saved inp)
                          then in_saved inp else frame_path tl)).
Proof.
  split.
  - intros s i t Hreach Hin Hst.
    pose proof (reachable_ok L s Hreach) as Hok.
    pose proof Hok as [Hall [Hnd _]].
    destruct (Hall i t Hin) as [[_ [Hlock [_ [_ Hfs]]]] Hb].
    assert (Hc : processing_complete t = true) by now apply Hlock.
    assert (Hget : dict_get i (tracks s) = Some t) by now apply In_dict_get.
    split; [|split; [|split; [|split]]].
    + intros. now apply update_position_frozen.
    + intro. now apply should_process_complete.
    + intros now did bbox dc ac.
      pose proof (matched_effect (input_for now did bbox dc ac) s Hok) as G.
      cbv zeta in G. destruct G as [_ [_ [G _]]].
      exact (G i t Hget).
    + intros ct ma s'. subst s'.
      pose proof (cleanup_effect ct ma s Hok) as E. cbv zeta in E.
      destruct E as [_ [_ E]].
      destruct (dict_get i (tracks (cleanup_old_tracks ct ma s)))
        as [t'|] eqn:Ht'; [|now left].
      right. rewrite (E i t' Ht') in Hget. exact Hget.
    + intros ops s'. subst s'.
      destruct (dict_get i (tracks (fst (run L ops s)))) as [t'|] eqn:Ht';
        [|now left].
      right. exists t'. split; [reflexivity|].
      destruct (run_backward L ops s Hok i t' Ht' ltac:(lia))
        as [t0 [H0 F]].
      assert (t0 = t) by congruence. subst t0. now apply F.
  - intros s inp k t' text c b Hreach Ht Hu.
    pose proof (reachable_ok L s Hreach) as Hok.
    split.
    + pose proof (process_detection_effect L inp s Hok) as E.
      cbv zeta in E. destruct E as [_ [_ [_ [_ [E _]]]]].
      exact (E k t' Ht).
    + exact (recognising_iteration L inp s k t' text c b Hok Ht Hu).
Qed.

Lemma locked_track_keeps_recognition_data_witness :
  reachable sure_libs locked_tracker
  /\ In (0, locked_track) (tracks locked_tracker)
  /\ state locked_track = LOCKED
  /\ should_process locked_track true = false
  /\ frozen locked_track
            (update_position 1 plate_b (95 # 100) 4 locked_track)
  /\ reachable sure_libs init
  /\ dict_get 0 (tracks (fst (process_detection sure_libs
                                (plate_input 0 plate_a (9 # 10) 2) init)))
     = Some locked_track.
Proof.
  assert (H1 : reachable sure_libs locked_tracker).
  { exists [first_detection]. reflexivity. }
  assert (H2 : In (0, locked_track) (tracks locked_tracker)).
  { left. reflexivity. }
  assert (H3 : state locked_track = LOCKED) by reflexivity.
  assert (H4 : reachable sure_libs init).
  { exists []. reflexivity. }
  assert (H5 : out_track (snd (process_detection sure_libs
                                 (plate_input 0 plate_a (9 # 10) 2) init))
               = Some (0, locked_track)) by reflexivity.
  assert (H6 : out_update (snd (process_detection sure_libs
                                  (plate_input 0 plate_a (9 # 10) 2) init))
               = Some (str_of "ABC", 85%Q, true)) by reflexivity.
  pose proof (locked_track_keeps_recognition_data sure_libs) as [A B].
  pose proof (A locked_tracker 0 locked_track H1 H2 H3) as H.
  split; [exact H1|]. split; [exact H2|]. split; [exact H3|].
  split; [exact (proj1 (proj2 H) true)|].
  split; [exact (proj1 H 1%Q plate_b (95 # 100)%Q 4)|].
  split; [exact H4|].
  exact (proj1 (B init (plate_input 0 plate_a (9 # 10) 2) 0 locked_track
                  (str_of "ABC") 85%Q true H4 H5 H6)).
Defined.

(** C2, counterexample: a track that locked on its first detection is
    matched by a second detection, which replaces its last box and raises
    its detection confidence and its axle count.  [update_plate] has no
    lock check either: called on that locked track with a better reading
    it counts the attempt and replaces the plate text and the best
    confidence.  And the frame path is written after the lock: the track
    [update_plate] locked on the first detection has no frame path, the
    track the loop stored has one. *)
Lemma locked_track_fields_change :
  option_map state (dict_get 0 (tracks locked_tracker)) = Some LOCKED
  /\ option_map last_bbox (dict_get 0 (tracks locked_tracker))
     = Some (Some plate_a)
  /\ option_map last_bbox (dict_get 0 (tracks moved_tracker))
     = Some (Some plate_b)
  /\ plate_a <> plate_b
  /\ option_map max_axle_count (dict_get 0 (tracks locked_tracker)) = Some 2
  /\ option_map max_axle_count (dict_get 0 (tracks moved_tracker)) = Some 4
  /\ option_map detection_confidence (dict_get 0 (tracks locked_tracker))
     = Some (9 # 10)
  /\ option_map detection_confidence (dict_get 0 (tracks moved_tracker))
     = Some (95 # 100)
  /\ moved_tracker = fst (step sure_libs second_detection locked_tracker)
  /\ dict_get 0 (tracks locked_tracker) = Some locked_track
  /\ (license_plate locked_track, best_ocr_confidence locked_track,
      ocr_attempts locked_track)
     = (str_of "ABC", 85%Q, 1)
  /\ (let t := fst (update_plate (str_of "XYZ") 90 None locked_track) in
      (license_plate t, best_ocr_confidence t, ocr_attempts t))
     = (str_of "XYZ", 90%Q, 2)
  /\ (let t := fst (update_plate (str_of "ABC") 85 (Some [])
                      (update_position 0 plate_a (9 # 10) 2
                                       (new_track 0 0))) in
      (state t, frame_path t, frame_path locked_track,
       set_frame_path (Some (str_of "plate.jpg")) t))
     = (LOCKED, None, Some (str_of "plate.jpg"), locked_track).
Proof.
  repeat split; try (vm_compute; reflexivity).
  vm_compute. discriminate.
Qed.

Lemma matches_near (bbox : BBox) (t : VehicleTrack) :
  matches (center bbox) t = true <-> near bbox t.
Proof.
  unfold matches, near, within_threshold, Config.POSITION_THRESHOLD.
  destruct (last_bbox t) as [lb|].
  - rewrite Qltb_true. split.
    + intro H. now exists lb.
    + intros [lb' [[= <-] H]]. exact H.
  - split; [discriminate|]. intros [lb [H _]]. discriminate.
Qed.

Lemma no_match_not_near (bbox : BBox) (d : list (Z * VehicleTrack)) :
  (forall k t, In (k, t) d -> ~ near bbox t) -> no_match (center bbox) d.
Proof.
  intro H. apply Forall_forall. intros [k t] Hin. simpl.
  destruct (matches (center bbox) t) eqn:Hm; [|reflexivity].
  exfalso. apply (H k t Hin). now apply matches_near.
Qed.

(** C4 (as amended): when the centre of a detection lies at a Euclidean
    distance strictly below POSITION_THRESHOLD = 100 pixels from the
    centre of the last box of some stored track, [get_track] updates and
    returns the first such track in iteration order; the keys and the
    counter are unchanged, so no track is created.  When no stored track
    is that close (every distance is 100 or more), a track is appended
    under the counter's value, which no stored track has, and the counter
    is incremented.  The counter never decreases and the eviction scan
    does not touch it, so an id that was ever handed out is below every
    id handed out later. *)
Theorem get_track_first_match_or_fresh (L : OCREngine.Libs) :
  (forall s now did bbox dc ac l1 k t l2,
      tracks s = l1 ++ (k, t) :: l2 ->
      (forall k' t', In (k', t') l1 -> ~ near bbox t') ->
      near bbox t ->
      get_track now did bbox dc ac s
      = ({| tracks := l1 ++ (k, update_position now bbox dc ac t) :: l2;
            next_id := next_id s |}, k)
      /\ keys (tracks (fst (get_track now did bbox dc ac s)))
         = keys (tracks s))
  /\ (forall s now did bbox dc ac,
         reachable L s ->
         (forall k t, In (k, t) (tracks s) -> ~ near bbox t) ->
         get_track now did bbox dc ac s
         = ({| tracks :=
                 tracks s
                 ++ [(next_id s,
                      update_position now bbox dc ac
                        (new_track (next_id s) now))];
               next_id := next_id s + 1 |}, next_id s)
         /\ ~ In (next_id s) (keys (tracks s)))
  /\ (forall s ops k,
         reachable L s ->
         In k (keys (tracks s)) ->
         k < next_id s
         /\ next_id s <= next_id (fst (run L ops s)))
  /\ (forall s current_time max_age,
         next_id (cleanup_old_tracks current_time max_age s) = next_id s).
Proof.
  split; [|split; [|split]].
  - intros s now did bbox dc ac l1 k t l2 Hd Hno Hnear.
    unfold get_track. rewrite Hd.
    rewrite (match_loop_first now (center bbox) bbox dc ac l1 k t l2).
    + split; [reflexivity|]. simpl. unfold keys.
      rewrite !map_app. reflexivity.
    + now apply no_match_not_near.
    + now apply matches_near.
  - intros s now did bbox dc ac Hreach Hno.
    pose proof (reachable_ok L s Hreach) as Hok.
    assert (Hfresh : ~ In (next_id s) (keys (tracks s))).
    { intro Hin. pose proof (tracker_ok_keys s _ Hok Hin). lia. }
    split; [|exact Hfresh].
    unfold get_track.
    rewrite (match_loop_none now (center bbox) bbox dc ac (tracks s)
               (no_match_not_near bbox _ Hno)).
    now rewrite dict_set_fresh.
  - intros s ops k Hreach Hin.
    pose proof (reachable_ok L s Hreach) as Hok.
    pose proof (tracker_ok_keys s k Hok Hin).
    destruct (run_ok L ops s Hok) as [_ Hle]. split; [lia|exact Hle].
  - reflexivity.
Qed.

Lemma get_track_first_match_or_fresh_witness :
  tracks locked_tracker = [] ++ (0, locked_track) :: []
  /\ near plate_b locked_track
  /\ snd (get_track 1 0 plate_b (95 # 100) 4 locked_tracker) = 0
  /\ reachable sure_libs locked_tracker
  /\ ~ near plate_far locked_track
  /\ snd (get_track 1 0 plate_far (95 # 100) 4 locked_tracker) = 1.
Proof.
  assert (H1 : tracks locked_tracker = [] ++ (0, locked_track) :: [])
    by reflexivity.
  assert (H2 : near plate_b locked_track).
  { exists plate_a. split; reflexivity. }
  assert (H3 : reachable sure_libs locked_tracker).
  { exists [first_detection]. reflexivity. }
  assert (H4 : ~ near plate_far locked_track).
  { intros [lb [Hlb Hd]]. vm_compute in Hlb.
    injection Hlb as <-. vm_compute in Hd. discriminate. }
  assert (H5 : forall k t, In (k, t) (tracks locked_tracker) ->
                           ~ near plate_far t).
  { intros k t [[= <- <-]|[]]. exact H4. }
  pose proof (get_track_first_match_or_fresh sure_libs) as [A [B _]].
  split; [exact H1|]. split; [exact H2|]. split; [|split; [exact H3|split]].
  - rewrite (proj1 (A locked_tracker 1%Q 0 plate_b (95 # 100)%Q 4
                      [] 0 locked_track [] H1
                      (fun k' t' (F : In (k', t') []) => False_ind _ F) H2)).
    reflexivity.
  - exact H4.
  - rewrite (proj1 (B locked_tracker 1%Q 0 plate_far (95 # 100)%Q 4
                      H3 H5)).
    reflexivity.
Defined.

(** C4, counterexample: the only stored track was last seen at
    (100,100,200,150), centre (150,125); a detection at (200,100,300,150),
    centre (250,125), lies exactly 100 pixels from it, yet [get_track]
    does not return track 0 but creates track 1. *)
Lemma get_track_at_100_pixels_creates :
  option_map last_bbox (dict_get 0 (tracks locked_tracker))
  = Some (Some plate_a)
  /\ keys (tracks locked_tracker) = [0]
  /\ (distance_sq (center plate_at_100) (center plate_a) == 100 * 100)%Q
  /\ snd (get_track 1 0 plate_at_100 (95 # 100) 4 locked_tracker) = 1
  /\ keys (tracks (fst (get_track 1 0 plate_at_100 (95 # 100) 4
                                  locked_tracker)))
     = [0; 1].
Proof.
  repeat split; vm_compute; reflexivity.
Qed.

Lemma update_plate_false_complete (text : str) (c : Q)
    (img : option ndarray) (t : VehicleTrack) :
  snd (update_plate text c img t) = false ->
  processing_complete (fst (update_plate text c img t))
  = (if ocr_attempts t + 1 >=? max_ocr_attempts t
     then true else processing_complete t).
Proof. split_update; intro H; try discriminate; auto. Qed.

Lemma below_threshold_false (text : str) (c : Q) (img : option ndarray)
    (t : VehicleTrack) :
  (c <= Config.OCR_CONFIDENCE_THRESHOLD)%Q ->
  snd (update_plate text c img t) = false.
Proof.
  intro Hc. destruct (snd (update_plate text c img t)) eqn:Hb;
    [|reflexivity].
  apply update_plate_true_iff in Hb. destruct Hb as [_ Hb].
  exfalso. exact (Qlt_not_le _ _ Hb Hc).
Qed.

Lemma update_plate_seq_cons (text : str) (c : Q) (rest : list (str * Q))
    (img : option ndarray) (t : VehicleTrack) :
  update_plate_seq ((text, c) :: rest) img t
  = (fst (update_plate_seq rest img (fst (update_plate text c img t))),
     snd (update_plate text c img t)
     :: snd (update_plate_seq rest img (fst (update_plate text c img t)))).
Proof.
  simpl. destruct (update_plate text c img t) as [t1 b]. simpl.
  destruct (update_plate_seq rest img t1) as [t2 bs]. reflexivity.
Qed.

Lemma update_plate_seq_max (cands : list (str * Q))
    (img : option ndarray) :
  forall t,
    max_ocr_attempts (fst (update_plate_seq cands img t))
    = max_ocr_attempts t.
Proof.
  induction cands as [|[text c] rest IH]; intro t; [reflexivity|].
  rewrite update_plate_seq_cons. cbn [fst]. rewrite IH.
  exact (proj1 (proj2 (update_plate_fixed text c img t))).
Qed.

(** Confidences at or below the threshold, one call per remaining
    attempt: the track stays as it was until the last call, which locks
    it, and it ends with the best pair. *)
Lemma exhaustion_path (cands : list (str * Q)) (img : option ndarray) :
  forall t,
    cands <> [] ->
    ocr_attempts t + len cands = max_ocr_attempts t ->
    Forall (fun c => (snd c <= Config.OCR_CONFIDENCE_THRESHOLD)%Q) cands ->
    let r := update_plate_seq cands img t in
    state (fst r) = LOCKED
    /\ processing_complete (fst r) = true
    /\ Forall (fun b => b = false) (snd r)
    /\ ocr_attempts (fst r) = max_ocr_attempts t
    /\ (license_plate (fst r), best_ocr_confidence (fst r))
       = best_candidate (license_plate t, best_ocr_confidence t) cands
    /\ state (fst (update_plate_seq (removelast cands) img t)) = state t.
Proof.
  induction cands as [|[text c] rest IH]; intros t Hne Hlen Hall;
    [contradiction|].
  inversion Hall as [|? ? Hc Hrest]; subst. simpl in Hc.
  pose proof (below_threshold_false text c img t Hc) as Hf.
  destruct (update_plate_false text c img t Hf) as [Hpair Hst].
  pose proof (update_plate_false_complete text c img t Hf) as Hcomp.
  pose proof (update_plate_fixed text c img t) as Hfix. cbv zeta in Hfix.
  destruct Hfix as [_ [Hmax [Hatt _]]].
  rewrite update_plate_seq_cons. cbv zeta. cbn [fst snd].
  unfold len in Hlen. cbn [List.length] in Hlen.
  destruct rest as [|cand rest'].
  - simpl. simpl in Hlen.
    assert (Hge : (ocr_attempts t + 1 >=? max_ocr_attempts t) = true).
    { destruct (Z.geb_spec (ocr_attempts t + 1) (max_ocr_attempts t));
        [reflexivity|lia]. }
    rewrite Hge in Hst, Hcomp.
    split; [exact Hst|]. split; [exact Hcomp|].
    split; [constructor; [exact Hf|constructor]|].
    split; [lia|]. split; [exact Hpair|reflexivity].
  - set (t1 := fst (update_plate text c img t)) in *.
    cbn [List.length] in Hlen.
    assert (Hlt : (ocr_attempts t + 1 >=? max_ocr_attempts t) = false).
    { destruct (Z.geb_spec (ocr_attempts t + 1) (max_ocr_attempts t));
        [|reflexivity].
      lia. }
    rewrite Hlt in Hst.
    destruct (IH t1) as [I1 [I2 [I3 [I4 [I5 I6]]]]].
    + discriminate.
    + rewrite Hatt, Hmax. unfold len. cbn [List.length]. lia.
    + exact Hrest.
    + split; [exact I1|]. split; [exact I2|].
      split; [constructor; [exact Hf|exact I3]|].
      split; [congruence|]. split.
      * rewrite I5, Hpair. unfold best_candidate. simpl.
        destruct (Qgtb c (best_ocr_confidence t)); reflexivity.
      * change (removelast ((text, c) :: cand :: rest'))
          with ((text, c) :: removelast (cand :: rest')).
        rewrite update_plate_seq_cons. cbn [fst]. fold t1.
        rewrite I6. exact Hst.
Qed.

(** The pair [best_candidate] returns has the highest confidence, and it
    is the held pair or one of the candidates. *)
Lemma best_candidate_best (cands : list (str * Q)) :
  forall held,
    let b := best_candidate held cands in
    (snd held <= snd b)%Q
    /\ Forall (fun c => (snd c <= snd b)%Q) cands
    /\ (b = held \/ In b cands).
Proof.
  unfold best_candidate.
  induction cands as [|c rest IH]; intro held; simpl.
  - split; [apply Qle_refl|]. split; [constructor|now left].
  - set (held' := if Qgtb (snd c) (snd held) then c else held).
    destruct (IH held') as [I1 [I2 I3]].
    assert (Hh : (snd held <= snd held')%Q /\ (snd c <= snd held')%Q
                 /\ (held' = held \/ held' = c)).
    { subst held'. destruct (Qgtb (snd c) (snd held)) eqn:E.
      - apply Qgtb_true in E. split; [now apply Qlt_le_weak|].
        split; [apply Qle_refl|now right].
      - apply Qgtb_false in E. split; [apply Qle_refl|].
        split; [exact E|now left]. }
    destruct Hh as [H1 [H2 H3]].
    split; [eapply Qle_trans; eassumption|].
    split; [constructor; [eapply Qle_trans; eassumption|exact I2]|].
    destruct I3 as [I3|I3]; [|right; now right].
    rewrite I3. destruct H3 as [-> | ->]; [now left|right; now left].
Qed.

(** The pair held at the start stays when no candidate beats its
    confidence. *)
Lemma best_candidate_held (cands : list (str * Q)) (held : str * Q) :
  Forall (fun c => (snd c <= snd held)%Q) cands ->
  best_candidate held cands = held.
Proof.
  unfold best_candidate. induction cands as [|c rest IH]; intro H;
    [reflexivity|].
  inversion H as [|? ? Hc Hrest]; subst. simpl.
  apply Qgtb_false in Hc. rewrite Hc. now apply IH.
Qed.

(** C6 (as amended): every track of a tracker the camera loop can reach
    has [ocr_attempts] at most [max_ocr_attempts]; and calling
    [update_plate] [max_ocr_attempts] times on a track in state TRACKING
    with no attempt made, every confidence being at or below the lock
    threshold, never returns [True], leaves the track TRACKING until the
    last call and LOCKED after it, with the best (text, confidence) pair
    among the one it held and the candidates seen: one of the candidates
    as soon as one of them beats the confidence held at the start, the
    pair held at the start when none does. *)
Theorem attempts_bounded_and_exhaustion_locks (L : OCREngine.Libs) :
  (forall s k t,
      reachable L s -> In (k, t) (tracks s) ->
      0 <= ocr_attempts t <= max_ocr_attempts t)
  /\ (forall t cands img,
         state t = TRACKING ->
         ocr_attempts t = 0 ->
         max_ocr_attempts t = len cands ->
         cands <> [] ->
         Forall (fun c => (snd c <= Config.OCR_CONFIDENCE_THRESHOLD)%Q)
                cands ->
         let r := update_plate_seq cands img t in
         let b := best_candidate (license_plate t, best_ocr_confidence t)
                                 cands in
         state (fst r) = LOCKED
         /\ Forall (fun b => b = false) (snd r)
         /\ state (fst (update_plate_seq (removelast cands) img t))
            = TRACKING
         /\ ocr_attempts (fst r) = max_ocr_attempts (fst r)
         /\ (license_plate (fst r), best_ocr_confidence (fst r)) = b
         /\ (best_ocr_confidence t <= snd b)%Q
         /\ Forall (fun c => (snd c <= snd b)%Q) cands
         /\ (b = (license_plate t, best_ocr_confidence t) \/ In b cands)
         /\ (Exists (fun c => (best_ocr_confidence t < snd c)%Q) cands ->
             In b cands)
         /\ (Forall (fun c => (snd c <= best_ocr_confidence t)%Q) cands ->
             b = (license_plate t, best_ocr_confidence t))).
Proof.
  split.
  - intros s k t Hreach Hin.
    destruct (reachable_ok L s Hreach) as [Hall _].
    destruct (Hall k t Hin) as [[_ [_ [Hatt _]]] _]. exact Hatt.
  - intros t cands img Hst Hatt Hmax Hne Hall r b. subst r b.
    destruct (exhaustion_path cands img t Hne ltac:(lia) Hall)
      as [E1 [_ [E3 [E4 [E5 E6]]]]].
    destruct (best_candidate_best cands
                (license_plate t, best_ocr_confidence t)) as [B1 [B2 B3]].
    split; [exact E1|]. split; [exact E3|].
    split; [now rewrite E6|]. split; [|split; [exact E5|]].
    + rewrite E4. symmetry. apply update_plate_seq_max.
    + split; [exact B1|]. split; [exact B2|]. split; [exact B3|].
      split;
        [|exact (best_candidate_held cands
                   (license_plate t, best_ocr_confidence t))].
      intro Hex. destruct B3 as [B3|B3]; [|exact B3].
      exfalso. apply Exists_exists in Hex. destruct Hex as [c [Hin Hlt]].
      rewrite Forall_forall in B2. specialize (B2 c Hin).
      rewrite B3 in B2. simpl in B2. exact (Qlt_not_le _ _ Hlt B2).
Qed.

(** C6, counterexample: a new track is allowed two attempts; two readings
    at confidence 0, which is below the lock threshold, lock it on the
    second call, and the pair it then holds is the placeholder it was
    created with, which is none of the candidates seen. *)
Lemma exhaustion_keeps_placeholder :
  max_ocr_attempts (new_track 0 0) = len zero_readings
  /\ Forall (fun c => (snd c <= Config.OCR_CONFIDENCE_THRESHOLD)%Q)
            zero_readings
  /\ state (fst (update_plate_seq zero_readings None (new_track 0 0)))
     = LOCKED
  /\ (license_plate
        (fst (update_plate_seq zero_readings None (new_track 0 0))),
      best_ocr_confidence
        (fst (update_plate_seq zero_readings None (new_track 0 0))))
     = (str_of "SCANNING...", 0%Q)
  /\ ~ In (str_of "SCANNING...", 0%Q) zero_readings.
Proof.
  split; [reflexivity|]. split; [|split; [reflexivity|split]].
  - repeat constructor; simpl; unfold Qle; simpl; lia.
  - reflexivity.
  - intros [H|[H|[]]]; discriminate.
Qed.

Lemma attempts_bounded_and_exhaustion_locks_witness :
  state three_attempt_track = TRACKING
  /\ max_ocr_attempts three_attempt_track = len weak_readings
  /\ Forall (fun c => (snd c <= Config.OCR_CONFIDENCE_THRESHOLD)%Q)
            weak_readings
  /\ state (fst (update_plate_seq weak_readings None three_attempt_track))
     = LOCKED
  /\ (license_plate
        (fst (update_plate_seq weak_readings None three_attempt_track)),
      best_ocr_confidence
        (fst (update_plate_seq weak_readings None three_attempt_track)))
     = best_candidate (license_plate three_attempt_track,
                       best_ocr_confidence three_attempt_track)
                      weak_readings
  /\ best_candidate (license_plate three_attempt_track,
                     best_ocr_confidence three_attempt_track)
                    weak_readings
     = (str_of "ABC", 35%Q).
Proof.
  assert (H1 : state three_attempt_track = TRACKING) by reflexivity.
  assert (H2 : ocr_attempts three_attempt_track = 0) by reflexivity.
  assert (H3 : max_ocr_attempts three_attempt_track = len weak_readings)
    by reflexivity.
  assert (H4 : weak_readings <> []) by discriminate.
  assert (H5 : Forall (fun c => (snd c <= Config.OCR_CONFIDENCE_THRESHOLD)%Q)
                      weak_readings).
  { repeat constructor; simpl; unfold Qle; simpl; lia. }
  pose proof (proj2 (attempts_bounded_and_exhaustion_locks sure_libs)
                three_attempt_track weak_readings None H1 H2 H3 H4 H5) as H.
  cbv zeta in H. destruct H as [A [_ [_ [_ [B _]]]]].
  split; [exact H1|]. split; [exact H3|]. split; [exact H5|].
  split; [exact A|]. split; [exact B|]. reflexivity.
Defined.

End LifecycleFacts.

(** * Further properties of the code *)

(** ** Normalised text is plate text *)

Module TextFacts.
Import Py OCREngine Statements MoreStatements PyFacts OCRFacts.

Lemma ascii_block_plate : forallb normal_char_plate ascii_block = true.
Proof. vm_compute. reflexivity. Qed.

(** [_clean_text] on ASCII input returns only upper-case letters and the
    digits 2, 3, 4, 6, 7 and 9 (so no 0, 1, 5 or 8, no lower-case letter,
    no separator), and never more characters than it was given. *)
Theorem clean_text_plate_alphabet (s : str) :
  ascii_str s ->
  Forall (fun c => is_plate_char c = true) (_clean_text s)
  /\ (List.length (_clean_text s) <= List.length s)%nat.
Proof.
  intro Hs. rewrite (clean_text_ascii s Hs). split.
  - apply Forall_forall. intros d Hd. apply in_map_iff in Hd.
    destruct Hd as [c [<- Hc]]. apply filter_In in Hc.
    destruct Hc as [Hin Hal].
    unfold ascii_str in Hs. rewrite Forall_forall in Hs.
    pose proof (proj1 (forallb_forall _ _) ascii_block_plate c
                      (in_ascii_block c (Hs c Hin))) as Hok.
    unfold normal_char_plate in Hok. rewrite Hal in Hok. exact Hok.
  - rewrite length_map. apply filter_length_le.
Qed.

Lemma clean_text_plate_alphabet_witness :
  ascii_str (str_of "ka-05 bx 1189")
  /\ _clean_text (str_of "ka-05 bx 1189") = str_of "KAOSBXIIB9"
  /\ Forall (fun c => is_plate_char c = true)
            (_clean_text (str_of "ka-05 bx 1189")).
Proof.
  assert (H : ascii_str (str_of "ka-05 bx 1189")).
  { unfold ascii_str. repeat constructor. }
  split; [exact H|]. split; [reflexivity|].
  exact (proj1 (clean_text_plate_alphabet _ H)).
Defined.

End TextFacts.

(** ** The ROI gate, on integers *)

Module GateFacts.
Import Py ROIManager Statements MoreStatements PyFacts ROIFacts.

(** A detection passes the ROI gate exactly when its box overlaps the
    ROI and the intersection covers more than a fifth of the box; with no
    ROI configured nothing passes. *)
Theorem in_roi_exact (roi bbox : BBox) :
  (in_roi (Some roi) bbox = true
   <-> overlap roi bbox
       /\ rect_area bbox < 5 * intersection_area roi bbox)
  /\ in_roi None bbox = false.
Proof.
  split; [|reflexivity].
  unfold in_roi. rewrite calculate_intersection_unfold. cbv zeta.
  unfold overlap, intersection_area.
  set (x1 := Z.max (bx1 roi) (bx1 bbox)).
  set (y1 := Z.max (by1 roi) (by1 bbox)).
  set (x2 := Z.min (bx2 roi) (bx2 bbox)).
  set (y2 := Z.min (by2 roi) (by2 bbox)).
  destruct (x1 <? x2) eqn:Ex; destruct (y1 <? y2) eqn:Ey; cbn [andb];
    try apply Z.ltb_lt in Ex; try apply Z.ltb_lt in Ey;
    try apply Z.ltb_ge in Ex; try apply Z.ltb_ge in Ey;
    try (split; [discriminate | intros [[? ?] _]; lia]).
  assert (Harea : 0 < rect_area bbox).
  { unfold rect_area. subst x1 x2 y1 y2. nia. }
  destruct (Z.eqb_spec (rect_area bbox) 0) as [E0|_]; [lia|].
  rewrite !Z.max_r by lia.
  set (ia := (x2 - x1) * (y2 - y1)).
  assert (Hpos : (0 < float (rect_area bbox))%Q).
  { unfold float. change 0%Q with (inject_Z 0). now rewrite <- Zlt_Qlt. }
  rewrite Qgtb_true. unfold Config.ROI_INTERSECTION_THRESHOLD. split.
  - intro H. split; [split; assumption|].
    destruct (Z_lt_le_dec (rect_area bbox) (5 * ia)) as [Hlt|Hge];
      [exact Hlt|].
    exfalso. apply (Qlt_not_le _ _ H).
    apply Qle_shift_div_r; [exact Hpos|].
    unfold float, Qle, Qmult, inject_Z; cbn [Qnum Qden Pos.mul]. lia.
  - intros [_ H]. apply Qlt_shift_div_l; [exact Hpos|].
    unfold float, Qlt, Qmult, inject_Z; cbn [Qnum Qden Pos.mul]. lia.
Qed.

(** A box with positive area that lies inside the ROI has ratio 1 and
    passes the gate. *)
Theorem box_inside_roi_passes (roi bbox : BBox) :
  bx1 bbox < bx2 bbox -> by1 bbox < by2 bbox -> inside bbox roi ->
  (calculate_intersection (Some roi) bbox == 1)%Q
  /\ in_roi (Some roi) bbox = true.
Proof.
  intros Hx Hy [I1 [I2 [I3 I4]]].
  assert (Harea : 0 < rect_area bbox) by (unfold rect_area; nia).
  split.
  - rewrite calculate_intersection_unfold. cbv zeta.
    rewrite (Z.max_r (bx1 roi)), (Z.max_r (by1 roi)) by lia.
    rewrite (Z.min_r (bx2 roi)), (Z.min_r (by2 roi)) by lia.
    destruct (Z.ltb_spec (bx1 bbox) (bx2 bbox)); [|lia].
    destruct (Z.ltb_spec (by1 bbox) (by2 bbox)); [|lia].
    cbn [andb]. destruct (Z.eqb_spec (rect_area bbox) 0); [lia|].
    fold (rect_area bbox). unfold float.
    unfold Qdiv. apply Qmult_inv_r.
    intro Hz. unfold Qeq, inject_Z in Hz. cbn [Qnum Qden] in Hz. lia.
  - apply (proj1 (in_roi_exact roi bbox)).
    unfold overlap, intersection_area.
    rewrite (Z.max_r (bx1 roi)), (Z.max_r (by1 roi)) by lia.
    rewrite (Z.min_r (bx2 roi)), (Z.min_r (by2 roi)) by lia.
    split; [lia|]. rewrite !Z.max_r by lia. fold (rect_area bbox). lia.
Qed.

End GateFacts.

Module GateWitness.
Import Py ROIManager Statements MoreStatements GateFacts.

Lemma box_inside_roi_passes_witness :
  bx1 small_plate < bx2 small_plate
  /\ by1 small_plate < by2 small_plate
  /\ inside small_plate example_roi
  /\ in_roi (Some example_roi) small_plate = true.
Proof.
  assert (Hx : bx1 small_plate < bx2 small_plate) by (simpl; lia).
  assert (Hy : by1 small_plate < by2 small_plate) by (simpl; lia).
  assert (Hi : inside small_plate example_roi)
    by (unfold inside; simpl; lia).
  split; [exact Hx|]. split; [exact Hy|]. split; [exact Hi|].
  exact (proj2 (box_inside_roi_passes example_roi small_plate Hx Hy Hi)).
Defined.

End GateWitness.

(** ** The axle estimate and the wheels it is given *)

Module AxleFacts.
Import Py VehicleDetector Statements MoreStatements PyFacts.

Lemma add_to_group_length (wc : Point) (m : Q) (gs gs' : list (list Point)) :
  add_to_group wc m gs = Some gs' -> List.length gs' = List.length gs.
Proof.
  revert gs'. induction gs as [|g gs IH]; intros gs'; simpl; [discriminate|].
  destruct (Qltb _ m).
  - intros [= <-]. reflexivity.
  - destruct (add_to_group wc m gs) as [r|]; simpl; [|discriminate].
    intros [= <-]. simpl. now rewrite (IH r eq_refl).
Qed.

(** Every wheel adds at most one group. *)
Lemma wheels_loop_length (py : Z) (vl vr m : Q) (wheels : list Wheel) :
  forall gs gs',
    wheels_loop py vl vr m wheels gs = Some gs' ->
    (List.length gs' <= List.length gs + List.length wheels)%nat.
Proof.
  induction wheels as [|w wheels IH]; intros gs gs'; simpl.
  - intros [= <-]. lia.
  - destruct (wheel_bbox w) as [wb|]; [|discriminate].
    destruct (_ && _ && _).
    + destruct (add_to_group _ m gs) as [r|] eqn:Ea; intro H.
      * apply IH in H. rewrite (add_to_group_length _ _ _ _ Ea) in H. lia.
      * apply IH in H. rewrite length_app in H. simpl in H. lia.
    + intro H. apply IH in H. lia.
Qed.

(** A wheel dict without a box makes the loop raise. *)
Lemma wheels_loop_boxless (py : Z) (vl vr m : Q) (wheels : list Wheel)
    (w : Wheel) :
  In w wheels -> wheel_bbox w = None ->
  forall gs, wheels_loop py vl vr m wheels gs = None.
Proof.
  intros Hin Hw. induction wheels as [|w' wheels IH]; [destruct Hin|].
  intro gs. simpl. destruct Hin as [->|Hin].
  - now rewrite Hw.
  - destruct (wheel_bbox w'); [|reflexivity].
    destruct (_ && _ && _); [destruct (add_to_group _ m gs)|]; now apply IH.
Qed.

(** [assign_wheels_to_vehicle] never reports more axles than it was given
    wheel detections, except that it reports at least 2: with at most two
    wheels the answer is 2. *)
Theorem axles_at_most_wheels (plate_bbox : BBox) (wheels : list Wheel) :
  assign_wheels_to_vehicle plate_bbox wheels <= Z.max 2 (len wheels).
Proof.
  unfold assign_wheels_to_vehicle.
  destruct (wheels_loop _ _ _ _ wheels []) as [gs|] eqn:E; [|lia].
  apply wheels_loop_length in E. simpl in E.
  rewrite minZ_spec, maxZ_spec. unfold len.
  pose proof (filter_length_le (fun g : list Point => len g >=? 1) gs).
  unfold len in *. lia.
Qed.

(** A wheel detection without a ['bbox'] entry anywhere in the list makes
    the estimate fall back to 2, whatever the other wheels are. *)
Theorem boxless_wheel_defaults (plate_bbox : BBox) (wheels : list Wheel)
    (w : Wheel) :
  In w wheels -> wheel_bbox w = None ->
  assign_wheels_to_vehicle plate_bbox wheels = 2.
Proof.
  intros Hin Hw. unfold assign_wheels_to_vehicle.
  now rewrite (wheels_loop_boxless _ _ _ _ wheels w Hin Hw).
Qed.

Lemma boxless_wheel_defaults_witness :
  In boxless_wheel (example_wheels ++ [wheel_at 150 400; boxless_wheel])
  /\ wheel_bbox boxless_wheel = None
  /\ assign_wheels_to_vehicle example_plate
       (example_wheels ++ [wheel_at 150 400; boxless_wheel]) = 2.
Proof.
  assert (H1 : In boxless_wheel
                  (example_wheels ++ [wheel_at 150 400; boxless_wheel])).
  { apply in_or_app. right. right. left. reflexivity. }
  split; [exact H1|]. split; [reflexivity|].
  exact (boxless_wheel_defaults example_plate _ boxless_wheel H1 eq_refl).
Defined.

End AxleFacts.

(** ** Matching again, and what the eviction scan keeps *)

Module MatchFacts.
Import Py Tracker VideoCamera Statements MoreStatements PyFacts DictFacts.
Import RegistryFacts RunFacts.

Lemma distance_sq_self (c : Q * Q) : (distance_sq c c == 0)%Q.
Proof. unfold distance_sq. ring. Qed.

Lemma within_self (c : Q * Q) : within_threshold c c = true.
Proof.
  unfold within_threshold. apply Qltb_true.
  rewrite distance_sq_self. reflexivity.
Qed.

Lemma matches_after_update (now : Q) (bbox : BBox) (dc : Q) (ac : Z)
    (t : VehicleTrack) :
  matches (center bbox) (update_position now bbox dc ac t) = true.
Proof. unfold matches. simpl. apply within_self. Qed.

Lemma keys_replace (l1 l2 : list (Z * VehicleTrack)) (k : Z)
    (t t' : VehicleTrack) :
  keys (l1 ++ (k, t') :: l2) = keys (l1 ++ (k, t) :: l2).
Proof. unfold keys. now rewrite !map_app. Qed.

(** A detection at the box a track was just matched or created with is
    matched to that same track: detecting the same box twice in a row
    never creates a second track. *)
Theorem redetection_returns_same_track (L : OCREngine.Libs)
    (s : VehicleTracker) (now now' : Q) (did did' : Z) (bbox : BBox)
    (dc dc' : Q) (ac ac' : Z) :
  reachable L s ->
  let r1 := get_track now did bbox dc ac s in
  let r2 := get_track now' did' bbox dc' ac' (fst r1) in
  snd r2 = snd r1
  /\ keys (tracks (fst r2)) = keys (tracks (fst r1))
  /\ next_id (fst r2) = next_id (fst r1).
Proof.
  intros Hreach. pose proof (reachable_ok L s Hreach) as Hok.
  destruct s as [d n]. cbv zeta.
  destruct (first_match_or_none (center bbox) d)
    as [Hno|[l1 [k [t [l2 [Hd [Hno Hm]]]]]]].
  - assert (Hfresh : ~ In n (keys d)).
    { intro Hin. pose proof (tracker_ok_keys _ _ Hok Hin) as Hb.
      simpl in Hb. lia. }
    assert (E1 : get_track now did bbox dc ac {| tracks := d; next_id := n |}
                 = ({| tracks :=
                         d ++ [(n, update_position now bbox dc ac
                                     (new_track n now))];
                       next_id := n + 1 |}, n)).
    { unfold get_track. cbn [tracks next_id].
      rewrite (match_loop_none now (center bbox) bbox dc ac d Hno).
      now rewrite (dict_set_fresh n _ d Hfresh). }
    rewrite E1. cbn [fst snd]. unfold get_track. cbn [tracks next_id].
    rewrite (match_loop_first now' (center bbox) bbox dc' ac' d n _ []
               Hno (matches_after_update now bbox dc ac _)).
    cbn [fst snd tracks next_id]. split; [reflexivity|].
    split; [apply keys_replace|reflexivity].
  - subst d.
    assert (E1 : get_track now did bbox dc ac
                   {| tracks := l1 ++ (k, t) :: l2; next_id := n |}
                 = ({| tracks :=
                         l1 ++ (k, update_position now bbox dc ac t) :: l2;
                       next_id := n |}, k)).
    { unfold get_track. cbn [tracks next_id].
      now rewrite (match_loop_first now (center bbox) bbox dc ac
                     l1 k t l2 Hno Hm). }
    rewrite E1. cbn [fst snd]. unfold get_track. cbn [tracks next_id].
    rewrite (match_loop_first now' (center bbox) bbox dc' ac' l1 k _ l2
               Hno (matches_after_update now bbox dc ac t)).
    cbn [fst snd tracks next_id]. split; [reflexivity|].
    split; [apply keys_replace|reflexivity].
Qed.

Lemma redetection_returns_same_track_witness :
  reachable sure_libs locked_tracker
  /\ snd (get_track 1 0 plate_far (8 # 10) 2 locked_tracker) = 1
  /\ snd (get_track 2 0 plate_far (9 # 10) 3
                    (fst (get_track 1 0 plate_far (8 # 10) 2
                                    locked_tracker))) = 1.
Proof.
  assert (H : reachable sure_libs locked_tracker).
  { exists [first_detection]. reflexivity. }
  split; [exact H|]. split; [reflexivity|].
  rewrite (proj1 (redetection_returns_same_track sure_libs locked_tracker
                    1 2 0 0 plate_far (8 # 10) (9 # 10) 2 3 H)).
  reflexivity.
Defined.

Lemma filter_filter {A} (f g : A -> bool) (l : list A) :
  filter f (filter g l) = filter (fun x => g x && f x) l.
Proof.
  induction l as [|x l IH]; simpl; [reflexivity|].
  destruct (g x); simpl; [destruct (f x)|]; now rewrite IH.
Qed.

Lemma fold_dict_del_filter (ks : list Z) (d : list (Z * VehicleTrack)) :
  fold_left (fun d k => dict_del k d) ks d
  = filter (fun kv => negb (existsb (Z.eqb (fst kv)) ks)) d.
Proof.
  revert d. induction ks as [|k ks IH]; intro d; simpl.
  - induction d as [|kv d IHd]; simpl; [reflexivity|now rewrite <- IHd].
  - rewrite IH. unfold dict_del. rewrite filter_filter.
    apply filter_ext. intros kv. now rewrite negb_orb.
Qed.

(** The eviction scan removes the tracks its condition selects and keeps
    the others in their order. *)
Lemma cleanup_filter (current_time max_age : Q) (s : VehicleTracker) :
  NoDup (keys (tracks s)) ->
  tracks (cleanup_old_tracks current_time max_age s)
  = filter (fun kv => negb (stale current_time max_age (snd kv)))
           (tracks s).
Proof.
  intro Hnd.
  unfold cleanup_old_tracks. cbn [tracks].
  rewrite fold_dict_del_filter. apply filter_ext_in.
  intros [k t] Hin. cbn [fst snd]. f_equal.
  destruct (stale current_time max_age t) eqn:Hst.
  - apply existsb_exists. exists k. split; [|apply Z.eqb_refl].
    apply in_map_iff. exists (k, t). split; [reflexivity|].
    apply filter_In. now split.
  - destruct (existsb _ _) eqn:Hex; [|reflexivity].
    apply existsb_exists in Hex. destruct Hex as [k' [Hk' Heq]].
    apply Z.eqb_eq in Heq. subst k'.
    apply in_map_iff in Hk'. destruct Hk' as [[k' t'] [Hfst Hin']].
    simpl in Hfst. subst k'. apply filter_In in Hin'.
    destruct Hin' as [Hin' Hst']. simpl in Hst'.
    assert (t' = t).
    { pose proof (In_dict_get k t' _ Hnd Hin') as G1.
      pose proof (In_dict_get k t _ Hnd Hin) as G2. congruence. }
    congruence.
Qed.

Lemma stale_false (current_time max_age : Q) (t : VehicleTrack) :
  stale current_time max_age t = false
  <-> kept_by_policy current_time max_age t.
Proof.
  unfold stale, kept_by_policy. rewrite orb_false_iff, andb_false_iff.
  rewrite !Qgtb_false. split.
  - intros [H1 [H2|H2]]; (split; [exact H1|]); [congruence|auto].
  - intros [H1 H2]. split; [exact H1|].
    destruct (processing_complete t); [right; now apply H2|now left].
Qed.

(** On a tracker whose keys are distinct, the eviction scan keeps a track
    if and only if it was last seen at most [max_age] seconds ago and, if
    its processing is complete, at most one second ago; the tracks kept
    stay in their order, their keys stay distinct, and the counter is
    left alone. *)
Theorem cleanup_keeps_fresh_tracks (current_time max_age : Q)
    (s : VehicleTracker) :
  NoDup (keys (tracks s)) ->
  let s' := cleanup_old_tracks current_time max_age s in
  (forall k t,
      In (k, t) (tracks s')
      <-> In (k, t) (tracks s)
          /\ (current_time - last_seen t <= max_age)%Q
          /\ (processing_complete t = true ->
              (current_time - last_seen t <= 1)%Q))
  /\ (exists keep, tracks s' = filter keep (tracks s))
  /\ NoDup (keys (tracks s'))
  /\ next_id s' = next_id s.
Proof.
  intros Hnd s'. subst s'.
  split; [|split; [|split; [|reflexivity]]].
  - intros k t. rewrite (cleanup_filter _ _ _ Hnd), filter_In.
    cbn [snd]. rewrite negb_true_iff, stale_false. reflexivity.
  - eexists. exact (cleanup_filter _ _ _ Hnd).
  - unfold cleanup_old_tracks. cbn [tracks].
    now apply fold_dict_del_NoDup.
Qed.

Lemma cleanup_keeps_fresh_tracks_witness :
  NoDup (keys (tracks moved_tracker))
  /\ (In (0, moved_track) (tracks (cleanup_old_tracks 1 3 moved_tracker))
      <-> In (0, moved_track) (tracks moved_tracker)
          /\ (1 - last_seen moved_track <= 3)%Q
          /\ (processing_complete moved_track = true ->
              (1 - last_seen moved_track <= 1)%Q))
  /\ tracks (cleanup_old_tracks 1 3 moved_tracker) = [(0, moved_track)]
  /\ tracks (cleanup_old_tracks 2 3 moved_tracker) = [].
Proof.
  assert (H : NoDup (keys (tracks moved_tracker))).
  { vm_compute. repeat constructor. intros []. }
  split; [exact H|].
  split; [exact (proj1 (cleanup_keeps_fresh_tracks 1 3 moved_tracker H)
                   0 moved_track)|].
  split; vm_compute; reflexivity.
Defined.

End MatchFacts.

(** ** The loop body, step by step *)

Module StepFacts.
Import Py Tracker VideoCamera Statements MoreStatements PyFacts DictFacts.
Import TrackFacts RegistryFacts CameraFacts RunFacts.

Lemma dict_set_twice (k : Z) (u v : VehicleTrack)
    (d : list (Z * VehicleTrack)) :
  dict_set k v (dict_set k u d) = dict_set k v d.
Proof.
  induction d as [|[k' v'] d IH]; simpl.
  - now rewrite Z.eqb_refl.
  - destruct (Z.eqb_spec k' k) as [->|Hne]; simpl.
    + now rewrite Z.eqb_refl.
    + destruct (Z.eqb_spec k' k); [contradiction|]. now rewrite IH.
Qed.

Section WithLibs.
Variable L : OCREngine.Libs.

(** Everything the loop body does to a well-formed tracker: nothing, for
    a wheel; otherwise one track [t0], stored or new, gets the position
    update and then, if it passes [should_process], a crop exists and the
    recognition result is usable, the plate update. *)
Lemma process_detection_shape (inp : Input) (s : VehicleTracker) :
  tracker_ok s ->
  let r := process_detection L inp s in
  r = (s, no_outcome)
  \/ exists k t0 t2,
       tracks (fst r) = dict_set k t2 (tracks s)
       /\ out_track (snd r) = Some (k, t2)
       /\ ((dict_get k (tracks s) = Some t0
            /\ next_id (fst r) = next_id s)
           \/ (dict_get k (tracks s) = None /\ k = next_id s
               /\ next_id (fst r) = next_id s + 1
               /\ t0 = new_track k (in_now inp)))
       /\ ((t2 = moved inp t0
            /\ out_update (snd r) = None /\ out_events (snd r) = [])
           \/ exists text c img,
                should_process (moved inp t0)
                  (ROIManager.in_roi (in_roi inp)
                                     (det_bbox (in_detection inp))) = true
                /\ in_plate_img inp = Some img
                /\ OCREngine.process_plate L (Some img)
                     (track_id (moved inp t0)) = (text, c)
                /\ truthy_str text = true /\ (0 < c)%Q
                /\ t2 = fst (fst (plate_part inp text c img (moved inp t0)))
                /\ out_update (snd r)
                   = Some (text, c,
                           snd (fst (plate_part inp text c img
                                                (moved inp t0))))
                /\ out_events (snd r)
                   = snd (plate_part inp text c img (moved inp t0))).
Proof.
  intros Hok r. subst r.
  unfold process_detection.
  destruct (det_class (in_detection inp)); [|now left].
  right.
  pose proof (get_track_cases (in_now inp) (det_track_id (in_detection inp))
                (det_bbox (in_detection inp))
                (det_confidence (in_detection inp)) (axle_count_of inp)
                s Hok) as G.
  cbv zeta in G. fold (axle_count_of inp).
  destruct (get_track _ _ _ _ _ s) as [tracker k]. cbn [fst snd] in G.
  assert (Origin : exists t0,
             tracks tracker = dict_set k (moved inp t0) (tracks s)
             /\ ((dict_get k (tracks s) = Some t0
                  /\ next_id tracker = next_id s)
                 \/ (dict_get k (tracks s) = None /\ k = next_id s
                     /\ next_id tracker = next_id s + 1
                     /\ t0 = new_track k (in_now inp)))).
  { destruct G as [[t0 [Hget [_ ->]]]|[Hk [Hnone [_ ->]]]].
    - exists t0. split; [reflexivity|]. left. now split.
    - exists (new_track k (in_now inp)). rewrite Hk. split; [reflexivity|].
      right. rewrite <- Hk. split; [exact Hnone|]. repeat split. }
  destruct Origin as [t0 [Htr Horigin]].
  assert (Hget1 : dict_get k (tracks tracker) = Some (moved inp t0)).
  { rewrite Htr. apply dict_get_set_same. }
  rewrite Hget1.
  exists k, t0.
  assert (Idle : exists t2,
             tracks tracker = dict_set k t2 (tracks s)
             /\ out_track (idle k (moved inp t0)) = Some (k, t2)
             /\ ((dict_get k (tracks s) = Some t0
                  /\ next_id tracker = next_id s)
                 \/ (dict_get k (tracks s) = None /\ k = next_id s
                     /\ next_id tracker = next_id s + 1
                     /\ t0 = new_track k (in_now inp)))
             /\ (t2 = moved inp t0
                 /\ out_update (idle k (moved inp t0)) = None
                 /\ out_events (idle k (moved inp t0)) = [])).
  { exists (moved inp t0). repeat split; assumption. }
  destruct (should_process (moved inp t0) _) eqn:Hsp; cbn [fst snd];
    [|destruct Idle as [t2 [I1 [I2 [I3 I4]]]]; exists t2;
      repeat split; try assumption; now left].
  destruct (in_plate_img inp) as [img|] eqn:Himg; cbn [fst snd];
    [|destruct Idle as [t2 [I1 [I2 [I3 I4]]]]; exists t2;
      repeat split; try assumption; now left].
  destruct (OCREngine.process_plate L (Some img) (track_id (moved inp t0)))
    as [text c] eqn:Hocr.
  destruct (truthy_str text && Qgtb c 0) eqn:Hgo; cbn [fst snd];
    [|destruct Idle as [t2 [I1 [I2 [I3 I4]]]]; exists t2;
      repeat split; try assumption; now left].
  apply andb_prop in Hgo. destruct Hgo as [Htext Hc].
  apply Qgtb_true in Hc.
  exists (fst (fst (plate_part inp text c img (moved inp t0)))).
  unfold plate_part.
  destruct (update_plate text c (Some img) (moved inp t0)) as [tu b] eqn:Hup.
  cbn [fst snd].
  destruct (if b then commit inp tu text c (axle_count_of inp)
            else (tu, [], false)) as [[t3 ev] rs] eqn:Hc3.
  cbn [fst snd tracks next_id out_track out_update out_events].
  split; [rewrite Htr; apply dict_set_twice|].
  split; [reflexivity|]. split; [exact Horigin|].
  right. exists text, c, img. unfold plate_part. rewrite Hup.
  cbn [fst snd]. rewrite Hc3. cbn [fst snd].
  repeat split; assumption.
Qed.

End WithLibs.

Lemma advances_refl (t : VehicleTrack) : advances t t.
Proof.
  unfold advances. repeat split; try reflexivity; try apply Qle_refl;
    try lia; auto.
Qed.

Lemma advances_trans (t1 t2 t3 : VehicleTrack) :
  advances t1 t2 -> advances t2 t3 -> advances t1 t3.
Proof.
  unfold advances.
  intros [A1 [A2 [A3 [A4 [A5 [A6 [A7 [A8 A9]]]]]]]]
         [B1 [B2 [B3 [B4 [B5 [B6 [B7 [B8 B9]]]]]]]].
  repeat split; try congruence; try lia; auto;
    eapply Qle_trans; eassumption.
Qed.

Lemma update_position_advances (now : Q) (bbox : BBox) (dc : Q) (ac : Z)
    (t : VehicleTrack) :
  advances t (update_position now bbox dc ac t).
Proof.
  unfold advances, update_position; cbn.
  repeat split; try reflexivity; try apply Qle_refl; try lia; auto.
  - apply maxQ_ge_l.
  - rewrite maxZ_spec. lia.
Qed.

Lemma update_plate_advances (text : str) (c : Q) (img : option ndarray)
    (t : VehicleTrack) :
  advances t (fst (update_plate text c img t)).
Proof.
  unfold update_plate, check_exhausted. cbn.
  destruct (Qgtb c (best_ocr_confidence t)) eqn:Eb;
    [apply Qgtb_true, Qlt_le_weak in Eb;
     destruct (Qgtb c Config.OCR_CONFIDENCE_THRESHOLD)|];
    try destruct (_ >=? _); unfold advances; cbn;
    repeat split; try reflexivity; try apply Qle_refl; try lia; auto.
Qed.

(** The part of the loop body from [update_plate] on counts one attempt
    and otherwise only moves the track forward. *)
Lemma plate_part_advances (inp : Input) (text : str) (c : Q) (img : ndarray)
    (t : VehicleTrack) :
  let t' := fst (fst (plate_part inp text c img t)) in
  advances t t'
  /\ ocr_attempts t' = ocr_attempts t + 1
  /\ max_axle_count t' = max_axle_count t.
Proof.
  unfold plate_part. cbn [fst snd].
  pose proof (update_plate_advances text c (Some img) t) as A.
  pose proof (update_plate_fixed text c (Some img) t) as F. cbv zeta in F.
  destruct F as [_ [_ [Fa [_ [_ [_ Fx]]]]]].
  destruct (snd (update_plate text c (Some img) t)); cbn [fst];
    [|split; [exact A|split; assumption]].
  destruct (commit_facts inp (fst (update_plate text c (Some img) t))
                         text c (axle_count_of inp)) as [[-> | ->] _];
    [split; [exact A|split; assumption]|].
  split; [|split; assumption].
  unfold advances in *. cbn. exact A.
Qed.

Section Lifecycle.
Variable L : OCREngine.Libs.

(** A track found after the loop body under an id that was already
    handed out was stored before, and has only moved forward. *)
Lemma detection_backward (inp : Input) (s : VehicleTracker) :
  tracker_ok s ->
  forall i t',
    dict_get i (tracks (fst (process_detection L inp s))) = Some t' ->
    i < next_id s ->
    exists t, dict_get i (tracks s) = Some t /\ advances t t'.
Proof.
  intros Hok i t' Hi Hlt.
  destruct (process_detection_shape L inp s Hok)
    as [E|[k [t0 [t2 [Htr [_ [Horigin Hpart]]]]]]].
  - rewrite E in Hi. exists t'. split; [exact Hi|apply advances_refl].
  - rewrite Htr in Hi. destruct (Z.eq_dec i k) as [->|Hne].
    + rewrite dict_get_set_same in Hi. injection Hi as <-.
      destruct Horigin as [[H0 _]|[_ [Hk _]]]; [|lia].
      exists t0. split; [exact H0|].
      destruct Hpart as [[-> _]|[text [c [img [_ [_ [_ [_ [_ [-> _]]]]]]]]]].
      * apply update_position_advances.
      * eapply advances_trans; [apply update_position_advances|].
        apply plate_part_advances.
    + rewrite dict_get_set_other in Hi by exact Hne.
      exists t'. split; [exact Hi|apply advances_refl].
Qed.

Lemma step_backward (op : Op) (s : VehicleTracker) :
  tracker_ok s ->
  forall i t',
    dict_get i (tracks (fst (step L op s))) = Some t' -> i < next_id s ->
    exists t, dict_get i (tracks s) = Some t /\ advances t t'.
Proof.
  intros Hok i t' Hi Hlt. destruct op as [inp|ct ma]; cbn [step fst] in Hi.
  - now apply (detection_backward inp s Hok).
  - destruct (cleanup_effect ct ma s Hok) as [_ [_ E]].
    exists t'. split; [now apply E|apply advances_refl].
Qed.

Lemma run_backward_advances (ops : list Op) (s : VehicleTracker) :
  tracker_ok s ->
  forall i t',
    dict_get i (tracks (fst (run L ops s))) = Some t' -> i < next_id s ->
    exists t, dict_get i (tracks s) = Some t /\ advances t t'.
Proof.
  revert s. induction ops as [|op ops IH]; intros s Hok i t' Hi Hlt.
  - exists t'. split; [exact Hi|apply advances_refl].
  - rewrite run_cons in Hi. cbn [fst] in Hi.
    pose proof (step_effect L op s Hok) as E. cbv zeta in E.
    destruct E as [E1 [E2 _]].
    destruct (IH _ E1 i t' Hi ltac:(lia)) as [t1 [H1 A1]].
    destruct (step_backward op s Hok i t1 H1 Hlt) as [t [H0 A0]].
    exists t. split; [exact H0|]. eapply advances_trans; eassumption.
Qed.

End Lifecycle.

(** Over any run of the camera loop a stored track is removed or moves
    forward only: it keeps its id, attempt limit and creation time; its
    attempt count, best confidence, detection confidence and axle count
    never decrease; once LOCKED it stays LOCKED. *)
Theorem stored_track_only_advances (L : OCREngine.Libs)
    (s : VehicleTracker) (i : Z) (t : VehicleTrack) (ops : list Op) :
  reachable L s -> In (i, t) (tracks s) ->
  dict_get i (tracks (fst (run L ops s))) = None
  \/ exists t',
       dict_get i (tracks (fst (run L ops s))) = Some t' /\ advances t t'.
Proof.
  intros Hreach Hin.
  pose proof (reachable_ok L s Hreach) as Hok.
  pose proof Hok as [Hall [Hnd _]].
  destruct (Hall i t Hin) as [_ Hb].
  pose proof (In_dict_get i t _ Hnd Hin) as Hget.
  destruct (dict_get i (tracks (fst (run L ops s)))) as [t'|] eqn:Ht';
    [|now left].
  right. exists t'. split; [reflexivity|].
  destruct (run_backward_advances L ops s Hok i t' Ht' ltac:(lia))
    as [t0 [H0 A]].
  congruence.
Qed.

End StepFacts.

(** ** The recognition budget *)

Module BudgetFacts.
Import Py Tracker VideoCamera Statements MoreStatements PyFacts DictFacts.
Import TrackFacts RegistryFacts CameraFacts RunFacts StepFacts.

Section WithLibs.
Variable L : OCREngine.Libs.

Lemma remaining_nonneg (s : VehicleTracker) (k : Z) :
  tracker_ok s -> 0 <= remaining s k.
Proof.
  intro Hok. unfold remaining.
  destruct (dict_get k (tracks s)) as [t|] eqn:E.
  - destruct (tracker_ok_get s k t Hok E) as [[_ [_ [Ha _]]] _]. lia.
  - destruct (k <? next_id s); lia.
Qed.

(** One operation uses up what it recognises. *)
Lemma remaining_step (op : Op) (s : VehicleTracker) (k : Z) :
  tracker_ok s ->
  (if recognised k (snd (step L op s)) then 1 else 0)
  + remaining (fst (step L op s)) k <= remaining s k.
Proof.
  intro Hok. destruct op as [inp|ct ma]; cbn [step fst snd].
  - destruct (process_detection_shape L inp s Hok)
      as [E|[k0 [t0 [t2 [Htr [Hout [Horigin Hpart]]]]]]].
    + rewrite E. cbn [fst snd]. unfold recognised. cbn. lia.
    + unfold remaining, recognised. rewrite Htr, Hout.
      destruct (Z.eq_dec k k0) as [->|Hne].
      * rewrite dict_get_set_same, Z.eqb_refl.
        assert (Hrem : remaining s k0
                       = max_ocr_attempts t0 - ocr_attempts t0).
        { unfold remaining.
          destruct Horigin as [[H0 _]|[H0 [Hk [_ Ht0]]]]; rewrite H0.
          - reflexivity.
          - destruct (Z.ltb_spec k0 (next_id s)); [lia|].
            rewrite Ht0. reflexivity. }
        unfold remaining in Hrem. rewrite Hrem.
        destruct Hpart as [[-> [-> _]]|[text [c [img [_ [_ [_ [_ [_
                             [-> [-> _]]]]]]]]]]].
        -- unfold moved.
           cbn [update_position max_ocr_attempts ocr_attempts]. lia.
        -- destruct (plate_part_advances inp text c img (moved inp t0))
             as [[_ [Hmax _]] [Hatt _]].
           rewrite Hmax, Hatt. unfold moved.
           cbn [update_position max_ocr_attempts ocr_attempts]. lia.
      * rewrite dict_get_set_other by exact Hne.
        assert (Hrec : (match out_update (snd (process_detection L inp s))
                        with Some _ => k0 =? k | None => false end) = false).
        { destruct (out_update _); [|reflexivity].
          apply Z.eqb_neq. congruence. }
        rewrite Hrec.
        destruct (dict_get k (tracks s)); [lia|].
        destruct Horigin as [[_ ->]|[_ [Hk [-> _]]]]; [lia|].
        destruct (Z.ltb_spec k (next_id s + 1));
          destruct (Z.ltb_spec k (next_id s)); lia.
  - unfold recognised. cbn [no_outcome out_track].
    destruct (cleanup_effect ct ma s Hok) as [_ [Hn E]].
    unfold remaining. rewrite Hn.
    destruct (dict_get k (tracks (cleanup_old_tracks ct ma s)))
      as [t|] eqn:Hk.
    + rewrite (E k t Hk). lia.
    + pose proof (remaining_nonneg s k Hok) as Hnn. unfold remaining in Hnn.
      destruct (dict_get k (tracks s)) as [t|] eqn:Hk0; [|lia].
      destruct (tracker_ok_get s k t Hok Hk0) as [_ Hb].
      destruct (Z.ltb_spec k (next_id s)); lia.
Qed.

Lemma run_recognitions (ops : list Op) (s : VehicleTracker) (k : Z) :
  tracker_ok s ->
  Z.of_nat (List.length (filter (recognised k) (snd (run L ops s))))
  <= remaining s k.
Proof.
  revert s. induction ops as [|op ops IH]; intros s Hok.
  - simpl. now apply remaining_nonneg.
  - rewrite run_cons. cbn [snd filter].
    pose proof (remaining_step op s k Hok) as Hs.
    pose proof (step_effect L op s Hok) as E. cbv zeta in E.
    destruct E as [E1 _]. specialize (IH _ E1).
    destruct (recognised k (snd (step L op s))); cbn [List.length]; lia.
Qed.

End WithLibs.

(** In any run of the camera loop a recognition result reaches
    [update_plate] at most twice for any one track: at most
    [max_ocr_attempts - ocr_attempts] more times for a stored track, and
    at most twice for an id from its creation on. *)
Theorem recognitions_within_budget (L : OCREngine.Libs) :
  (forall ops k,
      (List.length (filter (recognised k) (snd (run L ops init))) <= 2)%nat)
  /\ (forall s k t ops,
         reachable L s -> In (k, t) (tracks s) ->
         Z.of_nat (List.length (filter (recognised k) (snd (run L ops s))))
         <= max_ocr_attempts t - ocr_attempts t).
Proof.
  split.
  - intros ops k.
    pose proof (run_recognitions L ops init k (init_ok)) as H.
    unfold remaining in H. simpl in H.
    destruct (k <? 0); lia.
  - intros s k t ops Hreach Hin.
    pose proof (reachable_ok L s Hreach) as Hok.
    pose proof (run_recognitions L ops s k Hok) as H.
    unfold remaining in H.
    destruct Hok as [_ [Hnd _]].
    now rewrite (In_dict_get k t _ Hnd Hin) in H.
Qed.

End BudgetFacts.

(** ** What holds along every run *)

Module RunProperties.
Import Py Tracker VideoCamera Statements MoreStatements PyFacts DictFacts.
Import TrackFacts RegistryFacts CameraFacts RunFacts StepFacts.

Section WithLibs.
Variable L : OCREngine.Libs.

(** Where the axle count of a track found after the loop body comes
    from. *)
Lemma detection_axles (inp : Input) (s : VehicleTracker) (k : Z)
    (t : VehicleTrack) :
  tracker_ok s ->
  In (k, t) (tracks (fst (process_detection L inp s))) ->
  In (k, t) (tracks s)
  \/ exists t0,
       (In (k, t0) (tracks s) \/ t0 = new_track k (in_now inp))
       /\ max_axle_count t
          = Z.max (max_axle_count t0) (axle_count_of inp).
Proof.
  intros Hok Hin.
  destruct (process_detection_shape L inp s Hok)
    as [E|[k0 [t0 [t2 [Htr [_ [Horigin Hpart]]]]]]].
  - rewrite E in Hin. now left.
  - rewrite Htr in Hin. apply In_dict_set in Hin.
    destruct Hin as [[-> ->]|Hin]; [|now left].
    right. exists t0. split.
    + destruct Horigin as [[H0 _]|[_ [_ [_ H0]]]].
      * left. now apply dict_get_In.
      * now right.
    + assert (Hm : max_axle_count (moved inp t0)
                   = Z.max (max_axle_count t0) (axle_count_of inp)).
      { unfold moved. cbn [update_position max_axle_count].
        apply maxZ_spec. }
      destruct Hpart as [[-> _]|[text [c [img [_ [_ [_ [_ [_ [-> _]]]]]]]]]].
      * exact Hm.
      * destruct (plate_part_advances inp text c img (moved inp t0))
          as [_ [_ Hx]].
        now rewrite Hx.
Qed.

Lemma run_axles_low (ops : list Op) (s : VehicleTracker) :
  tracker_ok s ->
  (forall k t, In (k, t) (tracks s) -> 2 <= max_axle_count t) ->
  forall k t, In (k, t) (tracks (fst (run L ops s))) ->
              2 <= max_axle_count t.
Proof.
  revert s. induction ops as [|op ops IH]; intros s Hok Hlow k t Hin;
    [now apply (Hlow k)|].
  rewrite run_cons in Hin. cbn [fst] in Hin.
  pose proof (step_effect L op s Hok) as E. cbv zeta in E.
  destruct E as [E1 _].
  apply (IH _ E1) with (k := k); [|exact Hin].
  intros k' t' Hin'. destruct op as [inp|ct ma]; cbn [step fst] in Hin'.
  - destruct (detection_axles inp s k' t' Hok Hin')
      as [H|[t0 [[H| ->] Hm]]].
    + now apply (Hlow k').
    + specialize (Hlow k' t0 H). lia.
    + rewrite Hm. simpl. lia.
  - apply (Hlow k'). unfold cleanup_old_tracks in Hin'.
    cbn [tracks] in Hin'. now apply fold_dict_del_In in Hin'.
Qed.

Lemma run_axles_high (ops : list Op) (s : VehicleTracker) :
  tracker_ok s -> Forall axles_capped ops ->
  (forall k t, In (k, t) (tracks s) -> max_axle_count t <= 8) ->
  forall k t, In (k, t) (tracks (fst (run L ops s))) ->
              max_axle_count t <= 8.
Proof.
  revert s. induction ops as [|op ops IH]; intros s Hok Hcap Hhigh k t Hin;
    [now apply (Hhigh k)|].
  rewrite run_cons in Hin. cbn [fst] in Hin.
  inversion Hcap as [|? ? Hop Hrest]; subst.
  pose proof (step_effect L op s Hok) as E. cbv zeta in E.
  destruct E as [E1 _].
  apply (IH _ E1 Hrest) with (k := k); [|exact Hin].
  intros k' t' Hin'. destruct op as [inp|ct ma]; cbn [step fst] in Hin'.
  - simpl in Hop.
    destruct (detection_axles inp s k' t' Hok Hin')
      as [H|[t0 [[H| ->] Hm]]].
    + now apply (Hhigh k').
    + specialize (Hhigh k' t0 H). lia.
    + rewrite Hm. simpl. lia.
  - apply (Hhigh k'). unfold cleanup_old_tracks in Hin'.
    cbn [tracks] in Hin'. now apply fold_dict_del_In in Hin'.
Qed.

End WithLibs.

(** The axle count a track holds is the running maximum of what the
    detections gave, starting from 2: it is never below 2, and it is at
    most 8 when every detection carries at most 8 axles. *)
Theorem track_axles_between_2_and_8 (L : OCREngine.Libs) (ops : list Op)
    (k : Z) (t : VehicleTrack) :
  In (k, t) (tracks (fst (run L ops init))) ->
  2 <= max_axle_count t
  /\ (Forall axles_capped ops -> max_axle_count t <= 8).
Proof.
  intro Hin. split.
  - apply (run_axles_low L ops init init_ok) with (k := k); [|exact Hin].
    intros k' t' [].
  - intro Hcap.
    apply (run_axles_high L ops init init_ok Hcap) with (k := k);
      [|exact Hin].
    intros k' t' [].
Qed.

End RunProperties.

(** ** Failing engines, and storing once *)

Module CommitOnce.
Import Py Tracker VideoCamera Statements MoreStatements PyFacts DictFacts.
Import TrackFacts RegistryFacts CameraFacts RunFacts StepFacts.

(** When both recognition calls raise, [process_plate] returns the empty
    reading. *)
Lemma process_plate_dead (L : OCREngine.Libs) (img : option ndarray)
    (id : Z) :
  (forall i, OCREngine.image_to_data L i = None) ->
  (forall i, OCREngine.readtext L i = None) ->
  OCREngine.process_plate L img id = ([], 0%Q).
Proof.
  intros Ht He. unfold OCREngine.process_plate.
  destruct img as [i|]; [|reflexivity].
  destruct (OCREngine.cv_threshold L i) as [th|]; [|reflexivity].
  unfold OCREngine._tesseract_ocr, OCREngine._easyocr_ocr.
  rewrite Ht, He. reflexivity.
Qed.

Section WithLibs.
Variable L : OCREngine.Libs.
Hypothesis tesseract_raises : forall i, OCREngine.image_to_data L i = None.
Hypothesis easyocr_raises : forall i, OCREngine.readtext L i = None.

Lemma dead_step (op : Op) (s : VehicleTracker) :
  tracker_ok s ->
  (forall k t, In (k, t) (tracks s) ->
               ocr_attempts t = 0 /\ state t = TRACKING) ->
  (out_update (snd (step L op s)) = None
   /\ out_events (snd (step L op s)) = [])
  /\ forall k t, In (k, t) (tracks (fst (step L op s))) ->
                 ocr_attempts t = 0 /\ state t = TRACKING.
Proof.
  intros Hok Hall. destruct op as [inp|ct ma]; cbn [step fst snd].
  - destruct (process_detection_shape L inp s Hok)
      as [E|[k0 [t0 [t2 [Htr [_ [Horigin Hpart]]]]]]].
    + rewrite E. cbn [fst snd]. split; [now split|exact Hall].
    + destruct Hpart as [[Ht2 [Hu He]]|[text [c [img [_ [_ [Hocr [Htext _]]]]]]]].
      * split; [now split|]. intros k t Hin. rewrite Htr in Hin.
        apply In_dict_set in Hin. destruct Hin as [[-> ->]|Hin];
          [|now apply (Hall k)].
        rewrite Ht2. unfold moved. cbn [update_position ocr_attempts state].
        destruct Horigin as [[H0 _]|[_ [_ [_ ->]]]].
        -- apply (Hall k0). now apply dict_get_In.
        -- now split.
      * rewrite (process_plate_dead L (Some img) _ tesseract_raises
                   easyocr_raises) in Hocr.
        injection Hocr as <- <-. discriminate.
  - split; [now split|]. intros k t Hin. apply (Hall k).
    unfold cleanup_old_tracks in Hin. cbn [tracks] in Hin.
    now apply fold_dict_del_In in Hin.
Qed.

Lemma dead_run (ops : list Op) (s : VehicleTracker) :
  tracker_ok s ->
  (forall k t, In (k, t) (tracks s) ->
               ocr_attempts t = 0 /\ state t = TRACKING) ->
  (forall o, In o (snd (run L ops s)) ->
             out_update o = None /\ out_events o = [])
  /\ forall k t, In (k, t) (tracks (fst (run L ops s))) ->
                 ocr_attempts t = 0 /\ state t = TRACKING.
Proof.
  revert s. induction ops as [|op ops IH]; intros s Hok Hall.
  - split; [intros o []|exact Hall].
  - rewrite run_cons. cbn [fst snd].
    destruct (dead_step op s Hok Hall) as [Ho Hall1].
    pose proof (step_effect L op s Hok) as E. cbv zeta in E.
    destruct E as [E1 _].
    destruct (IH _ E1 Hall1) as [I1 I2].
    split; [|exact I2]. intros o [<-|Hin]; [exact Ho|now apply I1].
Qed.

End WithLibs.

(** When both recognition engines raise on every image, the camera loop
    never counts an attempt, never locks a track and never saves, stores
    or broadcasts anything: a failed recognition is a reading that is
    thrown away. *)
Theorem failing_engines_spend_nothing (L : OCREngine.Libs)
    (ops : list Op) :
  (forall i, OCREngine.image_to_data L i = None) ->
  (forall i, OCREngine.readtext L i = None) ->
  (forall o, In o (snd (run L ops init)) ->
             out_update o = None /\ out_events o = [])
  /\ forall k t, In (k, t) (tracks (fst (run L ops init))) ->
                 ocr_attempts t = 0 /\ state t = TRACKING.
Proof.
  intros Ht He. apply (dead_run L Ht He ops init init_ok).
  intros k t [].
Qed.

Lemma failing_engines_spend_nothing_witness :
  (forall i, OCREngine.image_to_data dead_libs i = None)
  /\ (forall i, OCREngine.readtext dead_libs i = None)
  /\ forall k t,
       In (k, t) (tracks (fst (run dead_libs exhausting_run init))) ->
       ocr_attempts t = 0 /\ state t = TRACKING.
Proof.
  assert (H1 : forall i, OCREngine.image_to_data dead_libs i = None)
    by reflexivity.
  assert (H2 : forall i, OCREngine.readtext dead_libs i = None)
    by reflexivity.
  split; [exact H1|]. split; [exact H2|].
  exact (proj2 (failing_engines_spend_nothing dead_libs exhausting_run
                  H1 H2)).
Defined.

End CommitOnce.

(** ** Each track is stored at most once *)

Module StoreOnce.
Import Py Tracker VideoCamera Statements MoreStatements PyFacts DictFacts.
Import TrackFacts RegistryFacts CameraFacts RunFacts StepFacts.

Lemma commit_one_upsert (inp : Input) (t : VehicleTrack) (text : str)
    (c : Q) (ax i : Z) :
  (List.length
     (filter (is_upsert_for i) (snd (fst (commit inp t text c ax))))
   <= 1)%nat.
Proof.
  unfold commit. destruct (truthy_opt_str (in_saved inp)).
  - cbn [fst snd filter is_upsert_for]. destruct (_ =? i); cbn; lia.
  - cbn. lia.
Qed.

Lemma upsert_is_about (i : Z) (e : Event) :
  is_upsert_for i e = true -> event_track e = i.
Proof.
  destruct e; simpl; try discriminate. apply Z.eqb_eq.
Qed.

Lemma quiet_no_upsert (o : Outcome) (i : Z) :
  quiet o i -> filter (is_upsert_for i) (out_events o) = [].
Proof.
  intros [Q _]. induction (out_events o) as [|e es IH]; [reflexivity|].
  simpl. destruct (is_upsert_for i e) eqn:He.
  - exfalso. apply (Q e); [now left|]. now apply upsert_is_about.
  - apply IH. intros e' Hin. apply Q. now right.
Qed.

Lemma all_quiet_no_upsert (os : list Outcome) (i : Z) :
  (forall o, In o os -> quiet o i) ->
  filter (is_upsert_for i) (all_events os) = [].
Proof.
  unfold all_events. induction os as [|o os IH]; intro H; [reflexivity|].
  simpl. rewrite filter_app, (quiet_no_upsert o i), IH.
  - reflexivity.
  - intros o' Hin. apply H. now right.
  - apply H. now left.
Qed.

Section WithLibs.
Variable L : OCREngine.Libs.

Lemma step_one_upsert (op : Op) (s : VehicleTracker) (i : Z) :
  tracker_ok s ->
  (List.length (filter (is_upsert_for i) (out_events (snd (step L op s))))
   <= 1)%nat.
Proof.
  intro Hok. destruct op as [inp|ct ma]; cbn [step snd]; [|cbn; lia].
  destruct (process_detection_shape L inp s Hok)
    as [E|[k0 [t0 [t2 [_ [_ [_ Hpart]]]]]]].
  - rewrite E. cbn. lia.
  - destruct Hpart as [[_ [_ ->]]|[text [c [img [_ [_ [_ [_ [_ [_ [_ ->]]]]]]]]]]].
    + cbn. lia.
    + unfold plate_part. cbn [snd].
      destruct (snd (update_plate text c (Some img) (moved inp t0)));
        [apply commit_one_upsert|cbn; lia].
Qed.

Lemma run_one_upsert (ops : list Op) (s : VehicleTracker) (i : Z) :
  tracker_ok s ->
  (List.length (filter (is_upsert_for i) (all_events (snd (run L ops s))))
   <= 1)%nat.
Proof.
  revert s. induction ops as [|op ops IH]; intros s Hok; [cbn; lia|].
  rewrite run_cons. cbn [snd]. unfold all_events. cbn [map List.concat].
  fold (all_events (snd (run L ops (fst (step L op s))))).
  rewrite filter_app, length_app.
  pose proof (step_one_upsert op s i Hok) as Hone.
  pose proof (step_effect L op s Hok) as E. cbv zeta in E.
  destruct E as [E1 [_ [_ [_ [E5 E6]]]]].
  destruct (filter (is_upsert_for i) (out_events (snd (step L op s))))
    as [|e es] eqn:Hf.
  - cbn [List.length]. apply (IH _ E1).
  - assert (Hin : In e (filter (is_upsert_for i)
                               (out_events (snd (step L op s)))))
      by (rewrite Hf; now left).
    apply filter_In in Hin. destruct Hin as [Hin He].
    apply upsert_is_about in He.
    destruct (E6 e Hin) as [k [t [text [c [Ht [Hu [Hk _]]]]]]].
    destruct (E5 k t text c true Ht Hu) as [_ Hc].
    destruct (Hc eq_refl) as [Hcomp _].
    rewrite He in Hk. rewrite <- Hk in Ht.
    pose proof (complete_finished L op s i t Hok Ht Hcomp) as Hfin.
    rewrite (all_quiet_no_upsert _ i
               (finished_quiet_run L ops _ i E1 Hfin)).
    cbn [List.length] in *. lia.
Qed.

End WithLibs.

(** Over any run of the camera loop from a new tracker, the database
    upsert is called at most once for any track id: a track's result is
    stored once or never. *)
Theorem each_track_stored_at_most_once (L : OCREngine.Libs)
    (ops : list Op) (i : Z) :
  (List.length
     (filter (is_upsert_for i) (all_events (snd (run L ops init))))
   <= 1)%nat.
Proof. apply run_one_upsert, init_ok. Qed.

End StoreOnce.

(** ** Instances *)

Module RunWitnesses.
Import Py Tracker VideoCamera Statements MoreStatements.
Import StepFacts BudgetFacts RunProperties.

Lemma stored_track_only_advances_witness :
  reachable sure_libs locked_tracker
  /\ In (0, locked_track) (tracks locked_tracker)
  /\ exists t',
       dict_get 0 (tracks (fst (run sure_libs [six_axle_detection]
                                    locked_tracker))) = Some t'
       /\ advances locked_track t'.
Proof.
  assert (H1 : reachable sure_libs locked_tracker).
  { exists [first_detection]. reflexivity. }
  assert (H2 : In (0, locked_track) (tracks locked_tracker)).
  { left. reflexivity. }
  split; [exact H1|]. split; [exact H2|].
  destruct (stored_track_only_advances sure_libs locked_tracker 0
              locked_track [six_axle_detection] H1 H2) as [H|H].
  - vm_compute in H. discriminate.
  - exact H.
Defined.

Lemma recognitions_within_budget_witness :
  reachable unsure_libs (fst (run unsure_libs [first_detection] init))
  /\ (List.length
        (filter (recognised 0)
                (snd (run unsure_libs exhausting_run init))) <= 2)%nat.
Proof.
  split.
  - exists [first_detection]. reflexivity.
  - exact (proj1 (recognitions_within_budget unsure_libs)
                 exhausting_run 0).
Defined.

Lemma track_axles_between_2_and_8_witness :
  In (0, six_axle_track) (tracks (fst (run sure_libs six_axle_run init)))
  /\ Forall axles_capped six_axle_run
  /\ max_axle_count six_axle_track = 6
  /\ 2 <= max_axle_count six_axle_track <= 8.
Proof.
  assert (H1 : In (0, six_axle_track)
                  (tracks (fst (run sure_libs six_axle_run init)))).
  { left. reflexivity. }
  assert (H2 : Forall axles_capped six_axle_run).
  { constructor; [vm_compute; discriminate|].
    constructor; [vm_compute; discriminate|constructor]. }
  split; [exact H1|]. split; [exact H2|]. split; [reflexivity|].
  destruct (track_axles_between_2_and_8 sure_libs _ _ _ H1) as [A B].
  split; [exact A|exact (B H2)].
Defined.

End RunWitnesses.

(** ** The frame loop and the awaited upsert *)

Module FrameFacts.
Import Py Tracker VideoCamera Statements MoreStatements PyFacts DictFacts.
Import TrackFacts RegistryFacts CameraFacts RunFacts.

Lemma commit_calls (inp : Input) (t : VehicleTrack) (text : str) (c : Q)
    (ax : Z) :
  let r := commit inp t text c ax in
  Forall (fun e => is_broadcast e = false) (snd (fst r))
  /\ snd r = existsb is_upsert (snd (fst r))
  /\ (List.length (filter is_upsert (snd (fst r))) <= 1)%nat.
Proof.
  unfold commit. destruct (truthy_opt_str (in_saved inp)); cbn.
  - split; [repeat constructor|]. split; [reflexivity|lia].
  - split; [repeat constructor|]. split; [reflexivity|lia].
Qed.

Section WithLibs.
Variable L : OCREngine.Libs.

(** The loop body raises exactly when it has called
    [add_vehicle_detection]; it makes that call at most once and never
    calls [broadcast_vehicle_update]. *)
Lemma detection_calls (inp : Input) (s : VehicleTracker) :
  let o := snd (process_detection L inp s) in
  Forall (fun e => is_broadcast e = false) (out_events o)
  /\ out_raised o = existsb is_upsert (out_events o)
  /\ (List.length (filter is_upsert (out_events o)) <= 1)%nat.
Proof.
  cbv zeta.
  pose proof (process_detection_cases L inp s) as C. cbv zeta in C.
  destruct C as [C|[[_ C]|[t1 [_ [C|[text [c [img [_ [_ [_ C]]]]]]]]]]];
    rewrite C; cbn [snd out_events out_raised];
    try (split; [constructor|split; [reflexivity|cbn; lia]]).
  unfold plate_part, plate_raised. cbn [fst snd].
  destruct (snd (update_plate text c (Some img) t1)); cbn [fst snd];
    [|split; [constructor|split; [reflexivity|cbn; lia]]].
  apply commit_calls.
Qed.

Lemma process_detections_cons (inp : Input) (rest : list Input)
    (s : VehicleTracker) :
  process_detections L (inp :: rest) s
  = if out_raised (snd (process_detection L inp s))
    then (fst (process_detection L inp s),
          [snd (process_detection L inp s)])
    else (fst (process_detections L rest (fst (process_detection L inp s))),
          snd (process_detection L inp s)
          :: snd (process_detections L rest
                    (fst (process_detection L inp s)))).
Proof.
  cbn [process_detections].
  destruct (process_detection L inp s) as [s1 o]. cbn [fst snd].
  destruct (out_raised o); [reflexivity|].
  destruct (process_detections L rest s1) as [s2 os]. reflexivity.
Qed.

Lemma run_never_broadcasts (ops : list Op) (s : VehicleTracker) :
  Forall (fun o => Forall (fun e => is_broadcast e = false)
                          (out_events o))
         (snd (run L ops s)).
Proof.
  revert s. induction ops as [|op ops IH]; intro s; [constructor|].
  rewrite run_cons. cbn [snd]. constructor; [|apply IH].
  destruct op as [inp|ct ma]; cbn [step snd].
  - apply (detection_calls inp s).
  - constructor.
Qed.

End WithLibs.

(** [get_frame] never calls [broadcast_vehicle_update]: in no frame and
    over no run of the camera loop, from any tracker, is a broadcast
    among the calls made, because the await of the value
    [add_vehicle_detection] returns raises before the broadcast is
    reached. *)
Theorem broadcast_never_reached (L : OCREngine.Libs) (s : VehicleTracker) :
  (forall ops,
      Forall (fun o => Forall (fun e => is_broadcast e = false)
                              (out_events o))
             (snd (run L ops s)))
  /\ (forall inps,
         Forall (fun o => Forall (fun e => is_broadcast e = false)
                                 (out_events o))
                (snd (process_detections L inps s))).
Proof.
  split; [intro ops; apply run_never_broadcasts|].
  intro inps.
  destruct (process_detections_run L inps s) as [n [_ ->]].
  apply run_never_broadcasts.
Qed.

(** A frame is handled up to and including the first detection whose
    result is stored: the frame loop is the run of a prefix of the
    frame's detections, it calls [add_vehicle_detection] at most once per
    frame, a detection for which the call is made is the last one
    handled, and when no call is made every detection of the frame is
    handled. *)
Theorem frame_stops_after_upsert (L : OCREngine.Libs)
    (inps : list Input) (s : VehicleTracker) :
  let r := process_detections L inps s in
  (exists n,
      (n <= List.length inps)%nat
      /\ List.length (snd r) = n
      /\ r = run L (map Detect (firstn n inps)) s)
  /\ (List.length (filter is_upsert (all_events (snd r))) <= 1)%nat
  /\ (forall os1 o os2,
         snd r = os1 ++ o :: os2 ->
         existsb is_upsert (out_events o) = true -> os2 = [])
  /\ (Forall (fun o => existsb is_upsert (out_events o) = false) (snd r) ->
      List.length (snd r) = List.length inps).
Proof.
  cbv zeta. revert s. induction inps as [|inp rest IH]; intro s.
  - split; [|split; [|split]].
    + exists 0%nat. repeat split. apply Nat.le_refl.
    + cbn. lia.
    + intros os1 o os2 H. destruct os1; discriminate.
    + reflexivity.
  - rewrite process_detections_cons.
    destruct (detection_calls L inp s) as [_ [Hr Hone]].
    set (o1 := snd (process_detection L inp s)) in *.
    set (s1 := fst (process_detection L inp s)) in *.
    assert (Hstep : step L (Detect inp) s = (s1, o1)).
    { subst s1 o1. cbn [step]. now destruct (process_detection L inp s). }
    destruct (out_raised o1) eqn:Hraised; cbn [fst snd].
    + split; [|split; [|split]].
      * exists 1%nat. split; [cbn [List.length]; lia|].
        split; [reflexivity|].
        cbn [firstn map run]. rewrite Hstep. reflexivity.
      * unfold all_events. cbn [map List.concat]. rewrite app_nil_r.
        exact Hone.
      * intros os1 o os2 H _. destruct os1 as [|o' os1].
        -- now injection H.
        -- injection H as _ H. destruct os1; discriminate.
      * intro H. inversion H as [|? ? Hno _]; subst.
        rewrite <- Hr in Hno. discriminate.
    + destruct (IH s1) as [[n [Hn [Hlen Hrun]]] [Hle [Hlast Hall]]].
      split; [|split; [|split]].
      * exists (S n). split; [cbn [List.length]; lia|].
        split; [cbn [List.length]; now rewrite Hlen|].
        cbn [firstn map run]. rewrite Hstep, <- Hrun.
        now destruct (process_detections L rest s1).
      * unfold all_events in *. cbn [map List.concat].
        rewrite filter_app, length_app.
        assert (Hnone : filter is_upsert (out_events o1) = []).
        { clear - Hr. symmetry in Hr. revert Hr.
          generalize (out_events o1). intro es.
          induction es as [|e es IHe]; intro Hr; [reflexivity|].
          cbn [existsb] in Hr. apply orb_false_iff in Hr.
          destruct Hr as [He Hes]. cbn [filter]. rewrite He.
          now apply IHe. }
        rewrite Hnone. cbn [List.length]. exact Hle.
      * intros os1 o os2 H Hup. destruct os1 as [|o' os1].
        -- injection H as -> _. rewrite <- Hr in Hup. congruence.
        -- injection H as _ H. exact (Hlast os1 o os2 H Hup).
      * intro H. inversion H as [|? ? _ Hrest]; subst.
        cbn [List.length]. now rewrite (Hall Hrest).
Qed.

Lemma frame_stops_after_upsert_witness :
  snd (process_detections sure_libs two_plate_frame init)
  = [] ++ snd (process_detection sure_libs
                 (plate_input 0 plate_a (9 # 10) 2) init) :: []
  /\ existsb is_upsert
       (out_events (snd (process_detection sure_libs
                           (plate_input 0 plate_a (9 # 10) 2) init)))
     = true
  /\ (forall os2,
         snd (process_detections sure_libs two_plate_frame init)
         = [] ++ snd (process_detection sure_libs
                        (plate_input 0 plate_a (9 # 10) 2) init) :: os2 ->
         os2 = [])
  /\ keys (tracks (fst (process_detections sure_libs two_plate_frame init)))
     = [0]
  /\ keys (tracks (fst (run sure_libs (map Detect two_plate_frame) init)))
     = [0; 1].
Proof.
  assert (H1 : snd (process_detections sure_libs two_plate_frame init)
               = [] ++ snd (process_detection sure_libs
                              (plate_input 0 plate_a (9 # 10) 2) init)
                       :: []) by reflexivity.
  assert (H2 : existsb is_upsert
                 (out_events (snd (process_detection sure_libs
                                     (plate_input 0 plate_a (9 # 10) 2)
                                     init)))
               = true) by reflexivity.
  split; [exact H1|]. split; [exact H2|]. split; [|split; reflexivity].
  intros os2 H.
  exact (proj1 (proj2 (proj2
           (frame_stops_after_upsert sure_libs two_plate_frame init)))
           [] _ os2 H H2).
Defined.

End FrameFacts.
